(** * Squirel OS: the interactive console core

    A shallow embedding of the keyboard decoder
    ([kernel/drivers/keyboard/keyboard.c]), the VGA text console
    ([kernel/drivers/vga/vga_text.c]), the command-line parser
    ([kernel/shell/parser/parser.c]) and the shell's line editor and
    dispatcher ([kernel/shell/shell.c]), with the properties the
    specification states about them.  The code these call or that stands
    beside them (the C library, [print_uint], the number parsers of
    [memdump], the [echo] and [color] commands) is embedded as well, for
    the further properties of the last part.

    Conventions.  C integers are [Z]; every conversion to a fixed-width type
    is written out ([uint8], [uint16], [uint64], [sint32]).  A [char] is the
    [Z] value the C expression has after promotion to [int]; the console
    and the parser are stated for every such value, and where the range
    matters ([strcmp]) plain [char] is the signed byte of x86-64.  Arrays
    are lists read with [!!] and written with [<[_:=_]>]; device registers
    written through [outb] are collected in a log. *)

From Stdlib Require Import ZArith Lia.
From stdpp Require Import base list strings gmap.

Local Open Scope Z_scope.

(** ** Fixed-width conversions ([include/squirel/types.h]) *)

Definition uint8 (z : Z) : Z := z `mod` 256.
Definition uint16 (z : Z) : Z := z `mod` 65536.
Definition uint64 (z : Z) : Z := z `mod` 18446744073709551616.
Definition sint32 (z : Z) : Z := (z + 2147483648) `mod` 4294967296 - 2147483648.

Ltac zwrap :=
  unfold uint8, uint16, uint64, sint32 in *; Z.div_mod_to_equations; lia.

(** C string literals of the sources, as the list of their character codes
    (the terminating NUL is implicit). *)
Fixpoint cstr (s : string) : list Z :=
  match s with
  | EmptyString => []
  | String a s' => Z.of_N (Ascii.N_of_ascii a) :: cstr s'
  end.

(** ** Keyboard decoder ([kernel/drivers/keyboard/keyboard.c]) *)

Module Keyboard.

(** [include/squirel/config.h] *)
Definition KEYBOARD_DATA_PORT : Z := 0x60.
Definition KEYBOARD_STATUS_PORT : Z := 0x64.

(** [keyboard.h] *)
Definition KEY_NONE : Z := 0.
Definition KEY_SPECIAL : Z := 0x100.
Definition KEY_F1 : Z := Z.lor KEY_SPECIAL 0x3B.
Definition KEY_F2 : Z := Z.lor KEY_SPECIAL 0x3C.
Definition KEY_F3 : Z := Z.lor KEY_SPECIAL 0x3D.
Definition KEY_F4 : Z := Z.lor KEY_SPECIAL 0x3E.
Definition KEY_F5 : Z := Z.lor KEY_SPECIAL 0x3F.
Definition KEY_F6 : Z := Z.lor KEY_SPECIAL 0x40.
Definition KEY_F7 : Z := Z.lor KEY_SPECIAL 0x41.
Definition KEY_F8 : Z := Z.lor KEY_SPECIAL 0x42.
Definition KEY_F9 : Z := Z.lor KEY_SPECIAL 0x43.
Definition KEY_F10 : Z := Z.lor KEY_SPECIAL 0x44.
Definition KEY_F11 : Z := Z.lor KEY_SPECIAL 0x57.
Definition KEY_F12 : Z := Z.lor KEY_SPECIAL 0x58.
Definition KEY_UP : Z := Z.lor KEY_SPECIAL 0x48.
Definition KEY_DOWN : Z := Z.lor KEY_SPECIAL 0x50.
Definition KEY_LEFT : Z := Z.lor KEY_SPECIAL 0x4B.
Definition KEY_RIGHT : Z := Z.lor KEY_SPECIAL 0x4D.
Definition KEY_HOME : Z := Z.lor KEY_SPECIAL 0x47.
Definition KEY_END : Z := Z.lor KEY_SPECIAL 0x4F.
Definition KEY_PAGEUP : Z := Z.lor KEY_SPECIAL 0x49.
Definition KEY_PAGEDOWN : Z := Z.lor KEY_SPECIAL 0x51.
Definition KEY_INSERT : Z := Z.lor KEY_SPECIAL 0x52.
Definition KEY_DELETE : Z := Z.lor KEY_SPECIAL 0x53.

(** The two translation tables, row by row as in the source. *)
Definition scancode_to_ascii_lower : list Z :=
  [ 0;   0x1B; 49;  50;  51;  52;  53;  54 ] ++   (* 0x00-0x07 *)
  [ 55;  56;  57;  48;  45;  61;  8;   9  ] ++    (* 0x08-0x0F *)
  [ 113; 119; 101; 114; 116; 121; 117; 105 ] ++   (* 0x10-0x17 *)
  [ 111; 112; 91;  93;  10;  0;   97;  115 ] ++   (* 0x18-0x1F *)
  [ 100; 102; 103; 104; 106; 107; 108; 59 ] ++    (* 0x20-0x27 *)
  [ 39;  96;  0;   92;  122; 120; 99;  118 ] ++   (* 0x28-0x2F *)
  [ 98;  110; 109; 44;  46;  47;  0;   42 ] ++    (* 0x30-0x37 *)
  [ 0;   32;  0;   0;   0;   0;   0;   0  ] ++    (* 0x38-0x3F *)
  [ 0;   0;   0;   0;   0;   0;   0;   55 ] ++    (* 0x40-0x47 *)
  [ 56;  57;  45;  52;  53;  54;  43;  49 ] ++    (* 0x48-0x4F *)
  [ 50;  51;  48;  46;  0;   0;   0;   0  ] ++    (* 0x50-0x57 *)
  replicate 40 0.                                 (* 0x58-0x7F *)

Definition scancode_to_ascii_upper : list Z :=
  [ 0;   0x1B; 33;  64;  35;  36;  37;  94 ] ++   (* 0x00-0x07 *)
  [ 38;  42;  40;  41;  95;  43;  8;   9  ] ++    (* 0x08-0x0F *)
  [ 81;  87;  69;  82;  84;  89;  85;  73 ] ++    (* 0x10-0x17 *)
  [ 79;  80;  123; 125; 10;  0;   65;  83 ] ++    (* 0x18-0x1F *)
  [ 68;  70;  71;  72;  74;  75;  76;  58 ] ++    (* 0x20-0x27 *)
  [ 34;  126; 0;   124; 90;  88;  67;  86 ] ++    (* 0x28-0x2F *)
  [ 66;  78;  77;  60;  62;  63;  0;   42 ] ++    (* 0x30-0x37 *)
  [ 0;   32;  0;   0;   0;   0;   0;   0  ] ++    (* 0x38-0x3F *)
  [ 0;   0;   0;   0;   0;   0;   0;   55 ] ++    (* 0x40-0x47 *)
  [ 56;  57;  45;  52;  53;  54;  43;  49 ] ++    (* 0x48-0x4F *)
  [ 50;  51;  48;  46;  0;   0;   0;   0  ] ++    (* 0x50-0x57 *)
  replicate 40 0.                                 (* 0x58-0x7F *)

(** The three file-level flags. *)
Record modifiers : Type := Modifiers {
  shift_pressed : bool;
  ctrl_pressed : bool;
  alt_pressed : bool
}.

Definition set_shift (b : bool) (m : modifiers) : modifiers :=
  Modifiers b (ctrl_pressed m) (alt_pressed m).
Definition set_ctrl (b : bool) (m : modifiers) : modifiers :=
  Modifiers (shift_pressed m) b (alt_pressed m).
Definition set_alt (b : bool) (m : modifiers) : modifiers :=
  Modifiers (shift_pressed m) (ctrl_pressed m) b.

(** The port gateway as the decoder sees it during one call: what the
    controller answers on each port.  [inb] returns a [uint8_t]. *)
Definition ports : Type := Z -> Z.

Definition inb (hw : ports) (port : Z) : Z := uint8 (hw port).

Definition keyboard_has_key (hw : ports) : bool :=
  negb (Z.land (inb hw KEYBOARD_STATUS_PORT) 0x01 =? 0).

Definition keyboard_read_scancode (hw : ports) : Z :=
  if negb (keyboard_has_key hw) then 0 else inb hw KEYBOARD_DATA_PORT.

(** The second [switch] of [keyboard_getchar_nonblock]. *)
Definition special_key (scancode : Z) : option Z :=
  if scancode =? 0x48 then Some KEY_UP
  else if scancode =? 0x50 then Some KEY_DOWN
  else if scancode =? 0x4B then Some KEY_LEFT
  else if scancode =? 0x4D then Some KEY_RIGHT
  else if scancode =? 0x47 then Some KEY_HOME
  else if scancode =? 0x4F then Some KEY_END
  else if scancode =? 0x49 then Some KEY_PAGEUP
  else if scancode =? 0x51 then Some KEY_PAGEDOWN
  else if scancode =? 0x52 then Some KEY_INSERT
  else if scancode =? 0x53 then Some KEY_DELETE
  else if scancode =? 0x3B then Some KEY_F1
  else if scancode =? 0x3C then Some KEY_F2
  else if scancode =? 0x3D then Some KEY_F3
  else if scancode =? 0x3E then Some KEY_F4
  else if scancode =? 0x3F then Some KEY_F5
  else if scancode =? 0x40 then Some KEY_F6
  else if scancode =? 0x41 then Some KEY_F7
  else if scancode =? 0x42 then Some KEY_F8
  else if scancode =? 0x43 then Some KEY_F9
  else if scancode =? 0x44 then Some KEY_F10
  else if scancode =? 0x57 then Some KEY_F11
  else if scancode =? 0x58 then Some KEY_F12
  else None.

(** [table[scancode]]; the index is below 128 after the release bit is
    cleared, see [table_index_in_range]. *)
Definition table_at (table : list Z) (scancode : Z) : Z :=
  default 0 (table !! Z.to_nat scancode).

(** [keyboard_getchar_nonblock], on the raw scancode it has read: the value
    returned and the flags afterwards. *)
Definition decode (raw : Z) (m : modifiers) : Z * modifiers :=
  if raw =? 0 then (KEY_NONE, m)
  else
    let released := negb (Z.land raw 0x80 =? 0) in
    let scancode := uint8 (Z.land raw 0x7F) in
    if (scancode =? 0x2A) || (scancode =? 0x36) then
      (KEY_NONE, set_shift (negb released) m)
    else if scancode =? 0x1D then (KEY_NONE, set_ctrl (negb released) m)
    else if scancode =? 0x38 then (KEY_NONE, set_alt (negb released) m)
    else if released then (KEY_NONE, m)
    else
      match special_key scancode with
      | Some k => (k, m)
      | None =>
          let table := if shift_pressed m then scancode_to_ascii_upper
                       else scancode_to_ascii_lower in
          let c := table_at table scancode in
          if c =? 0 then (KEY_NONE, m)
          else if ctrl_pressed m && (97 <=? c) && (c <=? 122)
               then (c - 97 + 1, m)
               else (c, m)
      end.

Definition keyboard_getchar_nonblock (hw : ports) (m : modifiers)
  : Z * modifiers :=
  decode (keyboard_read_scancode hw) m.

(** [keyboard_getchar] spins until a call decodes something.  [polls] lists
    what the controller answers at each successive poll; the result is the
    key, the flags and the polls not yet consumed, or [None] while the loop
    is still spinning when the list ends. *)
Fixpoint keyboard_getchar (polls : list ports) (m : modifiers)
  : option (Z * modifiers * list ports) :=
  match polls with
  | [] => None
  | hw :: rest =>
      let '(c, m') := keyboard_getchar_nonblock hw m in
      if c =? KEY_NONE then keyboard_getchar rest m' else Some (c, m', rest)
  end.

#[global] Instance modifiers_eq_dec : EqDecision modifiers.
Proof. solve_decision. Defined.

(** Every combination of the three flags. *)
Definition all_modifiers : list modifiers :=
  m ← [Modifiers false false false; Modifiers true false false];
  [m; set_ctrl true m; set_alt true m; set_alt true (set_ctrl true m)].

(** The flags after a run of polls that yield no key. *)
Definition flags_after (idle : list ports) (m : modifiers) : modifiers :=
  fold_left (fun m p => snd (keyboard_getchar_nonblock p m)) idle m.

(** A controller with a byte ready. *)
Definition pending (sc : Z) : ports :=
  fun port => if port =? KEYBOARD_STATUS_PORT then 0x01 else sc.

End Keyboard.

(** ** VGA text console ([kernel/drivers/vga/vga_text.c]) *)

Module Vga.

(** [include/squirel/config.h] *)
Definition VGA_WIDTH : Z := 80.
Definition VGA_HEIGHT : Z := 25.

(** The driver's private state, the display memory it points to, and the
    bytes written to the CRT controller with [outb], oldest first. *)
Record vga_state : Type := VgaState {
  vga_buffer : list Z;
  cursor_x : Z;
  cursor_y : Z;
  current_attr : Z;
  crt_log : list (Z * Z)
}.

Definition set_buffer (b : list Z) (s : vga_state) : vga_state :=
  VgaState b (cursor_x s) (cursor_y s) (current_attr s) (crt_log s).
Definition set_x (x : Z) (s : vga_state) : vga_state :=
  VgaState (vga_buffer s) x (cursor_y s) (current_attr s) (crt_log s).
Definition set_y (y : Z) (s : vga_state) : vga_state :=
  VgaState (vga_buffer s) (cursor_x s) y (current_attr s) (crt_log s).
Definition set_attr (a : Z) (s : vga_state) : vga_state :=
  VgaState (vga_buffer s) (cursor_x s) (cursor_y s) a (crt_log s).

Definition outb (port value : Z) (s : vga_state) : vga_state :=
  VgaState (vga_buffer s) (cursor_x s) (cursor_y s) (current_attr s)
           (crt_log s ++ [(uint16 port, uint8 value)]).

(** [vga_buffer[i]]: a read of display memory. *)
Definition cell (b : list Z) (i : Z) : Z := default 0 (b !! Z.to_nat i).

(** [for (int i = lo; i < lo + n; i++) body(i)] *)
Fixpoint for_loop {A : Type} (lo : Z) (n : nat) (body : Z -> A -> A) (a : A)
  : A :=
  match n with
  | O => a
  | S n' => for_loop (sint32 (lo + 1)) n' body (body lo a)
  end.

Definition vga_make_attr (fg bg : Z) : Z :=
  uint8 (Z.lor (Z.shiftl bg 4) (Z.land fg 0x0F)).

Definition vga_make_entry (c attr : Z) : Z :=
  uint16 (Z.lor (uint16 c) (Z.shiftl (uint16 attr) 8)).

Definition vga_update_cursor (s : vga_state) : vga_state :=
  let pos := uint16 (sint32 (sint32 (cursor_y s * VGA_WIDTH) + cursor_x s)) in
  outb 0x3D5 (Z.land (Z.shiftr pos 8) 0xFF)
    (outb 0x3D4 0x0E
      (outb 0x3D5 (Z.land pos 0xFF)
        (outb 0x3D4 0x0F s))).

Definition vga_clear (s : vga_state) : vga_state :=
  let blank := vga_make_entry 32 (current_attr s) in
  let b := for_loop 0 (Z.to_nat (VGA_WIDTH * VGA_HEIGHT))
             (fun i b => <[Z.to_nat i := blank]> b) (vga_buffer s) in
  vga_update_cursor (set_y 0 (set_x 0 (set_buffer b s))).

Definition vga_set_color (fg bg : Z) (s : vga_state) : vga_state :=
  set_attr (vga_make_attr fg bg) s.

Definition vga_scroll (s : vga_state) : vga_state :=
  let blank := vga_make_entry 32 (current_attr s) in
  let b1 := for_loop 0 (Z.to_nat ((VGA_HEIGHT - 1) * VGA_WIDTH))
              (fun i b => <[Z.to_nat i := cell b (i + VGA_WIDTH)]> b)
              (vga_buffer s) in
  let b2 := for_loop ((VGA_HEIGHT - 1) * VGA_WIDTH) (Z.to_nat VGA_WIDTH)
              (fun i b => <[Z.to_nat i := blank]> b) b1 in
  set_buffer b2 s.

(** The [switch] of [vga_putchar]; [c] is the value of the [char] argument
    as an [int]. *)
Definition putchar_switch (c : Z) (s : vga_state) : vga_state :=
  if c =? 10 then set_y (sint32 (cursor_y s + 1)) (set_x 0 s)
  else if c =? 13 then set_x 0 s
  else if c =? 9 then
    let s1 := set_x (Z.land (sint32 (cursor_x s + 8)) (Z.lnot 7)) s in
    if VGA_WIDTH <=? cursor_x s1
    then set_y (sint32 (cursor_y s1 + 1)) (set_x 0 s1)
    else s1
  else if c =? 8 then
    if 0 <? cursor_x s then set_x (sint32 (cursor_x s - 1)) s
    else if 0 <? cursor_y s
         then set_x (VGA_WIDTH - 1) (set_y (sint32 (cursor_y s - 1)) s)
         else s
  else if 32 <=? c then
    let offset := sint32 (sint32 (cursor_y s * VGA_WIDTH) + cursor_x s) in
    let s1 := set_buffer (<[Z.to_nat offset := vga_make_entry c (current_attr s)]>
                            (vga_buffer s)) s in
    let s2 := set_x (sint32 (cursor_x s1 + 1)) s1 in
    if VGA_WIDTH <=? cursor_x s2
    then set_y (sint32 (cursor_y s2 + 1)) (set_x 0 s2)
    else s2
  else s.

(** Whether the call takes the [if (cursor_y >= VGA_HEIGHT)] branch. *)
Definition putchar_scrolls (c : Z) (s : vga_state) : bool :=
  VGA_HEIGHT <=? cursor_y (putchar_switch c s).

Definition vga_putchar (c : Z) (s : vga_state) : vga_state :=
  let s1 := putchar_switch c s in
  let s2 := if VGA_HEIGHT <=? cursor_y s1
            then set_y (VGA_HEIGHT - 1) (vga_scroll s1)
            else s1 in
  vga_update_cursor s2.

(** [str] is the memory the pointer designates, read up to the first NUL
    (or the end of the list, where the terminator stands). *)
Fixpoint vga_print (str : list Z) (s : vga_state) : vga_state :=
  match str with
  | [] => s
  | c :: str' => if c =? 0 then s else vga_print str' (vga_putchar c s)
  end.

Definition vga_println (str : list Z) (s : vga_state) : vga_state :=
  vga_putchar 10 (vga_print str s).

Definition vga_set_cursor (x y : Z) (s : vga_state) : vga_state :=
  if (0 <=? x) && (x <? VGA_WIDTH) && (0 <=? y) && (y <? VGA_HEIGHT)
  then vga_update_cursor (set_y y (set_x x s))
  else s.

Definition vga_get_cursor_x (s : vga_state) : Z := cursor_x s.
Definition vga_get_cursor_y (s : vga_state) : Z := cursor_y s.

Definition vga_cursor_enable (enable : bool) (s : vga_state) : vga_state :=
  if enable
  then outb 0x3D5 0x0F (outb 0x3D4 0x0B (outb 0x3D5 0x0E (outb 0x3D4 0x0A s)))
  else outb 0x3D5 0x20 (outb 0x3D4 0x0A s).

Definition VGA_LIGHT_GRAY : Z := 7.
Definition VGA_BLACK : Z := 0.

Definition vga_init (s : vga_state) : vga_state :=
  vga_cursor_enable true
    (vga_clear (set_attr (vga_make_attr VGA_LIGHT_GRAY VGA_BLACK) s)).

(** The public operations of [vga_text.h] as data, and a run of them. *)
Inductive vga_op : Type :=
  | OpInit
  | OpClear
  | OpSetColor (fg bg : Z)
  | OpPutchar (c : Z)
  | OpPrint (str : list Z)
  | OpPrintln (str : list Z)
  | OpSetCursor (x y : Z)
  | OpCursorEnable (enable : bool)
  | OpScroll.

Definition vga_apply (o : vga_op) (s : vga_state) : vga_state :=
  match o with
  | OpInit => vga_init s
  | OpClear => vga_clear s
  | OpSetColor fg bg => vga_set_color fg bg s
  | OpPutchar c => vga_putchar c s
  | OpPrint str => vga_print str s
  | OpPrintln str => vga_println str s
  | OpSetCursor x y => vga_set_cursor x y s
  | OpCursorEnable b => vga_cursor_enable b s
  | OpScroll => vga_scroll s
  end.

Definition vga_run (ops : list vga_op) (s : vga_state) : vga_state :=
  fold_left (fun s o => vga_apply o s) ops s.

(** Several [vga_putchar] calls in a row, and how many of them scrolled. *)
Definition putchars (cs : list Z) (s : vga_state) : vga_state :=
  fold_left (fun s c => vga_putchar c s) cs s.

Fixpoint scroll_count (cs : list Z) (s : vga_state) : nat :=
  match cs with
  | [] => O
  | c :: cs' =>
      ((if putchar_scrolls c s then 1 else 0) + scroll_count cs' (vga_putchar c s))%nat
  end.

(** Row [r] of a buffer. *)
Definition row (b : list Z) (r : Z) : list Z :=
  take (Z.to_nat VGA_WIDTH) (drop (Z.to_nat (r * VGA_WIDTH)) b).

(** The four register writes [vga_update_cursor] issues for a cursor that
    is on the display. *)
Definition cursor_sync (x y : Z) : list (Z * Z) :=
  [ (0x3D4, 0x0F); (0x3D5, (y * 80 + x) `mod` 256);
    (0x3D4, 0x0E); (0x3D5, (y * 80 + x) `div` 256) ].

Definition printable (c : Z) : Prop := 32 <= c <= 126.

(** The display [b] once the characters [cs] have been stored in the last
    row from column [x] on, in attribute [attr]. *)
Definition fill_last_row (b : list Z) (x attr : Z) (cs : list Z) : list Z :=
  take (Z.to_nat (24 * 80 + x)) b
  ++ ((fun c => vga_make_entry c attr) <$> cs)
  ++ drop (Z.to_nat (24 * 80 + x) + length cs) b.

Definition blank_row (attr : Z) : list Z :=
  replicate 80 (vga_make_entry 32 attr).

(** The scrolling property as the specification words it, for printable
    characters [cs] that fill the last row and one further character [t]:
    one scroll in all, every former row one line up, the bottom row blank
    (apart from [t] itself when it is printable), the cursor on the last row
    at column 0 after a newline and at column 1 after a printable
    character. *)
Definition scrolls_exactly_once (s : vga_state) (cs : list Z) (t : Z) : Prop :=
  let full := fill_last_row (vga_buffer s) (cursor_x s) (current_attr s) cs in
  let s' := putchars (cs ++ [t]) s in
  scroll_count (cs ++ [t]) s = 1%nat /\
  (forall r, 1 <= r < 25 -> row (vga_buffer s') (r - 1) = row full r) /\
  row (vga_buffer s') 24
  = (if t =? 10 then blank_row (current_attr s)
     else vga_make_entry t (current_attr s)
          :: replicate 79 (vga_make_entry 32 (current_attr s))) /\
  cursor_y s' = 24 /\
  cursor_x s' = (if t =? 10 then 0 else 1).

(** A display whose rows can be told apart: every cell holds its row
    number. *)
Definition numbered_rows : list Z :=
  r ← seq 0 25; replicate 80 (Z.of_nat r).

Definition cursor_ok (s : vga_state) : Prop :=
  0 <= cursor_x s < VGA_WIDTH /\ 0 <= cursor_y s < VGA_HEIGHT.

(** The index of the cell under the cursor, [cursor_y * VGA_WIDTH +
    cursor_x]. *)
Definition linear_pos (s : vga_state) : Z :=
  cursor_y s * VGA_WIDTH + cursor_x s.

End Vga.

(** ** Freestanding C library ([kernel/lib/string/string.c],
       [kernel/lib/memory/memory.c])

    A [const char *] is the list of the bytes it points to; where the list
    ends the terminating NUL stands, so a NUL inside the list ends the
    string early, as it does in C. *)

Module Libc.

(** [*s] *)
Definition deref (s : list Z) : Z := hd 0 s.

(** The characters of the C string stored at the start of [mem]. *)
Fixpoint c_string (mem : list Z) : list Z :=
  match mem with
  | [] => []
  | c :: mem' => if c =? 0 then [] else c :: c_string mem'
  end.

Fixpoint strlen (str : list Z) : Z :=
  match str with
  | [] => 0
  | c :: str' => if c =? 0 then 0 else 1 + strlen str'
  end.

Fixpoint strcmp (s1 s2 : list Z) : Z :=
  match s1 with
  | [] => uint8 0 - uint8 (deref s2)
  | c1 :: s1' =>
      if negb (c1 =? 0) && (c1 =? deref s2)
      then strcmp s1' (tl s2)
      else uint8 c1 - uint8 (deref s2)
  end.

Definition isspace (c : Z) : bool :=
  (c =? 32) || (c =? 9) || (c =? 10) || (c =? 13) || (c =? 12) || (c =? 11).

(** [memcpy(dest, src, n)], copying upwards from index [i]; a read past the
    end of [src] has no value. *)
Fixpoint memcpy_from (i n : nat) (dest src : list Z) : option (list Z) :=
  match n with
  | O => Some dest
  | S n' => c ← src !! i; memcpy_from (S i) n' (<[i:=c]> dest) src
  end.

Definition memcpy (dest src : list Z) (n : nat) : option (list Z) :=
  memcpy_from 0 n dest src.

(** Plain [char] on x86-64: a signed byte. *)
Definition is_char (c : Z) : Prop := -128 <= c <= 127.

(** A string constant or line buffer: characters, none of them NUL. *)
Definition is_c_string (s : list Z) : Prop :=
  Forall (fun c => is_char c /\ c <> 0) s.

(** [memmove(dest, src, n)] inside one block of memory, with [d] and [s]
    the offsets of [dest] and [src]: the forward loop, the backward loop
    with both pointers moved to the end first, and the choice between
    them.  An access outside the block has no value. *)
Fixpoint copy_forward (n d s : nat) (mem : list Z) : option (list Z) :=
  match n with
  | O => Some mem
  | S n' =>
      v ← mem !! s; _ ← mem !! d;
      copy_forward n' (S d) (S s) (<[d:=v]> mem)
  end.

Fixpoint copy_backward (n d s : nat) (mem : list Z) : option (list Z) :=
  match n with
  | O => Some mem
  | S n' =>
      v ← mem !! (s + n')%nat; _ ← mem !! (d + n')%nat;
      copy_backward n' d s (<[(d + n')%nat := v]> mem)
  end.

Definition memmove (mem : list Z) (d s n : nat) : option (list Z) :=
  if (d <? s)%nat then copy_forward n d s mem
  else if (s <? d)%nat then copy_backward n d s mem
  else Some mem.

(** [strncpy(dest, src, n)]: the copying loop, which hands over to the
    padding loop at the terminator of [src]. *)
Fixpoint strncpy_pad (i n : nat) (dest : list Z) : option (list Z) :=
  match n with
  | O => Some dest
  | S n' => _ ← dest !! i; strncpy_pad (S i) n' (<[i:=0]> dest)
  end.

Fixpoint strncpy_from (i n : nat) (dest src : list Z) : option (list Z) :=
  match n with
  | O => Some dest
  | S n' =>
      if deref src =? 0 then strncpy_pad i n dest
      else _ ← dest !! i;
           strncpy_from (S i) n' (<[i:=deref src]> dest) (tl src)
  end.

Definition strncpy (dest src : list Z) (n : nat) : option (list Z) :=
  strncpy_from 0 n dest src.

Definition isalpha (c : Z) : bool :=
  ((97 <=? c) && (c <=? 122)) || ((65 <=? c) && (c <=? 90)).

Definition tolower (c : Z) : Z :=
  if (65 <=? c) && (c <=? 90) then sint32 (c + (97 - 65)) else c.

Definition toupper (c : Z) : Z :=
  if (97 <=? c) && (c <=? 122) then sint32 (c - (97 - 65)) else c.

End Libc.

(** ** Command-line parser ([kernel/shell/parser/parser.c]) *)

Module Parser.
Import Libc.

(** [include/squirel/config.h] *)
Definition SHELL_MAX_CMD_LEN : Z := 256.
Definition SHELL_MAX_ARGS : Z := 16.

(** [parsed_cmd_t]; an [argv] slot is [None] for NULL and otherwise the
    offset into [buffer] the pointer designates. *)
Record parsed_cmd_t : Type := ParsedCmd {
  argc : Z;
  argv : list (option nat);
  buffer : list Z
}.

(** The loop of [parser_trim_trailing], with [end = str + n - 1]. *)
Fixpoint trim_from (n : nat) (str : list Z) : option (list Z) :=
  match n with
  | O => Some str
  | S e => c ← str !! e;
           if isspace c then trim_from e (<[e:=0]> str) else Some str
  end.

Definition parser_trim_trailing (str : list Z) : option (list Z) :=
  c ← str !! 0%nat;
  if c =? 0 then Some str else trim_from (Z.to_nat (strlen str)) str.

(** The loop that skips blanks while [ptr] is not at a NUL, and its
    counterpart for the body of an argument.  The result is the final [ptr]; [None] is a read outside
    the buffer or a loop still running when [fuel] is used up. *)
Fixpoint skip_spaces (fuel : nat) (buf : list Z) (ptr : nat) : option nat :=
  match fuel with
  | O => None
  | S fuel' =>
      c ← buf !! ptr;
      if negb (c =? 0) && isspace c then skip_spaces fuel' buf (S ptr)
      else Some ptr
  end.

Fixpoint skip_word (fuel : nat) (buf : list Z) (ptr : nat) : option nat :=
  match fuel with
  | O => None
  | S fuel' =>
      c ← buf !! ptr;
      if negb (c =? 0) && negb (isspace c) then skip_word fuel' buf (S ptr)
      else Some ptr
  end.

(** Every loop of the parser advances [ptr] through the 256-byte buffer. *)
Definition scan_fuel : nat := 257.

(** The argument loop of [parser_parse]. *)
Fixpoint parse_args (fuel : nat) (cmd : parsed_cmd_t) (ptr : nat)
  : option parsed_cmd_t :=
  match fuel with
  | O => None
  | S fuel' =>
      c ← buffer cmd !! ptr;
      if negb (c =? 0) && (argc cmd <? SHELL_MAX_ARGS) then
        ptr1 ← skip_spaces scan_fuel (buffer cmd) ptr;
        c1 ← buffer cmd !! ptr1;
        if c1 =? 0 then Some cmd
        else
          let cmd1 := ParsedCmd (sint32 (argc cmd + 1))
                                (<[Z.to_nat (argc cmd) := Some ptr1]> (argv cmd))
                                (buffer cmd) in
          ptr2 ← skip_word scan_fuel (buffer cmd1) ptr1;
          c2 ← buffer cmd1 !! ptr2;
          if negb (c2 =? 0)
          then parse_args fuel'
                 (ParsedCmd (argc cmd1) (argv cmd1) (<[ptr2:=0]> (buffer cmd1)))
                 (S ptr2)
          else parse_args fuel' cmd1 ptr2
      else Some cmd
  end.

(** [parser_parse(cmdline, cmd)]: the value returned and the structure
    behind [cmd] afterwards.  A pointer argument is [None] when NULL.  The
    two [memset] calls leave sixteen NULL pointers and 256 zero bytes,
    whatever the structure held. *)
Definition parser_parse (cmdline : option (list Z)) (cmd : option parsed_cmd_t)
  : option (bool * option parsed_cmd_t) :=
  match cmdline, cmd with
  | Some line, Some _ =>
      let len := strlen line in
      let len := if SHELL_MAX_CMD_LEN <=? len then SHELL_MAX_CMD_LEN - 1
                 else len in
      b1 ← memcpy (replicate (Z.to_nat SHELL_MAX_CMD_LEN) 0) line (Z.to_nat len);
      b2 ← parser_trim_trailing (<[Z.to_nat len := 0]> b1);
      cmd' ← parse_args scan_fuel
               (ParsedCmd 0 (replicate (Z.to_nat SHELL_MAX_ARGS) None) b2) 0;
      Some (true, Some cmd')
  | _, _ => Some (false, cmd)
  end.

(** The string [argv[i]] points to, and the vector [argv[0..argc-1]] a
    handler is given. *)
Definition arg_string (cmd : parsed_cmd_t) (i : nat) : option (list Z) :=
  p ← argv cmd !! i; off ← p; Some (c_string (drop off (buffer cmd))).

Definition arg_vector (cmd : parsed_cmd_t) : option (list (list Z)) :=
  mapM (arg_string cmd) (seq 0 (Z.to_nat (argc cmd))).

(** What the parser is for, in the words of its header: the maximal runs of
    non-blank characters of a line, in order. *)
Fixpoint words_from (cur : list Z) (l : list Z) : list (list Z) :=
  match l with
  | [] => if decide (cur = []) then [] else [cur]
  | c :: l' =>
      if isspace c
      then (if decide (cur = []) then words_from [] l'
            else cur :: words_from [] l')
      else words_from (cur ++ [c]) l'
  end.

Definition words (l : list Z) : list (list Z) := words_from [] l.

(** The two classes of characters the scan tells apart. *)
Definition is_blank (c : Z) : Prop := c <> 0 /\ isspace c = true.
Definition is_word_char (c : Z) : Prop := c <> 0 /\ isspace c = false.

(** What stops a scan: a NUL, or a character of the other class. *)
Definition stops_blanks (tail : list Z) : Prop :=
  exists c t, tail = c :: t /\ (c = 0 \/ isspace c = false).
Definition stops_word (tail : list Z) : Prop :=
  exists c t, tail = c :: t /\ (c = 0 \/ isspace c = true).

(** [parser_skip_whitespace(str)]: the pointer returned, as the memory it
    designates. *)
Fixpoint parser_skip_whitespace (str : list Z) : list Z :=
  match str with
  | [] => []
  | c :: str' =>
      if negb (c =? 0) && isspace c then parser_skip_whitespace str' else str
  end.

End Parser.

(** ** Formatted output ([kernel/lib/printf/printf.c])

    [kprintf] sends every character to [vga_putchar].  The conversions the
    shell core uses are embedded: ordinary characters, [%%], [%s] with its
    flags and width, and the fall-back for an unknown specifier.  The
    numeric conversions are left out: a format that uses one has no value
    here. *)

Module Printf.
Import Libc Vga.

Inductive va_arg : Type :=
  | VaStr (s : option (list Z))
  | VaInt (v : Z).

Definition put_spaces (n : Z) (s : vga_state) : vga_state :=
  Nat.iter (Z.to_nat n) (vga_putchar 32) s.

Definition print_string (str : option (list Z)) (width : Z)
    (left_justify : bool) (s : vga_state) : vga_state :=
  let str := default (cstr "(null)") str in
  let len := strlen str in
  if left_justify then put_spaces (width - len) (vga_print str s)
  else vga_print str (put_spaces (width - len) s).

Fixpoint parse_flags (fmt : list Z) (zeropad left_justify : bool)
  : bool * bool * list Z :=
  match fmt with
  | c :: fmt' =>
      if (c =? 45) || (c =? 48)
      then parse_flags fmt' (zeropad || (c =? 48)) (left_justify || (c =? 45))
      else (zeropad, left_justify, fmt)
  | [] => (zeropad, left_justify, fmt)
  end.

Fixpoint parse_width (fmt : list Z) (width : Z) : Z * list Z :=
  match fmt with
  | c :: fmt' =>
      if (48 <=? c) && (c <=? 57)
      then parse_width fmt' (sint32 (sint32 (width * 10) + (c - 48)))
      else (width, fmt)
  | [] => (width, fmt)
  end.

Fixpoint do_printf (fuel : nat) (fmt : list Z) (args : list va_arg)
    (s : vga_state) : option vga_state :=
  match fuel with
  | O => None
  | S fuel' =>
      match fmt with
      | [] => Some s
      | c :: fmt1 =>
          if c =? 0 then Some s
          else if negb (c =? 37) then do_printf fuel' fmt1 args (vga_putchar c s)
          else
            let '(zeropad, left_justify, fmt2) := parse_flags fmt1 false false in
            let '(width, fmt3) := parse_width fmt2 0 in
            match fmt3 with
            | [] => None
            | spec :: fmt4 =>
                if spec =? 0 then None
                else if spec =? 37 then
                  do_printf fuel' fmt4 args (vga_putchar 37 s)
                else if spec =? 115 then
                  match args with
                  | VaStr str :: args' =>
                      do_printf fuel' fmt4 args'
                        (print_string str width left_justify s)
                  | _ => None
                  end
                else if (spec =? 99) || (spec =? 100) || (spec =? 105)
                        || (spec =? 117) || (spec =? 120) || (spec =? 88)
                        || (spec =? 112) || (spec =? 108) then None
                else do_printf fuel' fmt4 args
                       (vga_putchar spec (vga_putchar 37 s))
            end
      end
  end.

Definition kprintf (fmt : list Z) (args : list va_arg) (s : vga_state)
  : option vga_state :=
  do_printf (S (length fmt)) fmt args s.

(** The digit loop of [print_uint]: [buf] lists the characters stored so
    far, the least significant digit first.  [buf] has 24 entries; a store
    behind them, like a division by zero, has no value. *)
Fixpoint uint_digits (fuel : nat) (value base : Z) (digits buf : list Z)
  : option (list Z) :=
  match fuel with
  | O => None
  | S fuel' =>
      if 0 <? value then
        if (24 <=? Z.of_nat (length buf)) || (uint64 base =? 0) then None
        else
          d ← digits !! Z.to_nat (value `mod` uint64 base);
          uint_digits fuel' (value `div` uint64 base) base digits (buf ++ [d])
      else Some buf
  end.

(** [print_uint] with [vga_putchar] for [putc]: the count returned and the
    console afterwards.  A 64-bit value has at most 64 digits.  ([do_printf]
    above stops at the numeric conversions and does not call it.) *)
Definition print_uint (value base : Z) (upper : bool) (width : Z)
    (zeropad : bool) (s : vga_state) : option (Z * vga_state) :=
  let digits := if upper then cstr "0123456789ABCDEF"
                else cstr "0123456789abcdef" in
  buf ← (if value =? 0 then Some [48]
         else uint_digits 65 value base digits []);
  let pos := Z.of_nat (length buf) in
  let pad := sint32 (width - pos) in
  let padchar := if zeropad then 48 else 32 in
  let s1 := Nat.iter (Z.to_nat pad) (vga_putchar padchar) s in
  Some (sint32 (Z.max pad 0 + pos), putchars (rev buf) s1).

End Printf.

(** ** Shell ([kernel/shell/shell.c]) *)

Module Shell.
Import Libc Vga Parser Printf.

Definition MAX_COMMANDS : Z := 32.

(** A handler receives [argc] and the strings of [argv[0..argc-1]] and acts
    on the console. *)
Definition shell_cmd_fn : Type :=
  Z -> list (list Z) -> vga_state -> option vga_state.

Record shell_command_t : Type := ShellCommand {
  name : list Z;
  help : list Z;
  handler : shell_cmd_fn
}.

(** The command table: the [num_commands] entries registered so far, in
    registration order. *)
Definition shell_register_command (nm hlp : list Z) (h : shell_cmd_fn)
    (commands : list shell_command_t) : list shell_command_t :=
  if MAX_COMMANDS <=? Z.of_nat (length commands) then commands
  else commands ++ [ShellCommand nm hlp h].

Fixpoint shell_find_command (nm : list Z) (commands : list shell_command_t)
  : option shell_command_t :=
  match commands with
  | [] => None
  | e :: commands' =>
      if strcmp (name e) nm =? 0 then Some e
      else shell_find_command nm commands'
  end.

(** [cmd_echo] of [kernel/shell/commands/cmd_echo.c]: the loop over
    [argv[i]] for [i] from 1 while [i < argc], then the newline. *)
Fixpoint echo_from (i : Z) (argc : Z) (rest : list (list Z)) (s : vga_state)
  : option vga_state :=
  match rest with
  | [] => Some s
  | a :: rest' =>
      if i <? argc then
        s1 ← kprintf (cstr "%s") [VaStr (Some a)] s;
        s2 ← (if i <? sint32 (argc - 1) then kprintf (cstr " ") [] s1
              else Some s1);
        echo_from (sint32 (i + 1)) argc rest' s2
      else Some s
  end.

Definition cmd_echo : shell_cmd_fn := fun argc args s =>
  s1 ← echo_from 1 argc (drop 1 args) s;
  kprintf [10] [] s1.

Definition newline_fmt (text : string) : list Z := cstr text ++ [10].

Definition shell_execute (commands : list shell_command_t)
    (cmdline : option (list Z)) (s : vga_state) : option vga_state :=
  r ← parser_parse cmdline (Some (ParsedCmd 0 [] []));
  if negb (fst r) then kprintf (newline_fmt "Error: Failed to parse command") [] s
  else
    cmd ← snd r;
    if argc cmd =? 0 then Some s
    else
      arg0 ← arg_string cmd 0;
      match shell_find_command arg0 commands with
      | Some command =>
          args ← arg_vector cmd;
          handler command (argc cmd) args s
      | None =>
          s1 ← kprintf (newline_fmt "Unknown command: %s") [VaStr (Some arg0)] s;
          kprintf (newline_fmt "Type 'help' for available commands.") [] s1
      end.

(** *** The line editor

    [shell_readline] works on the caller's memory, addressed by offset from
    [buffer]; every store it performs is also appended to [rl_stores]. *)
Record rl_state : Type := RlState {
  rl_pos : Z;
  rl_mem : gmap Z Z;
  rl_stores : list (Z * Z);
  rl_vga : vga_state
}.

Definition rl_store (i v : Z) (st : rl_state) : rl_state :=
  RlState (rl_pos st) (<[i:=v]> (rl_mem st)) (rl_stores st ++ [(i, v)])
          (rl_vga st).
Definition rl_set_pos (p : Z) (st : rl_state) : rl_state :=
  RlState p (rl_mem st) (rl_stores st) (rl_vga st).
Definition rl_echo (c : Z) (st : rl_state) : rl_state :=
  RlState (rl_pos st) (rl_mem st) (rl_stores st) (vga_putchar c (rl_vga st)).

(** Either the call has returned a value, or the key events ran out and it
    is waiting in [keyboard_getchar]. *)
Inductive rl_result : Type :=
  | Returned (ret : Z) (st : rl_state)
  | Waiting (st : rl_state).

Definition KEY_ENTER : Z := 0x0A.
Definition KEY_BACKSPACE : Z := 0x08.

Fixpoint readline_loop (keys : list Z) (maxlen : Z) (st : rl_state)
  : rl_result :=
  if rl_pos st <? uint64 (maxlen - 1) then
    match keys with
    | [] => Waiting st
    | c :: keys' =>
        if (c =? 10) || (c =? KEY_ENTER) then
          Returned (sint32 (rl_pos st)) (rl_echo 10 (rl_store (rl_pos st) 0 st))
        else if (c =? 8) || (c =? KEY_BACKSPACE) then
          if 0 <? rl_pos st then
            readline_loop keys' maxlen
              (rl_echo 8 (rl_echo 32 (rl_echo 8
                 (rl_set_pos (uint64 (rl_pos st - 1)) st))))
          else readline_loop keys' maxlen st
        else if (32 <=? c) && (c <=? 126) then
          readline_loop keys' maxlen
            (rl_echo c (rl_set_pos (uint64 (rl_pos st + 1))
                          (rl_store (rl_pos st) c st)))
        else readline_loop keys' maxlen st
    end
  else Returned (sint32 (rl_pos st)) (rl_store (rl_pos st) 0 st).

(** [shell_readline(buffer, maxlen)] on the key events [keyboard_getchar]
    delivers, with [mem] the caller's memory and [s] the console. *)
Definition shell_readline (keys : list Z) (mem : gmap Z Z) (maxlen : Z)
    (s : vga_state) : rl_result :=
  readline_loop keys maxlen (RlState 0 mem [] s).

(** What holds of the editor's state throughout a call: the position is
    within the data part of the buffer, every store went to an index below
    [maxlen], every store of a character to an index below [maxlen - 1], and
    the bytes before the position are the printable characters typed. *)
Definition rl_inv (maxlen : Z) (st : rl_state) : Prop :=
  0 <= rl_pos st <= maxlen - 1 /\
  Forall (fun iv => 0 <= iv.1 < maxlen /\ (iv.2 <> 0 -> iv.1 < maxlen - 1))
         (rl_stores st) /\
  (forall i, 0 <= i < rl_pos st ->
     exists c, rl_mem st !! i = Some c /\ 32 <= c <= 126).

(** The guarantee of the line editor as the specification words it, for one
    call: on return the count is below [maxlen], a NUL stands at the index
    equal to the returned count, and no store went to an index at or beyond
    [maxlen]. *)
Definition readline_guarantee (keys : list Z) (mem : gmap Z Z) (maxlen : Z)
    (s : vga_state) : Prop :=
  forall ret st,
    shell_readline keys mem maxlen s = Returned ret st ->
    ret < maxlen /\ ret <= maxlen - 1 /\
    rl_mem st !! ret = Some 0 /\
    Forall (fun iv => iv.1 < maxlen) (rl_stores st).

Definition rl_final (r : rl_result) : rl_state :=
  match r with Returned _ st => st | Waiting st => st end.

(** What [cmd_echo] is to print, in the words of its header: the arguments
    after the command name separated by single spaces. *)
Definition echo_text (args : list (list Z)) : list Z :=
  match args with
  | [] => []
  | a :: more => a ++ concat ((fun b => 32 :: b) <$> more)
  end.

(** The key events [shell_readline] acts on. *)
Definition rl_relevant (c : Z) : Prop :=
  c = 10 \/ c = 8 \/ 32 <= c <= 126.
#[global] Instance rl_relevant_dec c : Decision (rl_relevant c).
Proof. unfold rl_relevant. apply _. Defined.

End Shell.

(** ** Shell commands ([kernel/shell/commands/cmd_memdump.c],
       [kernel/shell/commands/cmd_color.c])

    The number parsers of [memdump] and the whole of [color]. *)

Module Commands.
Import Libc Vga Printf Shell.

(** The loop of [parse_dec]; [val] is a [uint64_t]. *)
Fixpoint parse_dec_loop (str : list Z) (val : Z) : option Z :=
  match str with
  | [] => Some val
  | c :: str' =>
      if c =? 0 then Some val
      else if (48 <=? c) && (c <=? 57)
           then parse_dec_loop str' (uint64 (val * 10 + (c - 48)))
           else None
  end.

(** [parse_dec(str, out)]: the value stored through [out] on success,
    [None] for a [false] return. *)
Definition parse_dec (str : list Z) : option Z :=
  if deref str =? 0 then None else parse_dec_loop str 0.

(** The three branches that turn a character into a hexadecimal digit. *)
Definition hex_digit (c : Z) : option Z :=
  if (48 <=? c) && (c <=? 57) then Some (c - 48)
  else if (97 <=? c) && (c <=? 102) then Some (c - 97 + 10)
  else if (65 <=? c) && (c <=? 70) then Some (c - 65 + 10)
  else None.

(** The loop of [parse_hex]. *)
Fixpoint parse_hex_loop (str : list Z) (val : Z) : option Z :=
  match str with
  | [] => Some val
  | c :: str' =>
      if c =? 0 then Some val
      else digit ← hex_digit c;
           parse_hex_loop str' (uint64 (Z.lor (uint64 (Z.shiftl val 4)) digit))
  end.

(** [parse_hex(str, out)], with the optional [0x] skipped first. *)
Definition parse_hex (str : list Z) : option Z :=
  let str1 :=
    if (deref str =? 48)
       && ((deref (tl str) =? 120) || (deref (tl str) =? 88))
    then drop 2 str else str in
  if deref str1 =? 0 then None else parse_hex_loop str1 0.

(** [color_names] of [cmd_color.c]; the entry with the NULL name that ends
    the array is the end of the list. *)
Definition color_names : list (list Z * Z) :=
  [ (cstr "black", 0); (cstr "blue", 1); (cstr "green", 2);
    (cstr "cyan", 3); (cstr "red", 4); (cstr "magenta", 5);
    (cstr "brown", 6); (cstr "gray", 7); (cstr "darkgray", 8);
    (cstr "lightblue", 9); (cstr "lightgreen", 10); (cstr "lightcyan", 11);
    (cstr "lightred", 12); (cstr "lightmagenta", 13); (cstr "yellow", 14);
    (cstr "white", 15) ].

(** The digit loop of [parse_color]: the value read and where [str]
    stops. *)
Fixpoint color_number (str : list Z) (val : Z) : Z * list Z :=
  match str with
  | c :: str' =>
      if (48 <=? c) && (c <=? 57)
      then color_number str' (sint32 (sint32 (val * 10) + (c - 48)))
      else (val, str)
  | [] => (val, [])
  end.

(** The loop over the names. *)
Fixpoint color_by_name (str : list Z) (names : list (list Z * Z))
  : option Z :=
  match names with
  | [] => None
  | (nm, color) :: names' =>
      if strcmp str nm =? 0 then Some color else color_by_name str names'
  end.

(** [parse_color(str, out)]: the colour stored through [out], [None] for a
    [false] return. *)
Definition parse_color (str : list Z) : option Z :=
  if (48 <=? deref str) && (deref str <=? 57) then
    let '(val, rest) := color_number str 0 in
    if (deref rest =? 0) && (0 <=? val) && (val <=? 15) then Some val
    else None
  else color_by_name str color_names.

(** The listing [cmd_color] prints when called without arguments. *)
Fixpoint color_listing (i : Z) (names : list (list Z * Z)) (s : vga_state)
  : option vga_state :=
  match names with
  | [] => Some s
  | (nm, color) :: names' =>
      s1 ← kprintf (cstr "  %2d: %-12s") [VaInt color; VaStr (Some nm)]
                   (vga_set_color color VGA_BLACK s);
      s2 ← (if Z.rem (sint32 (i + 1)) 4 =? 0 then kprintf [10] [] s1
            else Some s1);
      color_listing (sint32 (i + 1)) names' s2
  end.

(** [cmd_color]; [argv[i]] is [args !! i], and a read of an argument that
    was not passed has no value. *)
Definition cmd_color : shell_cmd_fn := fun argc args s =>
  if argc =? 1 then
    s1 ← kprintf ([10] ++ cstr "Usage: color <fg> [bg]" ++ [10; 10]) [] s;
    s2 ← kprintf (newline_fmt "Available colors:") [] s1;
    s3 ← color_listing 0 color_names s2;
    kprintf ([10; 10] ++ cstr "Example: color yellow blue" ++ [10; 10]) []
            (vga_set_color VGA_LIGHT_GRAY VGA_BLACK s3)
  else
    a1 ← args !! 1%nat;
    match parse_color a1 with
    | None => kprintf (newline_fmt "Error: Invalid color '%s'")
                      [VaStr (Some a1)] s
    | Some fg =>
        if 3 <=? argc then
          a2 ← args !! 2%nat;
          match parse_color a2 with
          | None => kprintf (newline_fmt "Error: Invalid color '%s'")
                            [VaStr (Some a2)] s
          | Some bg =>
              kprintf (newline_fmt "Color set to %s on %s")
                      [VaStr (Some a1); VaStr (Some a2)]
                      (vga_set_color fg bg s)
          end
        else
          kprintf (newline_fmt "Color set to %s on %s")
                  [VaStr (Some a1); VaStr (Some (cstr "black"))]
                  (vga_set_color fg VGA_BLACK s)
    end.

End Commands.

(** * Properties *)

Lemma sint32_small z : -2147483648 <= z < 2147483648 -> sint32 z = z.
Proof. intros; zwrap. Qed.

Lemma uint64_small z : 0 <= z < 18446744073709551616 -> uint64 z = z.
Proof. intros; zwrap. Qed.

Lemma uint8_range z : 0 <= uint8 z < 256.
Proof. zwrap. Qed.

(** A decidable property of the integers below [n] holds of all of them as
    soon as it evaluates to true on each. *)
Lemma forall_below (n : nat) (P : Z -> Prop) `{!forall z, Decision (P z)} :
  bool_decide (Forall P (Z.of_nat <$> seq 0 n)) = true ->
  forall z, 0 <= z < Z.of_nat n -> P z.
Proof.
  intros Hb z Hz. apply bool_decide_eq_true_1 in Hb.
  rewrite Forall_forall in Hb. apply Hb.
  apply list_elem_of_fmap. exists (Z.to_nat z). split; [lia|].
  apply elem_of_seq. lia.
Qed.

(** ** The keyboard decoder *)

Section KeyboardFacts.
Import Keyboard.

Lemma all_modifiers_complete m : m ∈ all_modifiers.
Proof. destruct m as [[] [] []]; vm_compute; set_solver. Qed.

Lemma forall_modifiers (P : modifiers -> Prop) `{!forall m, Decision (P m)} :
  bool_decide (Forall P all_modifiers) = true -> forall m, P m.
Proof.
  intros Hb m. apply bool_decide_eq_true_1 in Hb.
  rewrite Forall_forall in Hb. apply Hb, all_modifiers_complete.
Qed.

Lemma read_scancode_range hw : 0 <= keyboard_read_scancode hw < 256.
Proof.
  unfold keyboard_read_scancode, inb.
  destruct (negb _); [lia | apply uint8_range].
Qed.

Lemma table_lengths :
  length scancode_to_ascii_lower = 128%nat /\
  length scancode_to_ascii_upper = 128%nat.
Proof. split; reflexivity. Qed.

(** After the release bit is cleared the index lies inside both tables. *)
Lemma table_index_in_range raw :
  0 <= raw -> (Z.to_nat (uint8 (Z.land raw 0x7F)) < 128)%nat.
Proof.
  intros H. change 0x7F with (Z.ones 7). rewrite Z.land_ones by lia.
  zwrap.
Qed.

(** Checking a decidable property of the decoder on every byte and every
    combination of flags. *)
Lemma forall_raw_modifiers (P : Z -> modifiers -> Prop)
    `{!forall z m, Decision (P z m)} :
  bool_decide (Forall (fun z => Forall (P z) all_modifiers)
                      (Z.of_nat <$> seq 0 256)) = true ->
  forall raw m, 0 <= raw < 256 -> P raw m.
Proof.
  intros Hb raw m Hraw.
  pose proof (forall_below 256 (fun z => Forall (P z) all_modifiers) Hb raw
                ltac:(lia)) as HF.
  rewrite Forall_forall in HF. apply HF, all_modifiers_complete.
Qed.

(** A break code never yields a character. *)
Lemma release_yields_no_key raw m :
  128 <= raw < 256 -> fst (decode raw m) = KEY_NONE.
Proof.
  intros H.
  apply (forall_raw_modifiers
           (fun raw m => 128 <= raw < 256 -> fst (decode raw m) = KEY_NONE));
    [vm_compute; reflexivity | lia | exact H].
Qed.

(** C3.  With ctrl held and shift up, a scancode whose entry in the
    unshifted table is a lowercase letter [c] decodes to the control code
    [c - 'a' + 1], and the flags stay as they are.  A scancode with the
    release bit set has no entry in the 128-entry table.  In particular the
    scancode of [a] (0x1E) decodes to 1 and that of [b] (0x30) to 2. *)
Theorem ctrl_folds_lowercase_letter :
  (forall (hw : ports) (m : modifiers) (c : Z),
     ctrl_pressed m = true -> shift_pressed m = false ->
     scancode_to_ascii_lower !! Z.to_nat (keyboard_read_scancode hw) = Some c ->
     97 <= c <= 122 ->
     keyboard_getchar_nonblock hw m = (c - 97 + 1, m)) /\
  (forall alt,
     keyboard_getchar_nonblock (pending 0x1E) (Modifiers false true alt)
     = (1, Modifiers false true alt)) /\
  (forall alt,
     keyboard_getchar_nonblock (pending 0x30) (Modifiers false true alt)
     = (2, Modifiers false true alt)).
Proof.
  split; [|split; intros []; reflexivity].
  intros hw m c Hctrl Hshift Hc Hletter.
  unfold keyboard_getchar_nonblock.
  pose proof (read_scancode_range hw) as Hr.
  revert Hctrl Hshift Hc Hletter.
  generalize dependent (keyboard_read_scancode hw). intros raw Hr.
  intros Hctrl Hshift Hc Hletter.
  assert (Hc0 : table_at scancode_to_ascii_lower raw = c)
    by (unfold table_at; rewrite Hc; reflexivity).
  subst c. revert Hctrl Hshift Hletter. clear Hc. revert raw m Hr.
  apply (forall_raw_modifiers
    (fun raw m =>
       ctrl_pressed m = true -> shift_pressed m = false ->
       97 <= table_at scancode_to_ascii_lower raw <= 122 ->
       decode raw m = (table_at scancode_to_ascii_lower raw - 97 + 1, m))).
  vm_compute. reflexivity.
Qed.

Lemma ctrl_folds_lowercase_letter_witness :
  keyboard_getchar_nonblock (pending 0x2E) (Modifiers false true false)
  = (3, Modifiers false true false).
Proof.
  apply (proj1 ctrl_folds_lowercase_letter (pending 0x2E)
           (Modifiers false true false) 99);
    [reflexivity | reflexivity | reflexivity | lia].
Defined.

(** C8.  A scancode whose base code is 0x2A or 0x36 sets the shift flag on
    make and clears it on break, 0x1D does so for ctrl and 0x38 for alt; the
    two other flags keep their values and the call returns [KEY_NONE].  Any
    other scancode, and a call that finds no byte pending, leaves all three
    flags as they were. *)
Theorem modifier_codes_update_only_their_flag (hw : ports) (m : modifiers) :
  let raw := keyboard_read_scancode hw in
  let base := Z.land raw 0x7F in
  let make := Z.land raw 0x80 =? 0 in
  (base = 0x2A \/ base = 0x36 ->
     keyboard_getchar_nonblock hw m
     = (KEY_NONE, Modifiers make (ctrl_pressed m) (alt_pressed m))) /\
  (base = 0x1D ->
     keyboard_getchar_nonblock hw m
     = (KEY_NONE, Modifiers (shift_pressed m) make (alt_pressed m))) /\
  (base = 0x38 ->
     keyboard_getchar_nonblock hw m
     = (KEY_NONE, Modifiers (shift_pressed m) (ctrl_pressed m) make)) /\
  (base <> 0x2A -> base <> 0x36 -> base <> 0x1D -> base <> 0x38 ->
     snd (keyboard_getchar_nonblock hw m) = m).
Proof.
  unfold keyboard_getchar_nonblock.
  pose proof (read_scancode_range hw) as Hr.
  generalize dependent (keyboard_read_scancode hw). intros raw Hr.
  cbv zeta. revert raw m Hr.
  apply (forall_raw_modifiers
    (fun raw m =>
      (Z.land raw 0x7F = 0x2A \/ Z.land raw 0x7F = 0x36 ->
         decode raw m
         = (KEY_NONE, Modifiers (Z.land raw 0x80 =? 0) (ctrl_pressed m)
                                (alt_pressed m))) /\
      (Z.land raw 0x7F = 0x1D ->
         decode raw m
         = (KEY_NONE, Modifiers (shift_pressed m) (Z.land raw 0x80 =? 0)
                                (alt_pressed m))) /\
      (Z.land raw 0x7F = 0x38 ->
         decode raw m
         = (KEY_NONE, Modifiers (shift_pressed m) (ctrl_pressed m)
                                (Z.land raw 0x80 =? 0))) /\
      (Z.land raw 0x7F <> 0x2A -> Z.land raw 0x7F <> 0x36 ->
       Z.land raw 0x7F <> 0x1D -> Z.land raw 0x7F <> 0x38 ->
         snd (decode raw m) = m))).
  vm_compute. reflexivity.
Qed.

Lemma modifier_codes_update_only_their_flag_witness :
  keyboard_getchar_nonblock (pending 0xAA) (Modifiers true true false)
  = (KEY_NONE, Modifiers false true false).
Proof.
  apply (proj1 (modifier_codes_update_only_their_flag (pending 0xAA)
                  (Modifiers true true false))).
  left. reflexivity.
Defined.

(** C9.  With ctrl and shift both held, a scancode whose unshifted entry is
    a lowercase letter decodes to the entry of the shifted table, the
    corresponding uppercase letter, and not to a control code; the scancode
    of [a] (0x1E) gives 65. *)
Theorem ctrl_shift_letter_stays_uppercase :
  (forall (hw : ports) (m : modifiers) (c : Z),
     ctrl_pressed m = true -> shift_pressed m = true ->
     scancode_to_ascii_lower !! Z.to_nat (keyboard_read_scancode hw) = Some c ->
     97 <= c <= 122 ->
     scancode_to_ascii_upper !! Z.to_nat (keyboard_read_scancode hw)
       = Some (c - 32) /\
     keyboard_getchar_nonblock hw m = (c - 32, m)) /\
  (forall alt,
     keyboard_getchar_nonblock (pending 0x1E) (Modifiers true true alt)
     = (65, Modifiers true true alt)).
Proof.
  split; [|intros []; reflexivity].
  intros hw m c Hctrl Hshift Hc Hletter.
  unfold keyboard_getchar_nonblock.
  pose proof (read_scancode_range hw) as Hr.
  revert Hctrl Hshift Hc Hletter.
  generalize dependent (keyboard_read_scancode hw). intros raw Hr.
  intros Hctrl Hshift Hc Hletter.
  assert (Hc0 : table_at scancode_to_ascii_lower raw = c)
    by (unfold table_at; rewrite Hc; reflexivity).
  subst c. revert Hctrl Hshift Hletter. clear Hc. revert raw m Hr.
  apply (forall_raw_modifiers
    (fun raw m =>
       ctrl_pressed m = true -> shift_pressed m = true ->
       97 <= table_at scancode_to_ascii_lower raw <= 122 ->
       scancode_to_ascii_upper !! Z.to_nat raw
         = Some (table_at scancode_to_ascii_lower raw - 32) /\
       decode raw m = (table_at scancode_to_ascii_lower raw - 32, m))).
  vm_compute. reflexivity.
Qed.

Lemma ctrl_shift_letter_stays_uppercase_witness :
  scancode_to_ascii_upper !! Z.to_nat (keyboard_read_scancode (pending 0x2C))
    = Some 90 /\
  keyboard_getchar_nonblock (pending 0x2C) (Modifiers true true true)
  = (90, Modifiers true true true).
Proof.
  apply (proj1 ctrl_shift_letter_stays_uppercase (pending 0x2C)
           (Modifiers true true true) 122);
    [reflexivity | reflexivity | reflexivity | lia].
Defined.

End KeyboardFacts.

(** ** The console *)

Section VgaFacts.
Import Vga.

Arguments for_loop : simpl never.

Lemma for_loop_S {A : Type} lo n (body : Z -> A -> A) a :
  for_loop lo (S n) body a = for_loop (sint32 (lo + 1)) n body (body lo a).
Proof. reflexivity. Qed.

Lemma land_lnot_7 a : Z.land a (Z.lnot 7) = 8 * (a `div` 8).
Proof.
  rewrite <- Z.ldiff_land. change 7 with (Z.ones 3).
  rewrite Z.ldiff_ones_r, Z.shiftr_div_pow2, Z.shiftl_mul_pow2 by lia.
  change (2 ^ 3) with 8. lia.
Qed.

(** The loop that stores one value into [n] consecutive cells. *)
Lemma fill_loop v n : forall (lo : nat) (b : list Z),
  (lo + n <= length b)%nat -> Z.of_nat (lo + n) < 2147483648 ->
  for_loop (Z.of_nat lo) n (fun i b => <[Z.to_nat i := v]> b) b
  = take lo b ++ replicate n v ++ drop (lo + n) b.
Proof.
  induction n as [|n IH]; intros lo b Hlen Hmax.
  - rewrite Nat.add_0_r. simpl. rewrite take_drop. reflexivity.
  - rewrite for_loop_S, sint32_small by lia.
    replace (Z.of_nat lo + 1) with (Z.of_nat (S lo)) by lia.
    rewrite Nat2Z.id, IH by (rewrite ?length_insert; lia).
    rewrite drop_insert_lt by lia.
    destruct (lookup_lt_is_Some_2 b lo ltac:(lia)) as [x Hx].
    rewrite (take_S_r (<[lo:=v]> b) lo v)
      by (rewrite list_lookup_insert_eq; [reflexivity | lia]).
    rewrite take_insert_ge by lia.
    rewrite <- app_assoc. simpl.
    replace (S (lo + n)) with (lo + S n)%nat by lia. reflexivity.
Qed.

(** The copying loop of [vga_scroll]: after [lo] iterations the first [lo]
    cells hold what stood one row further down, the rest is untouched. *)
Lemma copy_loop (b0 : list Z) n : forall (lo : nat),
  (lo + n + 80 <= length b0)%nat -> Z.of_nat (length b0) < 2147483648 ->
  for_loop (Z.of_nat lo) n
    (fun i b => <[Z.to_nat i := cell b (i + VGA_WIDTH)]> b)
    (take lo (drop 80 b0) ++ drop lo b0)
  = take (lo + n) (drop 80 b0) ++ drop (lo + n) b0.
Proof.
  induction n as [|n IH]; intros lo Hlen Hmax.
  - rewrite Nat.add_0_r. reflexivity.
  - rewrite for_loop_S, sint32_small by lia.
    replace (Z.of_nat lo + 1) with (Z.of_nat (S lo)) by lia.
    rewrite Nat2Z.id.
    destruct (lookup_lt_is_Some_2 b0 (lo + 80) ltac:(lia)) as [v Hv].
    assert (Hl : length (take lo (drop 80 b0)) = lo)
      by (rewrite length_take, length_drop; lia).
    assert (Hcell : cell (take lo (drop 80 b0) ++ drop lo b0)
                         (Z.of_nat lo + VGA_WIDTH) = v).
    { unfold cell, VGA_WIDTH.
      replace (Z.to_nat (Z.of_nat lo + 80)) with (lo + 80)%nat by lia.
      rewrite lookup_app_r by lia. rewrite Hl, lookup_drop.
      replace (lo + (lo + 80 - lo))%nat with (lo + 80)%nat by lia.
      rewrite Hv. reflexivity. }
    rewrite Hcell.
    assert (Hstep : <[lo:=v]> (take lo (drop 80 b0) ++ drop lo b0)
                    = take (S lo) (drop 80 b0) ++ drop (S lo) b0).
    { rewrite insert_app_r_alt by lia. rewrite Hl, Nat.sub_diag.
      destruct (lookup_lt_is_Some_2 b0 lo ltac:(lia)) as [w Hw].
      rewrite (drop_S b0 w lo Hw). simpl.
      rewrite (take_S_r (drop 80 b0) lo v)
        by (rewrite lookup_drop; replace (80 + lo)%nat with (lo + 80)%nat by lia;
            exact Hv).
      rewrite <- app_assoc. reflexivity. }
    rewrite Hstep, IH by lia.
    replace (S lo + n)%nat with (lo + S n)%nat by lia. reflexivity.
Qed.

(** [vga_scroll] on a full-size display: every row moves up by one and the
    last row is blank in the current attribute. *)
Lemma vga_scroll_buffer s :
  length (vga_buffer s) = 2000%nat ->
  vga_buffer (vga_scroll s)
  = drop 80 (vga_buffer s) ++ replicate 80 (vga_make_entry 32 (current_attr s)).
Proof.
  intros Hlen. unfold vga_scroll, set_buffer, vga_buffer at 1.
  change (Z.to_nat ((VGA_HEIGHT - 1) * VGA_WIDTH)) with 1920%nat.
  change (Z.to_nat VGA_WIDTH) with 80%nat.
  change ((VGA_HEIGHT - 1) * VGA_WIDTH) with (Z.of_nat 1920).
  pose proof (copy_loop (vga_buffer s) 1920 0) as Hc.
  rewrite take_0, drop_0, app_nil_l, Nat.add_0_l in Hc.
  change (Z.of_nat 0) with 0 in Hc.
  rewrite Hc by (rewrite Hlen; lia). clear Hc.
  assert (Hl : length (take 1920 (drop 80 (vga_buffer s))) = 1920%nat)
    by (rewrite length_take, length_drop, Hlen; lia).
  rewrite fill_loop
    by (rewrite ?length_app, ?Hl, ?length_drop, ?Hlen; lia).
  rewrite take_app_le by lia.
  rewrite (take_ge _ 1920) by lia.
  rewrite (drop_ge _ (1920 + 80))
    by (rewrite length_app, Hl, length_drop, Hlen; lia).
  rewrite app_nil_r.
  rewrite take_ge by (rewrite length_drop, Hlen; lia). reflexivity.
Qed.

(** The [switch] of [vga_putchar] keeps the column in range and moves the
    row down by at most one line. *)
Lemma putchar_switch_bounds c s :
  cursor_ok s ->
  0 <= cursor_x (putchar_switch c s) < VGA_WIDTH /\
  0 <= cursor_y (putchar_switch c s) <= VGA_HEIGHT.
Proof.
  unfold cursor_ok, putchar_switch, VGA_WIDTH, VGA_HEIGHT.
  destruct s as [b x y a l]; simpl. intros [Hx Hy].
  rewrite land_lnot_7.
  repeat (case_match; simpl); zwrap.
Qed.

Lemma vga_scroll_fields s :
  cursor_x (vga_scroll s) = cursor_x s /\ cursor_y (vga_scroll s) = cursor_y s /\
  current_attr (vga_scroll s) = current_attr s /\ crt_log (vga_scroll s) = crt_log s.
Proof. repeat split. Qed.

Lemma vga_update_cursor_fields s :
  vga_buffer (vga_update_cursor s) = vga_buffer s /\
  cursor_x (vga_update_cursor s) = cursor_x s /\
  cursor_y (vga_update_cursor s) = cursor_y s /\
  current_attr (vga_update_cursor s) = current_attr s.
Proof. repeat split. Qed.

Lemma vga_putchar_cursor c s :
  cursor_x (vga_putchar c s) = cursor_x (putchar_switch c s) /\
  cursor_y (vga_putchar c s)
  = if VGA_HEIGHT <=? cursor_y (putchar_switch c s) then VGA_HEIGHT - 1
    else cursor_y (putchar_switch c s).
Proof.
  unfold vga_putchar. cbv zeta.
  destruct (VGA_HEIGHT <=? cursor_y (putchar_switch c s)); split; reflexivity.
Qed.

Lemma vga_putchar_cursor_ok c s : cursor_ok s -> cursor_ok (vga_putchar c s).
Proof.
  intros Hok. pose proof (putchar_switch_bounds c s Hok) as [Hx Hy].
  destruct (vga_putchar_cursor c s) as [Ex Ey].
  unfold cursor_ok. rewrite Ex, Ey. unfold VGA_HEIGHT, VGA_WIDTH in *.
  case_match; lia.
Qed.

Lemma vga_print_cursor_ok str : forall s,
  cursor_ok s -> cursor_ok (vga_print str s).
Proof.
  induction str as [|c str IH]; intros s Hok; [exact Hok|].
  cbn [vga_print]. case_match; [exact Hok|].
  apply IH, vga_putchar_cursor_ok, Hok.
Qed.

Lemma vga_clear_cursor s :
  cursor_x (vga_clear s) = 0 /\ cursor_y (vga_clear s) = 0.
Proof. split; reflexivity. Qed.

Lemma vga_clear_cursor_ok s : cursor_ok (vga_clear s).
Proof.
  destruct (vga_clear_cursor s) as [Ex Ey].
  unfold cursor_ok, VGA_WIDTH, VGA_HEIGHT. rewrite Ex, Ey. lia.
Qed.

Lemma outb_cursor_ok port value s : cursor_ok s -> cursor_ok (outb port value s).
Proof. intros H; exact H. Qed.

Lemma vga_apply_cursor_ok o s : cursor_ok s -> cursor_ok (vga_apply o s).
Proof.
  intros Hok. destruct o; unfold vga_apply.
  - unfold vga_init, vga_cursor_enable.
    do 4 apply outb_cursor_ok. apply vga_clear_cursor_ok.
  - apply vga_clear_cursor_ok.
  - exact Hok.
  - apply vga_putchar_cursor_ok, Hok.
  - apply vga_print_cursor_ok, Hok.
  - apply vga_putchar_cursor_ok, vga_print_cursor_ok, Hok.
  - unfold vga_set_cursor. case_match; [|exact Hok].
    do 4 apply outb_cursor_ok.
    unfold cursor_ok, VGA_WIDTH, VGA_HEIGHT in *.
    change (0 <= x < 80 /\ 0 <= y < 25). lia.
  - destruct enable; unfold vga_cursor_enable;
      repeat apply outb_cursor_ok; exact Hok.
  - exact Hok.
Qed.

Lemma vga_run_cursor_ok ops : forall s,
  cursor_ok s -> cursor_ok (vga_run ops s).
Proof.
  induction ops as [|o ops IH]; intros s Hok; [exact Hok|].
  apply (IH (vga_apply o s)), vga_apply_cursor_ok, Hok.
Qed.

(** No operation changes the size of the display memory. *)
Lemma for_loop_length (body : Z -> list Z -> list Z) n : forall lo b,
  (forall i b', length (body i b') = length b') ->
  length (for_loop lo n body b) = length b.
Proof.
  induction n as [|n IH]; intros lo b Hbody; [reflexivity|].
  rewrite for_loop_S, IH by exact Hbody. apply Hbody.
Qed.

Lemma vga_clear_length s :
  length (vga_buffer (vga_clear s)) = length (vga_buffer s).
Proof.
  unfold vga_clear. cbv zeta.
  rewrite (proj1 (vga_update_cursor_fields _)).
  cbn [vga_buffer set_y set_x set_buffer].
  apply for_loop_length. intros i b'. apply length_insert.
Qed.

Lemma vga_scroll_length s :
  length (vga_buffer (vga_scroll s)) = length (vga_buffer s).
Proof.
  unfold vga_scroll. cbv zeta. cbn [vga_buffer set_buffer].
  rewrite for_loop_length by (intros; apply length_insert).
  apply for_loop_length. intros i b'. apply length_insert.
Qed.

Lemma putchar_switch_length c s :
  length (vga_buffer (putchar_switch c s)) = length (vga_buffer s) /\
  current_attr (putchar_switch c s) = current_attr s.
Proof.
  unfold putchar_switch.
  repeat case_match; cbn [vga_buffer current_attr set_x set_y set_buffer];
    rewrite ?length_insert; split; reflexivity.
Qed.

Lemma vga_putchar_length c s :
  length (vga_buffer (vga_putchar c s)) = length (vga_buffer s).
Proof.
  unfold vga_putchar. cbv zeta.
  rewrite (proj1 (vga_update_cursor_fields _)).
  destruct (VGA_HEIGHT <=? cursor_y (putchar_switch c s)).
  - cbn [vga_buffer set_y]. rewrite vga_scroll_length.
    apply putchar_switch_length.
  - apply putchar_switch_length.
Qed.

Lemma vga_print_length str : forall s,
  length (vga_buffer (vga_print str s)) = length (vga_buffer s).
Proof.
  induction str as [|c str IH]; intros s; [reflexivity|].
  cbn [vga_print]. destruct (c =? 0); [reflexivity|].
  rewrite IH. apply vga_putchar_length.
Qed.

Lemma vga_apply_length o s :
  length (vga_buffer (vga_apply o s)) = length (vga_buffer s).
Proof.
  destruct o; cbn [vga_apply].
  - unfold vga_init, vga_cursor_enable, outb. cbn [vga_buffer].
    rewrite vga_clear_length. reflexivity.
  - apply vga_clear_length.
  - reflexivity.
  - apply vga_putchar_length.
  - apply vga_print_length.
  - unfold vga_println. rewrite vga_putchar_length. apply vga_print_length.
  - unfold vga_set_cursor. case_match; reflexivity.
  - destruct enable; reflexivity.
  - apply vga_scroll_length.
Qed.

Lemma vga_run_length ops : forall s,
  length (vga_buffer (vga_run ops s)) = length (vga_buffer s).
Proof.
  induction ops as [|o ops IH]; intros s; [reflexivity|].
  unfold vga_run. cbn [fold_left]. fold (vga_run ops (vga_apply o s)).
  rewrite IH. apply vga_apply_length.
Qed.

(** C2.  From a cleared console, after any run of public operations the
    cursor column is in 0..79 and the row in 0..24.  When the [switch] of a
    [vga_putchar] call leaves the row past the last line, it leaves it at
    exactly 25, and the call resolves it by scrolling: on a display of 2000
    cells every row moves up by one, the first row is lost and the last
    row becomes blanks in the current attribute, and the cursor is put on
    row 24 in the column the [switch] left.  A call whose [switch] leaves
    the row on the display does not scroll. *)
Theorem cursor_always_within_bounds (s0 : vga_state) (ops : list vga_op) :
  let s := vga_run ops (vga_clear s0) in
  (0 <= cursor_x s < 80 /\ 0 <= cursor_y s < 25) /\
  (forall c,
     25 <= cursor_y (putchar_switch c s) ->
     cursor_y (putchar_switch c s) = 25 /\
     cursor_y (vga_putchar c s) = 24 /\
     cursor_x (vga_putchar c s) = cursor_x (putchar_switch c s) /\
     0 <= cursor_x (vga_putchar c s) < 80 /\
     (length (vga_buffer s0) = 2000%nat ->
      vga_buffer (vga_putchar c s)
      = drop 80 (vga_buffer (putchar_switch c s))
        ++ blank_row (current_attr s))) /\
  (forall c,
     cursor_y (putchar_switch c s) < 25 ->
     vga_buffer (vga_putchar c s) = vga_buffer (putchar_switch c s) /\
     cursor_y (vga_putchar c s) = cursor_y (putchar_switch c s)).
Proof.
  intros s.
  assert (Hok : cursor_ok s) by apply vga_run_cursor_ok, vga_clear_cursor_ok.
  split; [exact Hok|]. split.
  - intros c Hpast.
    pose proof (putchar_switch_bounds c s Hok) as [Hx Hy].
    pose proof (vga_putchar_cursor_ok c s Hok) as [Hx' _].
    destruct (vga_putchar_cursor c s) as [Ex Ey].
    unfold VGA_WIDTH, VGA_HEIGHT in *.
    replace (25 <=? cursor_y (putchar_switch c s)) with true in Ey by lia.
    split; [lia|]. split; [exact Ey|]. split; [exact Ex|].
    split; [exact Hx'|]. intros Hlen.
    assert (Hlen1 : length (vga_buffer (putchar_switch c s)) = 2000%nat).
    { rewrite (proj1 (putchar_switch_length c s)). unfold s.
      rewrite vga_run_length, vga_clear_length. exact Hlen. }
    unfold vga_putchar. cbv zeta. unfold VGA_HEIGHT.
    replace (25 <=? cursor_y (putchar_switch c s)) with true by lia.
    rewrite (proj1 (vga_update_cursor_fields _)).
    cbn [vga_buffer set_y].
    rewrite (vga_scroll_buffer _ Hlen1).
    rewrite (proj2 (putchar_switch_length c s)). reflexivity.
  - intros c Hin.
    destruct (vga_putchar_cursor c s) as [_ Ey].
    unfold VGA_HEIGHT in *.
    replace (25 <=? cursor_y (putchar_switch c s)) with false in Ey by lia.
    split; [|exact Ey].
    unfold vga_putchar. cbv zeta. unfold VGA_HEIGHT.
    replace (25 <=? cursor_y (putchar_switch c s)) with false by lia.
    apply vga_update_cursor_fields.
Qed.

Lemma cursor_always_within_bounds_witness :
  let s := vga_run [OpPrint (cstr "hi"); OpSetCursor 79 24]
                   (vga_clear (VgaState numbered_rows 3 4 7 [])) in
  cursor_y (putchar_switch 33 s) = 25 /\
  cursor_y (vga_putchar 33 s) = 24 /\
  cursor_x (vga_putchar 33 s) = cursor_x (putchar_switch 33 s) /\
  0 <= cursor_x (vga_putchar 33 s) < 80 /\
  vga_buffer (vga_putchar 33 s)
  = drop 80 (vga_buffer (putchar_switch 33 s)) ++ blank_row (current_attr s).
Proof.
  pose proof (proj1 (proj2 (cursor_always_within_bounds
                (VgaState numbered_rows 3 4 7 [])
                [OpPrint (cstr "hi"); OpSetCursor 79 24])) 33) as H.
  cbv zeta in H.
  destruct H as (H1 & H2 & H3 & H4 & H5); [vm_compute; discriminate|].
  split; [exact H1|]. split; [exact H2|]. split; [exact H3|].
  split; [exact H4|]. apply H5. reflexivity.
Defined.

Lemma vga_update_cursor_log s :
  cursor_ok s ->
  vga_update_cursor s
  = VgaState (vga_buffer s) (cursor_x s) (cursor_y s) (current_attr s)
             (crt_log s ++ cursor_sync (cursor_x s) (cursor_y s)).
Proof.
  unfold cursor_ok, VGA_WIDTH, VGA_HEIGHT. intros [Hx Hy].
  unfold vga_update_cursor, outb, cursor_sync, VGA_WIDTH. cbn -[Z.mul Z.add].
  rewrite <- !app_assoc. cbn [app].
  set (pos := cursor_y s * 80 + cursor_x s).
  assert (Hpos : 0 <= pos < 2000) by (unfold pos; lia).
  assert (E : uint16 (sint32 (sint32 (cursor_y s * 80) + cursor_x s)) = pos)
    by (fold pos; zwrap).
  rewrite E.
  change 255 with (Z.ones 8). rewrite !Z.land_ones by lia.
  rewrite Z.shiftr_div_pow2 by lia. change (2 ^ 8) with 256.
  replace (uint8 (pos `mod` 256)) with (pos `mod` 256) by zwrap.
  replace (uint8 ((pos `div` 256) `mod` 256)) with (pos `div` 256) by zwrap.
  reflexivity.
Qed.

Lemma putchar_switch_control c s :
  c < 32 -> c <> 10 -> c <> 13 -> c <> 9 -> c <> 8 -> putchar_switch c s = s.
Proof.
  intros. unfold putchar_switch.
  repeat (case_match; try lia). reflexivity.
Qed.

(** C10.  On a console reached through the public operations, [vga_putchar]
    of a byte below 0x20 other than newline, carriage return, tab and
    backspace leaves the display cells, the cursor column and row and the
    attribute as they were; it only writes the unchanged cursor position to
    the CRT controller once more. *)
Theorem control_byte_only_resyncs_cursor
    (s0 : vga_state) (ops : list vga_op) (c : Z) :
  let s := vga_run ops (vga_clear s0) in
  c < 0x20 -> c <> 10 -> c <> 13 -> c <> 9 -> c <> 8 ->
  vga_putchar c s
  = VgaState (vga_buffer s) (cursor_x s) (cursor_y s) (current_attr s)
             (crt_log s ++ cursor_sync (cursor_x s) (cursor_y s)).
Proof.
  intros s Hc H10 H13 H9 H8.
  assert (Hok : cursor_ok s) by apply vga_run_cursor_ok, vga_clear_cursor_ok.
  unfold vga_putchar. rewrite putchar_switch_control by assumption.
  cbv zeta.
  destruct (VGA_HEIGHT <=? cursor_y s) eqn:E.
  - unfold cursor_ok in Hok. lia.
  - apply vga_update_cursor_log, Hok.
Qed.

Lemma control_byte_only_resyncs_cursor_witness :
  let s := vga_run [OpPrint (cstr "ok")] (vga_clear (VgaState [] 0 0 7 [])) in
  vga_putchar 7 s
  = VgaState (vga_buffer s) (cursor_x s) (cursor_y s) (current_attr s)
             (crt_log s ++ cursor_sync (cursor_x s) (cursor_y s)).
Proof.
  apply (control_byte_only_resyncs_cursor (VgaState [] 0 0 7 [])
           [OpPrint (cstr "ok")] 7); lia.
Defined.

(** *** Scrolling at the end of the last row *)

Lemma scroll_count_app cs1 : forall cs2 s,
  scroll_count (cs1 ++ cs2) s
  = (scroll_count cs1 s + scroll_count cs2 (putchars cs1 s))%nat.
Proof.
  induction cs1 as [|c cs1 IH]; intros cs2 s; [reflexivity|].
  cbn [app scroll_count]. rewrite IH. unfold putchars. cbn [fold_left]. lia.
Qed.

Lemma putchars_app cs1 cs2 s :
  putchars (cs1 ++ cs2) s = putchars cs2 (putchars cs1 s).
Proof. apply fold_left_app. Qed.

Lemma putchar_switch_printable c s :
  printable c ->
  putchar_switch c s
  = let offset := sint32 (sint32 (cursor_y s * VGA_WIDTH) + cursor_x s) in
    let s1 := set_buffer (<[Z.to_nat offset := vga_make_entry c (current_attr s)]>
                            (vga_buffer s)) s in
    let s2 := set_x (sint32 (cursor_x s1 + 1)) s1 in
    if VGA_WIDTH <=? cursor_x s2
    then set_y (sint32 (cursor_y s2 + 1)) (set_x 0 s2)
    else s2.
Proof.
  unfold printable, putchar_switch. intros Hc.
  repeat (case_match; try lia); reflexivity.
Qed.

(** A printable character written on the last row before its last column:
    the cell is stored, the cursor moves right, nothing scrolls. *)
Lemma putchar_last_row_step c s :
  printable c -> cursor_y s = 24 -> 0 <= cursor_x s < 79 ->
  vga_buffer (vga_putchar c s)
  = <[Z.to_nat (24 * 80 + cursor_x s) := vga_make_entry c (current_attr s)]>
      (vga_buffer s) /\
  cursor_x (vga_putchar c s) = cursor_x s + 1 /\
  cursor_y (vga_putchar c s) = 24 /\
  current_attr (vga_putchar c s) = current_attr s /\
  putchar_scrolls c s = false.
Proof.
  intros Hc Hy Hx. unfold putchar_scrolls, vga_putchar.
  rewrite putchar_switch_printable by assumption.
  unfold VGA_WIDTH, VGA_HEIGHT. cbv zeta.
  cbn [cursor_x cursor_y set_x set_y set_buffer vga_buffer current_attr].
  rewrite Hy. rewrite !sint32_small by (rewrite ?sint32_small; lia).
  destruct (80 <=? cursor_x s + 1) eqn:E1; [lia|].
  cbn [cursor_x cursor_y set_x set_y set_buffer vga_buffer current_attr].
  rewrite Hy. change (25 <=? 24) with false. cbv iota.
  repeat split; try reflexivity. exact Hy.
Qed.

(** A printable character written in the last cell of the display: the cell
    is stored, then the display scrolls and the cursor returns to the start
    of the last row. *)
Lemma putchar_last_cell c s :
  printable c -> length (vga_buffer s) = 2000%nat ->
  cursor_y s = 24 -> cursor_x s = 79 ->
  vga_buffer (vga_putchar c s)
  = drop 80 (<[1999%nat := vga_make_entry c (current_attr s)]> (vga_buffer s))
    ++ blank_row (current_attr s) /\
  cursor_x (vga_putchar c s) = 0 /\
  cursor_y (vga_putchar c s) = 24 /\
  current_attr (vga_putchar c s) = current_attr s /\
  putchar_scrolls c s = true.
Proof.
  intros Hc Hlen Hy Hx. unfold putchar_scrolls, vga_putchar.
  rewrite putchar_switch_printable by assumption.
  unfold VGA_WIDTH, VGA_HEIGHT. cbv zeta.
  cbn [cursor_x cursor_y set_x set_y set_buffer vga_buffer current_attr].
  rewrite Hy, Hx. rewrite !sint32_small by (rewrite ?sint32_small; lia).
  change (80 <=? 79 + 1) with true. cbv iota.
  cbn [cursor_x cursor_y set_x set_y set_buffer vga_buffer current_attr].
  change (25 <=? 24 + 1) with true. cbv iota.
  rewrite !(proj1 (vga_update_cursor_fields _)).
  destruct (vga_update_cursor_fields
              (set_y (25 - 1)
                 (vga_scroll
                    (set_y (24 + 1)
                       (set_x 0
                          (set_x (79 + 1)
                             (set_buffer
                                (<[Z.to_nat (24 * 80 + 79) :=
                                     vga_make_entry c (current_attr s)]>
                                   (vga_buffer s)) s)))))))
    as (_ & Ex & Ey & Ea).
  rewrite Ex, Ey, Ea.
  split; [|repeat split].
  unfold set_y at 1. cbn [vga_buffer].
  rewrite vga_scroll_buffer by (cbn [vga_buffer set_y set_x set_buffer];
                                rewrite length_insert; exact Hlen).
  reflexivity.
Qed.

(** A newline on the last row scrolls. *)
Lemma putchar_newline_last_row s :
  length (vga_buffer s) = 2000%nat -> cursor_y s = 24 ->
  vga_buffer (vga_putchar 10 s)
  = drop 80 (vga_buffer s) ++ blank_row (current_attr s) /\
  cursor_x (vga_putchar 10 s) = 0 /\
  cursor_y (vga_putchar 10 s) = 24 /\
  putchar_scrolls 10 s = true.
Proof.
  intros Hlen Hy. unfold putchar_scrolls, vga_putchar, putchar_switch.
  change (10 =? 10) with true. cbv iota zeta.
  unfold VGA_HEIGHT.
  cbn [cursor_x cursor_y set_x set_y set_buffer vga_buffer current_attr].
  rewrite Hy. rewrite sint32_small by lia.
  change (25 <=? 24 + 1) with true. cbv iota.
  split; [|repeat split].
  rewrite (proj1 (vga_update_cursor_fields _)).
  unfold set_y at 1. cbn [vga_buffer].
  rewrite vga_scroll_buffer by exact Hlen.
  reflexivity.
Qed.

Lemma fill_last_row_cons b x attr c cs :
  0 <= x -> (Z.to_nat (24 * 80 + x) < length b)%nat ->
  fill_last_row (<[Z.to_nat (24 * 80 + x) := vga_make_entry c attr]> b)
                (x + 1) attr cs
  = fill_last_row b x attr (c :: cs).
Proof.
  intros Hx Hlen. unfold fill_last_row.
  replace (Z.to_nat (24 * 80 + (x + 1))) with (S (Z.to_nat (24 * 80 + x)))
    by lia.
  set (k := Z.to_nat (24 * 80 + x)) in *.
  rewrite (take_S_r _ k (vga_make_entry c attr))
    by (apply list_lookup_insert_eq; exact Hlen).
  rewrite take_insert_ge, drop_insert_lt by lia.
  rewrite <- app_assoc. cbn [fmap list_fmap app length].
  replace (k + S (length cs))%nat with (S k + length cs)%nat by lia.
  reflexivity.
Qed.

Lemma fill_last_row_length b x attr cs :
  0 <= x -> length b = 2000%nat -> x + Z.of_nat (length cs) = 80 ->
  length (fill_last_row b x attr cs) = 2000%nat.
Proof.
  intros Hx Hlen Hcs. unfold fill_last_row.
  rewrite !length_app, length_take, length_fmap, length_drop. lia.
Qed.

(** Printable characters that fill the last row up to its end: the last of
    them scrolls the display, once. *)
Lemma putchars_fill_last_row cs : forall s,
  Forall printable cs -> length (vga_buffer s) = 2000%nat ->
  cursor_y s = 24 -> 0 <= cursor_x s -> cs <> [] ->
  cursor_x s + Z.of_nat (length cs) = 80 ->
  vga_buffer (putchars cs s)
  = drop 80 (fill_last_row (vga_buffer s) (cursor_x s) (current_attr s) cs)
    ++ blank_row (current_attr s) /\
  cursor_x (putchars cs s) = 0 /\
  cursor_y (putchars cs s) = 24 /\
  current_attr (putchars cs s) = current_attr s /\
  scroll_count cs s = 1%nat.
Proof.
  induction cs as [|c cs IH]; intros s Hp Hlen Hy Hx Hne Hsum; [done|].
  apply Forall_cons in Hp as [Hc Hp].
  destruct cs as [|c' cs'].
  - cbn [length] in Hsum.
    destruct (putchar_last_cell c s Hc Hlen Hy ltac:(lia))
      as (Eb & Ex & Ey & Ea & Es).
    unfold putchars. cbn [fold_left scroll_count].
    rewrite Eb, Ex, Ey, Ea, Es. repeat split.
    unfold fill_last_row.
    replace (Z.to_nat (24 * 80 + cursor_x s)) with 1999%nat by lia.
    cbn [fmap list_fmap app length].
    rewrite insert_take_drop by lia. reflexivity.
  - cbn [length] in Hsum.
    destruct (putchar_last_row_step c s Hc Hy ltac:(lia))
      as (Eb & Ex & Ey & Ea & Es).
    specialize (IH (vga_putchar c s) Hp).
    rewrite Eb, Ex, Ey, Ea in IH. rewrite length_insert in IH.
    specialize (IH Hlen eq_refl ltac:(lia) ltac:(done)
                   ltac:(cbn [length]; lia)).
    rewrite fill_last_row_cons in IH by lia.
    change (putchars (c :: c' :: cs') s)
      with (putchars (c' :: cs') (vga_putchar c s)).
    change (scroll_count (c :: c' :: cs') s)
      with ((if putchar_scrolls c s then 1 else 0)
            + scroll_count (c' :: cs') (vga_putchar c s))%nat.
    rewrite Es. exact IH.
Qed.

(** Moving up: the rows of a display that has been scrolled [k] times. *)
Lemma row_after_scrolls (b tail : list Z) (k r : Z) :
  length b = 2000%nat -> 0 <= k -> k <= r < 25 ->
  row (drop (Z.to_nat (k * 80)) b ++ tail) (r - k) = row b r.
Proof.
  intros Hlen Hk Hr. unfold row, VGA_WIDTH.
  rewrite drop_app_le by (rewrite length_drop; lia).
  rewrite drop_drop.
  replace (Z.to_nat (k * 80) + Z.to_nat ((r - k) * 80))%nat
    with (Z.to_nat (r * 80)) by lia.
  rewrite take_app_le by (rewrite length_drop; lia). reflexivity.
Qed.

Lemma last_row_after_scroll (b tail : list Z) :
  length b = 2000%nat -> length tail = 80%nat ->
  row (drop 80 b ++ tail) 24 = tail.
Proof.
  intros Hlen Ht. unfold row, VGA_WIDTH.
  replace (Z.to_nat (24 * 80)) with (length (drop 80 b))
    by (rewrite length_drop; lia).
  rewrite drop_app_length. apply take_ge. lia.
Qed.

(** C5, as the code has it.  Printable characters [cs] that fill the last
    row from the cursor to its end scroll the display exactly once, on the
    last of them: every former row moves one line up, the bottom row is
    blank in the current attribute and the cursor stands at its start.  A
    further printable character does not scroll again, so the property holds
    as worded and the cursor ends at column 1.  A further newline scrolls a
    second time: every former row ends two lines up, the last two rows are
    blank and the cursor ends at column 0 of the last row. *)
Theorem filling_last_row_scrolls (s : vga_state) (cs : list Z) (t : Z) :
  length (vga_buffer s) = 2000%nat ->
  cursor_y s = 24 -> 0 <= cursor_x s < 80 ->
  Forall printable cs -> cursor_x s + Z.of_nat (length cs) = 80 ->
  let attr := current_attr s in
  let full := fill_last_row (vga_buffer s) (cursor_x s) attr cs in
  let s1 := putchars cs s in
  let s' := putchars (cs ++ [t]) s in
  (scroll_count cs s = 1%nat /\
   (forall r, 1 <= r < 25 -> row (vga_buffer s1) (r - 1) = row full r) /\
   row (vga_buffer s1) 24 = blank_row attr /\
   cursor_x s1 = 0 /\ cursor_y s1 = 24) /\
  (printable t -> scrolls_exactly_once s cs t) /\
  (t = 10 ->
   scroll_count (cs ++ [t]) s = 2%nat /\
   (forall r, 2 <= r < 25 -> row (vga_buffer s') (r - 2) = row full r) /\
   row (vga_buffer s') 23 = blank_row attr /\
   row (vga_buffer s') 24 = blank_row attr /\
   cursor_x s' = 0 /\ cursor_y s' = 24).
Proof.
  intros Hlen Hy Hx Hp Hsum attr full s1 s'.
  assert (Hne : cs <> []) by (intros ->; cbn [length] in Hsum; lia).
  destruct (putchars_fill_last_row cs s Hp Hlen Hy ltac:(lia) Hne Hsum)
    as (Eb & Ex & Ey & Ea & Es).
  fold attr full s1 in Eb, Ex, Ey, Ea.
  assert (Hfull : length full = 2000%nat)
    by (apply fill_last_row_length; [lia | exact Hlen | exact Hsum]).
  assert (Hblank : length (blank_row attr) = 80%nat)
    by apply length_replicate.
  assert (Hl1 : length (vga_buffer s1) = 2000%nat)
    by (rewrite Eb, length_app, length_drop, Hfull, Hblank; lia).
  split; [|split].
  - split; [exact Es|]. rewrite Eb. split; [|split; [|split; assumption]].
    + intros r Hr. apply (row_after_scrolls full _ 1 r); [exact Hfull|lia|lia].
    + apply last_row_after_scroll; assumption.
  - intros Ht.
    destruct (putchar_last_row_step t s1 Ht Ey ltac:(lia))
      as (Eb' & Ex' & Ey' & Ea' & Es').
    assert (Et : (t =? 10) = false) by (unfold printable in Ht; lia).
    unfold scrolls_exactly_once. cbv zeta. fold attr full.
    rewrite scroll_count_app, putchars_app. fold s1.
    change (putchars [t] s1) with (vga_putchar t s1).
    change (scroll_count [t] s1)
      with ((if putchar_scrolls t s1 then 1 else 0) + 0)%nat.
    rewrite Es, Es', Eb', Ex', Ey', Ex, Ea, Et, Eb.
    replace (Z.to_nat (24 * 80 + 0)) with (length (drop 80 full) + 0)%nat
      by (rewrite length_drop; lia).
    rewrite insert_app_r.
    split; [reflexivity|]. split; [|split; [|split; [reflexivity|lia]]].
    + intros r Hr. apply (row_after_scrolls full _ 1 r); [exact Hfull|lia|lia].
    + rewrite last_row_after_scroll
        by (rewrite ?length_insert; assumption).
      reflexivity.
  - intros ->.
    destruct (putchar_newline_last_row s1 Hl1 Ey) as (Eb' & Ex' & Ey' & Es').
    subst s'. rewrite scroll_count_app, putchars_app. fold s1.
    change (putchars [10] s1) with (vga_putchar 10 s1).
    change (scroll_count [10] s1)
      with ((if putchar_scrolls 10 s1 then 1 else 0) + 0)%nat.
    rewrite Es, Es', Eb', Ex', Ey', Ea, Eb.
    rewrite drop_app_le by (rewrite length_drop; lia).
    rewrite drop_drop, <- app_assoc. change (80 + 80)%nat with 160%nat.
    assert (Hd : length (drop 160 full) = 1840%nat)
      by (rewrite length_drop; lia).
    split; [reflexivity|]. split; [|split; [|split; [|split; reflexivity]]].
    + intros r Hr. apply (row_after_scrolls full _ 2 r); [exact Hfull|lia|lia].
    + unfold row, VGA_WIDTH.
      replace (Z.to_nat (23 * 80)) with (length (drop 160 full)) by lia.
      rewrite drop_app_length. apply take_app_length'. exact Hblank.
    + unfold row, VGA_WIDTH.
      replace (Z.to_nat (24 * 80))
        with (length (drop 160 full ++ blank_row attr))
        by (rewrite length_app; lia).
      rewrite app_assoc, drop_app_length. apply take_ge. lia.
Qed.

Lemma filling_last_row_scrolls_witness :
  let s := VgaState numbered_rows 78 24 7 [] in
  scrolls_exactly_once s [104; 105] 33.
Proof.
  apply (proj1 (proj2 (filling_last_row_scrolls
                         (VgaState numbered_rows 78 24 7 []) [104; 105] 33
                         eq_refl eq_refl ltac:(cbn; lia)
                         ltac:(repeat constructor; unfold printable; lia)
                         eq_refl))).
  unfold printable; lia.
Defined.

(** C5 as worded fails when the further character is a newline: it scrolls
    the display a second time. *)
Lemma newline_after_full_row_scrolls_again :
  ~ scrolls_exactly_once (VgaState numbered_rows 0 24 7 []) (replicate 80 120) 10.
Proof.
  unfold scrolls_exactly_once. intros [Hcount _].
  vm_compute in Hcount. discriminate.
Qed.

End VgaFacts.

(** ** The line editor *)

Section ReadlineFacts.
Import Vga Shell.

Lemma readline_loop_unfold keys maxlen st :
  readline_loop keys maxlen st
  = if rl_pos st <? uint64 (maxlen - 1) then
      match keys with
      | [] => Waiting st
      | c :: keys' =>
          if (c =? 10) || (c =? KEY_ENTER) then
            Returned (sint32 (rl_pos st))
                     (rl_echo 10 (rl_store (rl_pos st) 0 st))
          else if (c =? 8) || (c =? KEY_BACKSPACE) then
            if 0 <? rl_pos st then
              readline_loop keys' maxlen
                (rl_echo 8 (rl_echo 32 (rl_echo 8
                   (rl_set_pos (uint64 (rl_pos st - 1)) st))))
            else readline_loop keys' maxlen st
          else if (32 <=? c) && (c <=? 126) then
            readline_loop keys' maxlen
              (rl_echo c (rl_set_pos (uint64 (rl_pos st + 1))
                            (rl_store (rl_pos st) c st)))
          else readline_loop keys' maxlen st
      end
    else Returned (sint32 (rl_pos st)) (rl_store (rl_pos st) 0 st).
Proof. destruct keys; reflexivity. Qed.

Lemma rl_inv_echo maxlen c st : rl_inv maxlen st -> rl_inv maxlen (rl_echo c st).
Proof. intros H; exact H. Qed.

Lemma rl_inv_terminate maxlen st :
  rl_inv maxlen st -> rl_inv maxlen (rl_store (rl_pos st) 0 st).
Proof.
  intros (Hpos & Hst & Hdata).
  unfold rl_inv, rl_store. cbn [rl_pos rl_mem rl_stores].
  split; [exact Hpos|]. split.
  - apply Forall_app. split; [exact Hst|].
    constructor; [|constructor]. cbn. split; [lia|done].
  - intros i Hi. rewrite lookup_insert_ne by lia. apply Hdata, Hi.
Qed.

Lemma rl_inv_backspace maxlen st :
  1 <= maxlen < 18446744073709551616 -> 0 < rl_pos st ->
  rl_inv maxlen st -> rl_inv maxlen (rl_set_pos (uint64 (rl_pos st - 1)) st).
Proof.
  intros Hm Hp (Hpos & Hst & Hdata).
  rewrite uint64_small by lia.
  unfold rl_inv, rl_set_pos. cbn [rl_pos rl_mem rl_stores].
  split; [lia|]. split; [exact Hst|].
  intros i Hi. apply Hdata. lia.
Qed.

Lemma rl_inv_append maxlen c st :
  1 <= maxlen < 18446744073709551616 -> rl_pos st < maxlen - 1 ->
  32 <= c <= 126 ->
  rl_inv maxlen st ->
  rl_inv maxlen (rl_set_pos (uint64 (rl_pos st + 1)) (rl_store (rl_pos st) c st)).
Proof.
  intros Hm Hp Hc (Hpos & Hst & Hdata).
  rewrite uint64_small by lia.
  unfold rl_inv, rl_set_pos, rl_store. cbn [rl_pos rl_mem rl_stores].
  split; [lia|]. split.
  - apply Forall_app. split; [exact Hst|].
    constructor; [|constructor]. cbn. lia.
  - intros i Hi.
    destruct (decide (i = rl_pos st)) as [->|Hne].
    + exists c. rewrite lookup_insert_eq. done.
    + rewrite lookup_insert_ne by done. apply Hdata. lia.
Qed.

(** The loop keeps the invariant, and a call that returns has just stored
    the terminator at the final position and returns that position as an
    [int]. *)
Lemma readline_loop_spec maxlen keys : forall st,
  1 <= maxlen < 18446744073709551616 -> rl_inv maxlen st ->
  rl_inv maxlen (rl_final (readline_loop keys maxlen st)) /\
  (forall ret st',
     readline_loop keys maxlen st = Returned ret st' ->
     ret = sint32 (rl_pos st') /\
     rl_mem st' !! rl_pos st' = Some 0 /\
     last (rl_stores st') = Some (rl_pos st', 0)).
Proof.
  assert (Hret : forall st ret st' s',
            Returned (sint32 (rl_pos st))
              (RlState (rl_pos st) (<[rl_pos st:=0]> (rl_mem st))
                       (rl_stores st ++ [(rl_pos st, 0)]) s')
            = Returned ret st' ->
            ret = sint32 (rl_pos st') /\
            rl_mem st' !! rl_pos st' = Some 0 /\
            last (rl_stores st') = Some (rl_pos st', 0)).
  { intros st ret st' s' [= <- <-]. cbn [rl_pos rl_mem rl_stores].
    rewrite lookup_insert_eq, last_snoc. done. }
  induction keys as [|c keys IH]; intros st Hm Hinv;
    rewrite readline_loop_unfold.
  - destruct (rl_pos st <? uint64 (maxlen - 1)) eqn:E.
    + split; [exact Hinv|]. intros ? ? [=].
    + split; [apply rl_inv_terminate, Hinv|].
      intros ret st'. exact (Hret st ret st' _).
  - destruct (rl_pos st <? uint64 (maxlen - 1)) eqn:E.
    2:{ split; [apply rl_inv_terminate, Hinv|].
        intros ret st'. exact (Hret st ret st' _). }
    rewrite uint64_small in E by lia.
    destruct ((c =? 10) || (c =? KEY_ENTER)).
    { split; [apply rl_inv_echo, rl_inv_terminate, Hinv|].
      intros ret st'. exact (Hret st ret st' _). }
    destruct ((c =? 8) || (c =? KEY_BACKSPACE)).
    { destruct (0 <? rl_pos st) eqn:E0; [|apply IH; assumption].
      apply IH; [exact Hm|].
      do 3 apply rl_inv_echo. apply rl_inv_backspace; [exact Hm|lia|exact Hinv]. }
    destruct ((32 <=? c) && (c <=? 126)) eqn:Ec; [|apply IH; assumption].
    apply IH; [exact Hm|].
    apply rl_inv_echo, rl_inv_append; [exact Hm|lia|lia|exact Hinv].
Qed.

(** Enter ends the call: with a newline among the key events the call
    returns. *)
Lemma readline_loop_returns maxlen keys : forall st,
  10 ∈ keys -> exists ret st', readline_loop keys maxlen st = Returned ret st'.
Proof.
  induction keys as [|c keys IH]; intros st Hin; [by apply elem_of_nil in Hin|].
  rewrite readline_loop_unfold.
  destruct (rl_pos st <? uint64 (maxlen - 1)); [|eauto].
  destruct (decide (c = 10)) as [->|Hne]; [cbn; eauto|].
  apply elem_of_cons in Hin as [Hin|Hin]; [done|].
  replace ((c =? 10) || (c =? KEY_ENTER)) with false
    by (unfold KEY_ENTER; lia).
  repeat case_match; apply IH, Hin.
Qed.

(** Typing [n] printable characters into a buffer with room for them. *)
Lemma readline_loop_typed maxlen c rest n : forall st,
  maxlen < 18446744073709551616 -> 32 <= c <= 126 ->
  0 <= rl_pos st -> rl_pos st + Z.of_nat n < maxlen ->
  exists st',
    readline_loop (replicate n c ++ rest) maxlen st
    = readline_loop rest maxlen st' /\
    rl_pos st' = rl_pos st + Z.of_nat n /\
    (forall i, i < 0 -> rl_mem st' !! i = rl_mem st !! i).
Proof.
  induction n as [|n IH]; intros st Hm Hc Hpos Hroom.
  - exists st. cbn [replicate app]. split; [reflexivity|]. split; [lia|done].
  - cbn [replicate app]. rewrite readline_loop_unfold.
    rewrite uint64_small by lia.
    replace (rl_pos st <? maxlen - 1) with true by lia.
    replace ((c =? 10) || (c =? KEY_ENTER)) with false
      by (unfold KEY_ENTER; lia).
    replace ((c =? 8) || (c =? KEY_BACKSPACE)) with false
      by (unfold KEY_BACKSPACE; lia).
    replace ((32 <=? c) && (c <=? 126)) with true by lia.
    rewrite uint64_small by lia.
    destruct (IH (rl_echo c (rl_set_pos (rl_pos st + 1)
                               (rl_store (rl_pos st) c st)))
                 Hm Hc ltac:(cbn; lia) ltac:(cbn; lia))
      as (st' & Eq & Ep & Em).
    exists st'. split; [exact Eq|]. split; [cbn in Ep; lia|].
    intros i Hi. rewrite (Em i Hi). cbn.
    apply lookup_insert_ne. lia.
Qed.

(** C4, what the code guarantees for every buffer size.  For every [maxlen]
    of at least 1 that a [size_t] holds and every sequence of key events:
    every store goes to an index below [maxlen] and every store of a
    character to an index below [maxlen - 1], also while the call is still
    waiting for keys; when the call returns, the final position is between
    0 and [maxlen - 1], the last store put a NUL at that position, the
    bytes before it are the printable characters typed, and the value
    returned is the position converted to [int], the position itself
    while it is below 2^31.  For a [maxlen] of at most 2^31 this is the
    guarantee as the specification words it.  The call returns as soon as
    a newline is among the key events. *)
Theorem readline_output_bounded
    (keys : list Z) (mem : gmap Z Z) (maxlen : Z) (s : vga_state) :
  1 <= maxlen < 18446744073709551616 ->
  let r := shell_readline keys mem maxlen s in
  Forall (fun iv => 0 <= iv.1 < maxlen /\ (iv.2 <> 0 -> iv.1 < maxlen - 1))
         (rl_stores (rl_final r)) /\
  (forall ret st,
     r = Returned ret st ->
     0 <= rl_pos st <= maxlen - 1 /\
     last (rl_stores st) = Some (rl_pos st, 0) /\
     rl_mem st !! rl_pos st = Some 0 /\
     (forall i, 0 <= i < rl_pos st ->
        exists c, rl_mem st !! i = Some c /\ 32 <= c <= 126) /\
     ret = sint32 (rl_pos st) /\
     (rl_pos st < 2147483648 -> ret = rl_pos st)) /\
  (maxlen <= 2147483648 -> readline_guarantee keys mem maxlen s) /\
  (10 ∈ keys -> exists ret st, r = Returned ret st).
Proof.
  intros Hm r.
  assert (Hinv0 : rl_inv maxlen (RlState 0 mem [] s)).
  { split; [cbn; lia|]. split; [constructor|]. cbn. intros i Hi. lia. }
  destruct (readline_loop_spec maxlen keys (RlState 0 mem [] s) Hm Hinv0)
    as [Hinv Hret].
  fold (shell_readline keys mem maxlen s) in Hinv, Hret. fold r in Hinv, Hret.
  assert (Hfin : forall ret st, r = Returned ret st ->
            rl_inv maxlen st /\ ret = sint32 (rl_pos st) /\
            rl_mem st !! rl_pos st = Some 0 /\
            last (rl_stores st) = Some (rl_pos st, 0)).
  { intros ret st Er. destruct (Hret ret st Er) as (E1 & E2 & E3).
    rewrite Er in Hinv. cbn [rl_final] in Hinv. done. }
  split; [exact (proj1 (proj2 Hinv))|]. split; [|split].
  - intros ret st Er.
    destruct (Hfin ret st Er) as ((Hp & _ & Hd) & E1 & E2 & E3).
    split; [exact Hp|]. split; [exact E3|]. split; [exact E2|].
    split; [exact Hd|]. split; [exact E1|].
    intros Hsmall. rewrite E1. apply sint32_small. lia.
  - intros Hfit ret st Er.
    destruct (Hfin ret st Er) as ((Hp & Hs & _) & E1 & E2 & _).
    assert (Er' : ret = rl_pos st) by (rewrite E1; apply sint32_small; lia).
    clear E1. subst ret.
    split; [lia|]. split; [lia|]. split; [exact E2|].
    eapply Forall_impl; [exact Hs|]. cbn. intros iv ?. lia.
  - intros Hin. apply readline_loop_returns, Hin.
Qed.

Lemma readline_output_bounded_witness :
  readline_guarantee [104; 105; 8; 111; 10] ∅ 256 (VgaState [] 0 0 7 []).
Proof.
  apply (readline_output_bounded [104; 105; 8; 111; 10] ∅ 256
           (VgaState [] 0 0 7 []) ltac:(lia)).
  lia.
Defined.

Lemma readline_overflow (n : nat) :
  Z.of_nat n = 2147483648 ->
  ~ readline_guarantee (replicate n 97 ++ [10]) ∅ 2147483650
      (VgaState [] 0 0 7 []).
Proof.
  intros Hn Hg. unfold readline_guarantee, shell_readline in Hg.
  destruct (readline_loop_typed 2147483650 97 [10] n
              (RlState 0 ∅ [] (VgaState [] 0 0 7 []))
              ltac:(lia) ltac:(lia) ltac:(cbn [rl_pos]; lia)
              ltac:(cbn [rl_pos]; lia))
    as (st' & Eq & Ep & Em).
  rewrite Eq in Hg. rewrite readline_loop_unfold in Hg.
  cbn [rl_pos] in Ep. rewrite Hn in Ep.
  rewrite Ep in Hg.
  change (0 + 2147483648 <? uint64 (2147483650 - 1)) with true in Hg.
  change ((10 =? 10) || (10 =? KEY_ENTER)) with true in Hg.
  cbv iota in Hg.
  destruct (Hg _ _ eq_refl) as (_ & _ & Hnul & _).
  change (sint32 (0 + 2147483648)) with (-2147483648) in Hnul.
  unfold rl_echo, rl_store in Hnul. cbn [rl_mem] in Hnul.
  rewrite lookup_insert_ne in Hnul by lia.
  rewrite (Em (-2147483648)) in Hnul by lia.
  cbn [rl_mem] in Hnul. rewrite lookup_empty in Hnul. discriminate.
Qed.

(** For a buffer of 2^31 + 2 bytes, 2^31 printable keys and Enter, the
    guarantee as the specification words it does not hold: the value
    returned is not the index of the terminator. *)
Lemma readline_count_overflows_int :
  ~ readline_guarantee (replicate (Z.to_nat 2147483648) 97 ++ [10]) ∅
      2147483650 (VgaState [] 0 0 7 []).
Proof.
  exact (readline_overflow (Z.to_nat 2147483648)
           (Z2Nat.id 2147483648 (Z.lt_le_incl 0 2147483648 eq_refl))).
Qed.



End ReadlineFacts.

(** ** Strings and the parser *)

Section LibcFacts.
Import Libc.

Lemma strlen_c_string l : strlen l = Z.of_nat (length (c_string l)).
Proof.
  induction l as [|c l IH]; [reflexivity|]. cbn [strlen c_string].
  destruct (c =? 0); [reflexivity|]. cbn [length]. lia.
Qed.

Lemma c_string_nul_free l : Forall (fun c => c <> 0) (c_string l).
Proof.
  induction l as [|c l IH]; [constructor|]. cbn [c_string].
  destruct (c =? 0) eqn:E; [constructor|]. constructor; [lia|exact IH].
Qed.

Lemma c_string_take l : take (length (c_string l)) l = c_string l.
Proof.
  induction l as [|c l IH]; [reflexivity|]. cbn [c_string].
  destruct (c =? 0); [reflexivity|]. cbn [length take]. rewrite IH. reflexivity.
Qed.

Lemma c_string_length_le l : (length (c_string l) <= length l)%nat.
Proof.
  induction l as [|c l IH]; [reflexivity|]. cbn [c_string].
  destruct (c =? 0); cbn [length]; lia.
Qed.

(** A run of non-NUL characters followed by a NUL reads back as itself. *)
Lemma c_string_app_nul w t :
  Forall (fun c => c <> 0) w -> c_string (w ++ 0 :: t) = w.
Proof.
  induction 1 as [|c w Hc Hw IH]; [reflexivity|].
  cbn [app c_string]. replace (c =? 0) with false by lia.
  rewrite IH. reflexivity.
Qed.

Lemma c_string_id w : Forall (fun c => c <> 0) w -> c_string w = w.
Proof.
  induction 1 as [|c w Hc Hw IH]; [reflexivity|].
  cbn [c_string]. replace (c =? 0) with false by lia.
  rewrite IH. reflexivity.
Qed.

Lemma memcpy_from_spec src n : forall i dest,
  (i + n <= length src)%nat -> (i + n <= length dest)%nat ->
  memcpy_from i n dest src
  = Some (take i dest ++ take n (drop i src) ++ drop (i + n) dest).
Proof.
  induction n as [|n IH]; intros i dest Hs Hd.
  - rewrite Nat.add_0_r. simpl. rewrite take_drop. reflexivity.
  - cbn [memcpy_from].
    destruct (lookup_lt_is_Some_2 src i ltac:(lia)) as [c Hc].
    rewrite Hc. cbn [mbind option_bind].
    rewrite IH by (rewrite ?length_insert; lia).
    rewrite (take_S_r _ i c)
      by (rewrite list_lookup_insert_eq; [reflexivity|lia]).
    rewrite take_insert_ge, drop_insert_lt by lia.
    rewrite (drop_S src c i Hc). simpl take.
    rewrite <- app_assoc. simpl app.
    replace (S (i + n)) with (i + S n)%nat by lia. reflexivity.
Qed.

Lemma memcpy_spec dest src n :
  (n <= length src)%nat -> (n <= length dest)%nat ->
  memcpy dest src n = Some (take n src ++ drop n dest).
Proof.
  intros Hs Hd. unfold memcpy.
  rewrite memcpy_from_spec by (cbn; lia). rewrite take_0, drop_0. reflexivity.
Qed.

(** [strcmp] returns zero exactly on equal strings. *)
Lemma strcmp_eq s1 : forall s2,
  is_c_string s1 -> is_c_string s2 -> strcmp s1 s2 = 0 <-> s1 = s2.
Proof.
  unfold is_c_string, is_char.
  induction s1 as [|c1 s1 IH]; intros s2 H1 H2.
  - cbn [strcmp]. destruct s2 as [|c2 s2]; [done|].
    apply Forall_cons in H2 as [[Hc Hnz] _]. cbn [deref hd].
    split; [|done]. intros E. exfalso. zwrap.
  - apply Forall_cons in H1 as [[Hc1 Hnz1] H1]. cbn [strcmp].
    destruct s2 as [|c2 s2]; cbn [deref hd tl].
    + replace (c1 =? 0) with false by lia. cbn [negb andb].
      replace (c1 =? 0) with false by lia.
      split; [|done]. intros E. exfalso. zwrap.
    + apply Forall_cons in H2 as [[Hc2 Hnz2] H2].
      replace (c1 =? 0) with false by lia. cbn [negb andb].
      destruct (c1 =? c2) eqn:E.
      * assert (c1 = c2) by lia. subst c2. rewrite IH by assumption.
        split; [intros ->; done | intros [=]; done].
      * split; [|intros [=]; lia]. intros E'. exfalso. zwrap.
Qed.

End LibcFacts.

Section ParserFacts.
Import Libc Parser.

Lemma isspace_nonzero c : isspace c = true -> c <> 0.
Proof. unfold isspace. intros H ->. discriminate. Qed.

(** *** The word list *)

Lemma words_from_word w : forall cur l,
  Forall is_word_char w -> words_from cur (w ++ l) = words_from (cur ++ w) l.
Proof.
  induction w as [|c w IH]; intros cur l Hw.
  - rewrite app_nil_r. reflexivity.
  - apply Forall_cons in Hw as [[_ Hc] Hw]. cbn [app words_from].
    rewrite Hc, IH by exact Hw. rewrite <- app_assoc. reflexivity.
Qed.

Lemma words_blanks sp l :
  Forall is_blank sp -> words (sp ++ l) = words l.
Proof.
  unfold words. induction 1 as [|c sp [_ Hc] _ IH]; [reflexivity|].
  cbn [app words_from]. rewrite Hc. exact IH.
Qed.

Lemma words_word_end w :
  w <> [] -> Forall is_word_char w -> words w = [w].
Proof.
  intros Hne Hw. unfold words.
  rewrite <- (app_nil_r w) at 1. rewrite words_from_word by exact Hw.
  cbn [app words_from]. destruct (decide (w = [])); done.
Qed.

Lemma words_word_blank w c l :
  w <> [] -> Forall is_word_char w -> isspace c = true ->
  words (w ++ c :: l) = w :: words l.
Proof.
  intros Hne Hw Hc. unfold words.
  rewrite words_from_word by exact Hw. cbn [app words_from].
  rewrite Hc. destruct (decide (w = [])); done.
Qed.

(** *** Splitting a line at the next class boundary *)

Lemma split_blanks rest :
  Forall (fun c => c <> 0) rest ->
  exists sp rest1,
    rest = sp ++ rest1 /\ Forall is_blank sp /\
    (rest1 = [] \/ exists c t, rest1 = c :: t /\ isspace c = false).
Proof.
  induction 1 as [|c rest Hc Hrest (sp & rest1 & -> & Hsp & Hr)].
  - exists [], []. split; [reflexivity|]. split; [constructor|]. by left.
  - destruct (isspace c) eqn:E.
    + exists (c :: sp), rest1. split; [reflexivity|].
      split; [constructor; [done|exact Hsp]|exact Hr].
    + exists [], (c :: sp ++ rest1). split; [reflexivity|].
      split; [constructor|]. right. eauto.
Qed.

Lemma split_word rest :
  Forall (fun c => c <> 0) rest ->
  exists w rest2,
    rest = w ++ rest2 /\ Forall is_word_char w /\
    (rest2 = [] \/ exists c t, rest2 = c :: t /\ isspace c = true).
Proof.
  induction 1 as [|c rest Hc Hrest (w & rest2 & -> & Hw & Hr)].
  - exists [], []. split; [reflexivity|]. split; [constructor|]. by left.
  - destruct (isspace c) eqn:E.
    + exists [], (c :: w ++ rest2). split; [reflexivity|].
      split; [constructor|]. right. eauto.
    + exists (c :: w), rest2. split; [reflexivity|].
      split; [constructor; [done|exact Hw]|exact Hr].
Qed.

(** *** The two scanning loops *)

Lemma skip_spaces_spec sp : forall fuel pre tail,
  Forall is_blank sp -> (length sp < fuel)%nat -> stops_blanks tail ->
  skip_spaces fuel (pre ++ sp ++ tail) (length pre)
  = Some (length pre + length sp)%nat.
Proof.
  induction sp as [|c sp IH]; intros fuel pre tail Hsp Hfuel Htail;
    (destruct fuel as [|fuel]; [cbn [length] in Hfuel; lia|]);
    cbn [skip_spaces].
  - destruct Htail as (c & t & -> & Hc). cbn [app].
    rewrite list_lookup_middle by reflexivity. cbn [mbind option_bind].
    replace (negb (c =? 0) && isspace c) with false
      by (destruct Hc as [->| ->]; [reflexivity|apply eq_sym, andb_false_r]).
    cbn [length]. f_equal. lia.
  - apply Forall_cons in Hsp as [[Hnz Hc] Hsp]. cbn [app].
    rewrite list_lookup_middle by reflexivity. cbn [mbind option_bind].
    rewrite Hc. replace (c =? 0) with false by lia. cbn [negb andb].
    specialize (IH fuel (pre ++ [c]) tail Hsp ltac:(cbn [length] in Hfuel; lia)
                   Htail).
    rewrite <- app_assoc, length_app in IH. cbn [app length] in IH.
    replace (length pre + 1)%nat with (S (length pre)) in IH by lia.
    rewrite IH. cbn [length]. f_equal. lia.
Qed.

Lemma skip_word_spec w : forall fuel pre tail,
  Forall is_word_char w -> (length w < fuel)%nat -> stops_word tail ->
  skip_word fuel (pre ++ w ++ tail) (length pre)
  = Some (length pre + length w)%nat.
Proof.
  induction w as [|c w IH]; intros fuel pre tail Hw Hfuel Htail;
    (destruct fuel as [|fuel]; [cbn [length] in Hfuel; lia|]);
    cbn [skip_word].
  - destruct Htail as (c & t & -> & Hc). cbn [app].
    rewrite list_lookup_middle by reflexivity. cbn [mbind option_bind].
    replace (negb (c =? 0) && negb (isspace c)) with false
      by (destruct Hc as [->| ->]; [reflexivity|apply eq_sym, andb_false_r]).
    cbn [length]. f_equal. lia.
  - apply Forall_cons in Hw as [[Hnz Hc] Hw]. cbn [app].
    rewrite list_lookup_middle by reflexivity. cbn [mbind option_bind].
    rewrite Hc. replace (c =? 0) with false by lia. cbn [negb andb].
    specialize (IH fuel (pre ++ [c]) tail Hw ltac:(cbn [length] in Hfuel; lia)
                   Htail).
    rewrite <- app_assoc, length_app in IH. cbn [app length] in IH.
    replace (length pre + 1)%nat with (S (length pre)) in IH by lia.
    rewrite IH. cbn [length]. f_equal. lia.
Qed.

(** *** Trimming and the argument loop *)

Lemma insert_at_length {A} (l1 l2 : list A) (x y : A) :
  <[length l1 := y]> (l1 ++ x :: l2) = l1 ++ y :: l2.
Proof.
  rewrite <- (Nat.add_0_r (length l1)), insert_app_r. reflexivity.
Qed.

Lemma trim_from_spec l : forall z,
  Forall (fun c => c <> 0) l ->
  exists l' ws,
    l = l' ++ ws /\ Forall is_blank ws /\
    trim_from (length l) (l ++ replicate z 0)
    = Some (l' ++ replicate (length ws + z) 0).
Proof.
  induction l as [|c l0 IH] using rev_ind; intros z Hnz.
  - exists [], []. repeat split; constructor.
  - apply Forall_app in Hnz as [Hnz0 Hc].
    rewrite length_app. cbn [length].
    replace (length l0 + 1)%nat with (S (length l0)) by lia.
    cbn [trim_from]. rewrite <- app_assoc. cbn [app].
    rewrite list_lookup_middle by reflexivity. cbn [mbind option_bind].
    destruct (isspace c) eqn:E.
    + rewrite insert_at_length.
      destruct (IH (S z) Hnz0) as (l' & ws & -> & Hws & Et).
      exists l', (ws ++ [c]). split; [rewrite app_assoc; reflexivity|].
      split; [apply Forall_app; split; [exact Hws|];
              constructor; [exact (conj (isspace_nonzero c E) E)|constructor]|].
      cbn [replicate] in Et. rewrite Et. rewrite length_app. cbn [length].
      do 2 f_equal. f_equal. lia.
    + exists (l0 ++ [c]), []. rewrite app_nil_r. split; [reflexivity|].
      split; [constructor|]. rewrite <- app_assoc. reflexivity.
Qed.

Lemma parser_trim_trailing_spec l z :
  Forall (fun c => c <> 0) l -> (1 <= z)%nat ->
  exists l' ws,
    l = l' ++ ws /\ Forall is_blank ws /\
    parser_trim_trailing (l ++ replicate z 0)
    = Some (l' ++ replicate (length ws + z) 0).
Proof.
  intros Hnz Hz. unfold parser_trim_trailing.
  destruct z as [|z]; [lia|]. cbn [replicate].
  destruct l as [|c l].
  - exists [], []. repeat split; constructor.
  - cbn [app lookup list_lookup mbind option_bind].
    pose proof (Forall_inv Hnz) as Hc. cbn beta in Hc.
    replace (c =? 0) with false by lia.
    rewrite strlen_c_string.
    change (c :: l ++ 0 :: replicate z 0) with ((c :: l) ++ 0 :: replicate z 0).
    rewrite c_string_app_nul by exact Hnz. rewrite Nat2Z.id.
    apply (trim_from_spec (c :: l) (S z) Hnz).
Qed.

Lemma stops_blanks_tail rest1 z :
  (1 <= z)%nat ->
  rest1 = [] \/ (exists c t, rest1 = c :: t /\ isspace c = false) ->
  stops_blanks (rest1 ++ replicate z 0).
Proof.
  intros Hz [->|(c & t & -> & Hc)].
  - destruct z as [|z]; [lia|]. exists 0, (replicate z 0). split; [reflexivity|by left].
  - exists c, (t ++ replicate z 0). split; [reflexivity|by right].
Qed.

Lemma stops_word_tail rest2 z :
  (1 <= z)%nat ->
  rest2 = [] \/ (exists c t, rest2 = c :: t /\ isspace c = true) ->
  stops_word (rest2 ++ replicate z 0).
Proof.
  intros Hz [->|(c & t & -> & Hc)].
  - destruct z as [|z]; [lia|]. exists 0, (replicate z 0). split; [reflexivity|by left].
  - exists c, (t ++ replicate z 0). split; [reflexivity|by right].
Qed.

(** The character under [ptr] when the buffer is [pre ++ rest ++ zeros]. *)
Lemma lookup_at_ptr pre rest z :
  (1 <= z)%nat ->
  (pre ++ rest ++ replicate z 0) !! length pre = Some (hd 0 rest).
Proof.
  intros Hz. destruct rest as [|c rest]; cbn [app hd].
  - destruct z as [|z]; [lia|]. cbn [replicate].
    apply list_lookup_middle. reflexivity.
  - apply list_lookup_middle. reflexivity.
Qed.

Lemma hd_app_zeros (l : list Z) z : hd 0 (l ++ replicate z 0) = hd 0 l.
Proof. destruct l; [destruct z|]; reflexivity. Qed.

Lemma hd_app_ne (l k : list Z) : l <> [] -> hd 0 (l ++ k) = hd 0 l.
Proof. destruct l; [done|reflexivity]. Qed.

Lemma parse_args_spec fuel : forall rest kn av pre z,
  Forall (fun c => c <> 0) rest ->
  (length rest < fuel)%nat -> (length rest < scan_fuel)%nat ->
  (1 <= z)%nat -> (kn <= 16)%nat -> length av = 16%nat ->
  let ws := take (16 - kn) (words rest) in
  exists av' B',
    parse_args fuel (ParsedCmd (Z.of_nat kn) av (pre ++ rest ++ replicate z 0))
               (length pre)
    = Some (ParsedCmd (Z.of_nat (kn + length ws)) av' (pre ++ B')) /\
    length av' = 16%nat /\
    take kn av' = take kn av /\
    hd 0 B' = hd 0 rest /\
    forall j w, ws !! j = Some w ->
      exists o, av' !! (kn + j)%nat = Some (Some (length pre + o)%nat) /\
                c_string (drop o B') = w.
Proof.
  induction fuel as [|fuel IH];
    intros rest kn av pre z Hnz Hfuel Hscan Hz Hk Hav ws; [lia|].
  cbn [parse_args buffer argc argv].
  rewrite lookup_at_ptr by exact Hz. cbn [mbind option_bind].
  (* the loop is left at once *)
  assert (Hstop : ws = [] ->
    forall buf, (exists B, buf = pre ++ B /\ hd 0 B = hd 0 rest) ->
    exists av' B',
      Some (ParsedCmd (Z.of_nat kn) av buf)
      = Some (ParsedCmd (Z.of_nat (kn + length ws)) av' (pre ++ B')) /\
      length av' = 16%nat /\ take kn av' = take kn av /\
      hd 0 B' = hd 0 rest /\
      forall j w, ws !! j = Some w ->
        exists o, av' !! (kn + j)%nat = Some (Some (length pre + o)%nat) /\
                  c_string (drop o B') = w).
  { intros -> buf (B & -> & HB). exists av, B. cbn [length].
    rewrite Nat.add_0_r. split; [reflexivity|]. split; [exact Hav|].
    split; [reflexivity|]. split; [exact HB|].
    intros j w Hj. by rewrite lookup_nil in Hj. }
  destruct (negb (hd 0 rest =? 0) && (Z.of_nat kn <? SHELL_MAX_ARGS)) eqn:Econd.
  2:{ apply Hstop; [|eexists; split; [reflexivity|apply hd_app_zeros]].
      subst ws. apply andb_false_iff in Econd as [E|E].
      - destruct rest as [|c rest];
          [change (words []) with (@nil (list Z)); apply take_nil|].
        apply Forall_inv in Hnz. cbn [hd] in E. lia.
      - unfold SHELL_MAX_ARGS in E.
        replace (16 - kn)%nat with 0%nat by lia. reflexivity. }
  apply andb_true_iff in Econd as [_ Ek]. unfold SHELL_MAX_ARGS in Ek.
  destruct (split_blanks rest Hnz) as (sp & rest1 & Erest & Hsp & Hr1).
  subst rest. apply Forall_app in Hnz as [_ Hnz1].
  rewrite length_app in Hfuel, Hscan.
  rewrite <- (app_assoc sp rest1).
  rewrite (skip_spaces_spec sp scan_fuel pre (rest1 ++ replicate z 0) Hsp
             ltac:(lia) (stops_blanks_tail rest1 z Hz Hr1)).
  cbn [mbind option_bind].
  rewrite (app_assoc pre sp), <- length_app.
  rewrite lookup_at_ptr by exact Hz. cbn [mbind option_bind].
  destruct Hr1 as [->|(c & t & Erest1 & Hc)].
  { (* blanks up to the end of the string *)
    cbn [hd]. change (0 =? 0) with true. cbv iota.
    apply Hstop.
    - subst ws. rewrite words_blanks by exact Hsp.
      change (words []) with (@nil (list Z)). apply take_nil.
    - eexists. split; [rewrite <- !app_assoc; reflexivity|].
      rewrite (app_assoc sp), hd_app_zeros. reflexivity. }
  assert (Hcnz : c <> 0) by (subst rest1; apply Forall_inv in Hnz1; exact Hnz1).
  replace (hd 0 rest1 =? 0) with false by (subst rest1; cbn [hd]; lia).
  cbv iota. cbn [buffer argc argv].
  destruct (split_word rest1 Hnz1) as (w & rest2 & Ew & Hw & Hr2).
  assert (Hwne : w <> []).
  { intros ->. cbn [app] in Ew. rewrite Erest1 in Ew.
    destruct Hr2 as [E|(c' & t' & E & Hc')]; rewrite E in Ew;
      [discriminate|].
    injection Ew as -> ->. congruence. }
  clear Erest1 Hc Hcnz c t. subst rest1.
  apply Forall_app in Hnz1 as [Hwnz Hnz2].
  rewrite length_app in Hfuel, Hscan.
  rewrite <- (app_assoc w rest2).
  rewrite (skip_word_spec w scan_fuel (pre ++ sp) (rest2 ++ replicate z 0) Hw
             ltac:(lia) (stops_word_tail rest2 z Hz Hr2)).
  cbn [mbind option_bind].
  rewrite (app_assoc (pre ++ sp) w), <- length_app.
  rewrite lookup_at_ptr by exact Hz. cbn [mbind option_bind].
  rewrite sint32_small by lia. rewrite Nat2Z.id.
  replace (Z.of_nat kn + 1) with (Z.of_nat (S kn)) by lia.
  (* the words of the line from here on *)
  assert (Hwords : ws = w :: take (16 - S kn) (words (drop 1 rest2))).
  { subst ws. rewrite words_blanks by exact Hsp.
    replace (16 - kn)%nat with (S (16 - S kn)) by lia.
    destruct Hr2 as [->|(c' & t' & -> & Hc')].
    - rewrite app_nil_r, words_word_end by assumption. reflexivity.
    - rewrite words_word_blank by assumption. reflexivity. }
  (* the next iteration, on what follows the word *)
  set (av1 := <[kn := Some (length (pre ++ sp))]> av).
  assert (Hav1 : length av1 = 16%nat)
    by (unfold av1; rewrite length_insert; exact Hav).
  assert (Hnext : exists sep,
    (if negb (hd 0 rest2 =? 0)
     then parse_args fuel
            (ParsedCmd (Z.of_nat (S kn)) av1
               (<[length ((pre ++ sp) ++ w) := 0]>
                  (((pre ++ sp) ++ w) ++ rest2 ++ replicate z 0)))
            (S (length ((pre ++ sp) ++ w)))
     else parse_args fuel
            (ParsedCmd (Z.of_nat (S kn)) av1
               (((pre ++ sp) ++ w) ++ rest2 ++ replicate z 0))
            (length ((pre ++ sp) ++ w)))
    = parse_args fuel
        (ParsedCmd (Z.of_nat (S kn)) av1
           ((pre ++ sp ++ w ++ sep) ++ drop 1 rest2 ++ replicate z 0))
        (length (pre ++ sp ++ w ++ sep)) /\
    ((sep = [] /\ rest2 = []) \/ sep = [0])).
  { destruct Hr2 as [->|(c' & t' & -> & Hc')].
    - exists []. cbn [hd drop app]. change (negb (0 =? 0)) with false. cbv iota.
      rewrite !app_nil_r, <- !app_assoc. split; [reflexivity|by left].
    - exists [0]. cbn [hd drop]. rewrite drop_0.
      replace (negb (c' =? 0)) with true
        by (pose proof (isspace_nonzero c' Hc'); lia).
      cbv iota. cbn [app]. rewrite insert_at_length.
      split; [|by right]. f_equal.
      + f_equal. rewrite <- !app_assoc. reflexivity.
      + rewrite !length_app. cbn [length]. lia. }
  destruct Hnext as (sep & -> & Hsep).
  assert (Hnz3 : Forall (fun c => c <> 0) (drop 1 rest2))
    by (apply Forall_drop; exact Hnz2).
  assert (Hlen3 : (length (drop 1 rest2) <= length rest2)%nat)
    by (rewrite length_drop; lia).
  assert (Hwlen : (1 <= length w)%nat)
    by (destruct w; [done|cbn [length]; lia]).
  destruct (IH (drop 1 rest2) (S kn) av1 (pre ++ sp ++ w ++ sep) z Hnz3
              ltac:(lia) ltac:(lia) Hz ltac:(lia) Hav1)
    as (av' & B' & Eq & Hav' & Htake & Hhd & Hargs).
  cbv zeta in Eq. rewrite Eq. rewrite Hwords. cbn [length].
  exists av', (sp ++ w ++ sep ++ B').
  split; [|split; [exact Hav'|split; [|split]]].
  - f_equal. f_equal; [f_equal; lia|]. rewrite <- !app_assoc. reflexivity.
  - assert (Ht : take kn av' = take kn (take (S kn) av'))
      by (rewrite take_take; f_equal; lia).
    rewrite Ht, Htake, take_take.
    replace (kn `min` S kn)%nat with kn by lia.
    unfold av1. apply take_insert_ge. lia.
  - rewrite !(app_assoc sp w).
    assert (Hne : sp ++ w <> [])
      by (intros E; apply app_eq_nil in E as [_ ?]; done).
    rewrite (hd_app_ne _ (sep ++ B') Hne), (hd_app_ne _ rest2 Hne).
    reflexivity.
  - intros j w' Hj. destruct j as [|j].
    + injection Hj as <-. exists (length sp). split.
      * rewrite Nat.add_0_r.
        rewrite <- (lookup_take_lt av' (S kn) kn) by lia.
        rewrite Htake. rewrite lookup_take_lt by lia.
        unfold av1. rewrite list_lookup_insert_eq by lia.
        rewrite length_app. reflexivity.
      * rewrite drop_app_length.
        destruct Hsep as [[-> ->]| ->]; cbn [app].
        -- cbn [drop hd] in Hhd. destruct B' as [|b B'].
           ++ rewrite app_nil_r. apply c_string_id, Hwnz.
           ++ cbn [hd] in Hhd. subst b. apply c_string_app_nul, Hwnz.
        -- apply c_string_app_nul, Hwnz.
    + cbn [lookup list_lookup] in Hj.
      destruct (Hargs j w' Hj) as (o & Eo & Ecs).
      exists (length (sp ++ w ++ sep) + o)%nat. split.
      * replace (kn + S j)%nat with (S kn + j)%nat by lia.
        rewrite Eo. do 2 f_equal. rewrite !length_app. lia.
      * replace (sp ++ w ++ sep ++ B') with ((sp ++ w ++ sep) ++ B')
          by (rewrite <- !app_assoc; reflexivity).
        rewrite drop_app_add. exact Ecs.
Qed.

Lemma words_from_blanks_end sp : forall cur,
  Forall is_blank sp -> words_from cur sp = words_from cur [].
Proof.
  induction sp as [|c sp IH]; intros cur Hsp; [reflexivity|].
  apply Forall_cons in Hsp as [[_ Hc] Hsp]. cbn [words_from]. rewrite Hc.
  rewrite (IH [] Hsp). cbn [words_from].
  destruct (decide (cur = [])); destruct (decide (@nil Z = [])); done.
Qed.

Lemma words_trailing_blanks l sp :
  Forall is_blank sp -> words (l ++ sp) = words l.
Proof.
  intros Hsp. unfold words. generalize (@nil Z).
  induction l as [|c l IH]; intros cur.
  - apply words_from_blanks_end, Hsp.
  - cbn [app words_from]. rewrite !IH. reflexivity.
Qed.

(** The line as the parser sees it: the string up to its terminator, cut
    to the 255 characters the buffer has room for. *)
Lemma copied_line line :
  let len := if SHELL_MAX_CMD_LEN <=? strlen line then SHELL_MAX_CMD_LEN - 1
             else strlen line in
  let L := take 255 (c_string line) in
  Z.to_nat len = length L /\ take (Z.to_nat len) line = L /\
  (length L <= 255)%nat /\ (length L <= length line)%nat /\
  Forall (fun c => c <> 0) L.
Proof.
  intros len L. subst len L. rewrite strlen_c_string.
  pose proof (c_string_length_le line) as Hle.
  unfold SHELL_MAX_CMD_LEN. rewrite length_take.
  split; [|split; [|split; [lia|split; [lia|]]]].
  - destruct (256 <=? Z.of_nat (length (c_string line))) eqn:E; lia.
  - remember (length (c_string line)) as n eqn:En.
    rewrite <- (c_string_take line), <- En, take_take.
    f_equal. destruct (256 <=? Z.of_nat n) eqn:E; lia.
  - apply Forall_take, c_string_nul_free.
Qed.

Lemma bind_Some {A B : Type} (x : A) (f : A -> option B) :
  Some x ≫= f = f x.
Proof. reflexivity. Qed.

Lemma insert_terminator (l : list Z) n :
  <[length l := 0]> (l ++ replicate (S n) 0) = l ++ replicate (S n) 0.
Proof. cbn [replicate]. apply insert_at_length. Qed.

Lemma parser_parse_spec line cmd0 :
  let ws := take 16 (words (take 255 (c_string line))) in
  exists cmd',
    parser_parse (Some line) (Some cmd0) = Some (true, Some cmd') /\
    argc cmd' = Z.of_nat (length ws) /\
    (forall j w, ws !! j = Some w -> arg_string cmd' j = Some w) /\
    arg_vector cmd' = Some ws.
Proof.
  intros ws. unfold parser_parse.
  destruct (copied_line line) as (Elen & Etake & HL255 & HLline & HLnz).
  cbv zeta in Elen, Etake.
  set (L := take 255 (c_string line)) in *.
  set (len := if SHELL_MAX_CMD_LEN <=? strlen line then SHELL_MAX_CMD_LEN - 1
              else strlen line) in *.
  change (Z.to_nat SHELL_MAX_CMD_LEN) with 256%nat.
  rewrite memcpy_spec by (rewrite ?length_replicate; lia).
  rewrite bind_Some, Etake, Elen, drop_replicate.
  replace (256 - length L)%nat with (S (255 - length L)) by lia.
  rewrite insert_terminator.
  destruct (parser_trim_trailing_spec L (S (255 - length L)) HLnz ltac:(lia))
    as (l' & sp & EL & Hsp & Etrim).
  rewrite Etrim, bind_Some.
  assert (Hl' : (length l' <= 255)%nat)
    by (rewrite EL, length_app in HL255; lia).
  assert (Hnz' : Forall (fun c => c <> 0) l')
    by (rewrite EL in HLnz; apply Forall_app in HLnz as [? _]; done).
  destruct (parse_args_spec scan_fuel l' 0 (replicate 16 None) []
              (length sp + S (255 - length L))
              Hnz' ltac:(unfold scan_fuel; lia) ltac:(unfold scan_fuel; lia)
              ltac:(lia) ltac:(lia) ltac:(apply length_replicate))
    as (av' & B' & Eq & Hav' & _ & _ & Hargs).
  cbv zeta in Eq. cbn [app length] in Eq.
  change (Z.to_nat SHELL_MAX_ARGS) with 16%nat.
  change (Z.of_nat 0) with 0 in Eq.
  assert (Ews : take (16 - 0) (words l') = ws).
  { unfold ws. rewrite EL, words_trailing_blanks by exact Hsp. reflexivity. }
  rewrite Ews in Eq, Hargs. clear Ews.
  rewrite Eq, bind_Some.
  eexists. split; [reflexivity|]. cbn [argc].
  assert (Harg : forall j w, ws !! j = Some w ->
            arg_string (ParsedCmd (Z.of_nat (0 + length ws)) av' B') j = Some w).
  { intros j w Hj. destruct (Hargs j w Hj) as (o & Eo & Ecs).
    unfold arg_string. cbn [argv buffer]. cbn [Nat.add length] in Eo.
    rewrite Eo. cbn [mbind option_bind]. rewrite Ecs. reflexivity. }
  split; [f_equal; lia|]. split; [exact Harg|].
  unfold arg_vector. cbn [argc]. rewrite Nat2Z.id.
  apply mapM_Some_2, Forall2_same_length_lookup_2.
  - rewrite length_seq. reflexivity.
  - intros i x y Hx Hy. apply lookup_seq in Hx as [-> _]. apply Harg, Hy.
Qed.

(** The parser refines the word list: on any line and any output
    structure it succeeds, and the arguments it records are the first
    sixteen words of the first 255 characters of the line. *)
Lemma blank_line_has_no_words line :
  Forall (fun c => isspace c = true) line ->
  take 16 (words (take 255 (c_string line))) = [].
Proof.
  intros Hsp.
  assert (Hb : Forall is_blank line).
  { eapply Forall_impl; [exact Hsp|]. intros c Hc.
    split; [apply isspace_nonzero, Hc|exact Hc]. }
  rewrite c_string_id by (eapply Forall_impl; [exact Hb|]; by intros ? [? _]).
  rewrite <- (app_nil_r (take 255 line)).
  rewrite words_blanks by (apply Forall_take, Hb). reflexivity.
Qed.

(** C6.  The line ["  echo   hi  "] parses with success into the two
    arguments ["echo"] and ["hi"]; a line that consists of whitespace
    characters only, the empty line included, parses with success into no
    argument at all. *)
Theorem parse_example_and_blank_lines :
  (forall cmd0, exists cmd',
     parser_parse (Some (cstr "  echo   hi  ")) (Some cmd0)
     = Some (true, Some cmd') /\
     argc cmd' = 2 /\
     arg_vector cmd' = Some [cstr "echo"; cstr "hi"]) /\
  (forall line cmd0,
     Forall (fun c => isspace c = true) line ->
     exists cmd',
       parser_parse (Some line) (Some cmd0) = Some (true, Some cmd') /\
       argc cmd' = 0 /\
       arg_vector cmd' = Some []).
Proof.
  split.
  - intros cmd0.
    destruct (parser_parse_spec (cstr "  echo   hi  ") cmd0)
      as (cmd' & Eq & Ec & _ & Ev).
    exists cmd'. split; [exact Eq|]. split; [exact Ec|exact Ev].
  - intros line cmd0 Hsp.
    destruct (parser_parse_spec line cmd0) as (cmd' & Eq & Ec & _ & Ev).
    cbv zeta in Ec, Ev. rewrite blank_line_has_no_words in Ec, Ev by exact Hsp.
    exists cmd'. split; [exact Eq|]. split; [exact Ec|exact Ev].
Qed.

Lemma parse_example_and_blank_lines_witness :
  exists cmd',
    parser_parse (Some [32; 9; 32]) (Some (ParsedCmd 7 [] [])) = Some (true, Some cmd') /\
    argc cmd' = 0 /\ arg_vector cmd' = Some [].
Proof.
  apply (proj2 parse_example_and_blank_lines [32; 9; 32] (ParsedCmd 7 [] [])).
  repeat constructor.
Defined.

(** C7.  [parser_parse] always returns, and returns failure exactly when
    the line pointer or the structure pointer is NULL, leaving the structure
    as it was.  On any other pair it returns success whatever the line
    holds: the line is cut to the 255 characters that fit the buffer with
    its terminator and only the first sixteen words are recorded, so the
    argument count is between 0 and 16. *)
Theorem parser_parse_fails_only_on_null :
  (forall cmdline cmd, exists ok cmd',
     parser_parse cmdline cmd = Some (ok, cmd') /\
     (ok = false <-> cmdline = None \/ cmd = None) /\
     (ok = false -> cmd' = cmd)) /\
  (forall line cmd0, exists cmd',
     parser_parse (Some line) (Some cmd0) = Some (true, Some cmd') /\
     0 <= argc cmd' <= 16 /\
     argc cmd' = Z.of_nat (length (take 16 (words (take 255 (c_string line))))) /\
     arg_vector cmd' = Some (take 16 (words (take 255 (c_string line))))).
Proof.
  assert (Hsome : forall line cmd0, exists cmd',
     parser_parse (Some line) (Some cmd0) = Some (true, Some cmd') /\
     0 <= argc cmd' <= 16 /\
     argc cmd' = Z.of_nat (length (take 16 (words (take 255 (c_string line))))) /\
     arg_vector cmd' = Some (take 16 (words (take 255 (c_string line))))).
  { intros line cmd0.
    destruct (parser_parse_spec line cmd0) as (cmd' & Eq & Ec & _ & Ev).
    exists cmd'. split; [exact Eq|]. split; [|split; [exact Ec|exact Ev]].
    cbv zeta in Ec. rewrite Ec, length_take. lia. }
  split; [|exact Hsome].
  intros [line|] [cmd0|].
  - destruct (Hsome line cmd0) as (cmd' & Eq & _).
    exists true, (Some cmd'). split; [exact Eq|]. split; [|done].
    split; [done|]. intros [?|?]; done.
  - exists false, None. split; [reflexivity|]. split; [|done]. split; auto.
  - exists false, (Some cmd0). split; [reflexivity|]. split; [|done]. split; auto.
  - exists false, None. split; [reflexivity|]. split; [|done]. split; auto.
Qed.

Lemma parser_parse_fails_only_on_null_witness :
  exists ok cmd',
    parser_parse None (Some (ParsedCmd 3 [] [])) = Some (ok, cmd') /\
    (ok = false <-> None = @None (list Z) \/ Some (ParsedCmd 3 [] []) = None) /\
    (ok = false -> cmd' = Some (ParsedCmd 3 [] [])).
Proof.
  exact (proj1 parser_parse_fails_only_on_null None (Some (ParsedCmd 3 [] []))).
Defined.

End ParserFacts.

(** ** The dispatcher *)

Section ShellFacts.
Import Libc Vga Parser Printf Shell.

Lemma vga_print_cons c str s :
  c <> 0 -> vga_print (c :: str) s = vga_print str (vga_putchar c s).
Proof.
  intros Hc. cbn [vga_print]. replace (c =? 0) with false by lia. reflexivity.
Qed.

Lemma vga_print_app l1 : forall l2 s,
  Forall (fun c => c <> 0) l1 ->
  vga_print (l1 ++ l2) s = vga_print l2 (vga_print l1 s).
Proof.
  induction l1 as [|c l1 IH]; intros l2 s Hnz; [reflexivity|].
  apply Forall_cons in Hnz as [Hc Hnz]. cbn [app].
  rewrite !vga_print_cons by exact Hc. apply IH, Hnz.
Qed.

Lemma strlen_nonneg str : 0 <= strlen str.
Proof. rewrite strlen_c_string. lia. Qed.

(** [do_printf] on ordinary characters. *)
Lemma do_printf_literal lit : forall fuel rest args s,
  Forall (fun c => c <> 0 /\ c <> 37) lit ->
  do_printf (length lit + fuel) (lit ++ rest) args s
  = do_printf fuel rest args (vga_print lit s).
Proof.
  induction lit as [|c lit IH]; intros fuel rest args s Hlit;
    [reflexivity|].
  apply Forall_cons in Hlit as [[Hc0 Hc37] Hlit].
  cbn [length Nat.add app do_printf].
  replace (c =? 0) with false by lia. replace (c =? 37) with false by lia.
  cbn [negb]. rewrite IH by exact Hlit.
  rewrite vga_print_cons by exact Hc0. reflexivity.
Qed.

Lemma do_printf_end fuel args s : do_printf (S fuel) [] args s = Some s.
Proof. reflexivity. Qed.

Lemma print_string_plain str s :
  print_string (Some str) 0 false s = vga_print str s.
Proof.
  unfold print_string, put_spaces.
  change (default (cstr "(null)") (Some str)) with str. cbv zeta.
  replace (Z.to_nat (0 - strlen str)) with 0%nat
    by (pose proof (strlen_nonneg str); lia).
  reflexivity.
Qed.

Lemma do_printf_string fuel rest str args s :
  do_printf (S fuel) (37 :: 115 :: rest) (VaStr (Some str) :: args) s
  = do_printf fuel rest args (vga_print str s).
Proof.
  rewrite <- print_string_plain. reflexivity.
Qed.

Lemma literal_format (text : list Z) :
  bool_decide (Forall (fun c => c <> 0 /\ c <> 37) text) = true ->
  Forall (fun c => c <> 0 /\ c <> 37) text.
Proof. apply bool_decide_eq_true_1. Qed.

(** [kprintf] of a format without conversions prints it. *)
Lemma kprintf_literal lit args s :
  Forall (fun c => c <> 0 /\ c <> 37) lit ->
  kprintf lit args s = Some (vga_print lit s).
Proof.
  intros Hlit. unfold kprintf.
  rewrite <- (app_nil_r lit) at 2.
  replace (S (length lit)) with (length lit + 1)%nat by lia.
  rewrite do_printf_literal by exact Hlit.
  apply do_printf_end.
Qed.

(** The two messages of [shell_execute] for an unknown command. *)
Lemma kprintf_unknown_command arg0 s :
  Forall (fun c => c <> 0) arg0 ->
  kprintf (newline_fmt "Unknown command: %s") [VaStr (Some arg0)] s
  = Some (vga_println (cstr "Unknown command: " ++ arg0) s).
Proof.
  intros Hnz. unfold kprintf.
  change (newline_fmt "Unknown command: %s")
    with (cstr "Unknown command: " ++ [37; 115; 10]).
  change (S (length (cstr "Unknown command: " ++ [37; 115; 10])))
    with (length (cstr "Unknown command: ") + 4)%nat.
  rewrite do_printf_literal by (apply literal_format; reflexivity).
  rewrite do_printf_string.
  unfold vga_println.
  rewrite vga_print_app
    by (eapply Forall_impl;
        [apply (literal_format (cstr "Unknown command: ")); reflexivity|];
        by intros ? [? _]).
  reflexivity.
Qed.

Lemma kprintf_help_hint s :
  kprintf (newline_fmt "Type 'help' for available commands.") [] s
  = Some (vga_println (cstr "Type 'help' for available commands.") s).
Proof.
  rewrite kprintf_literal by (apply literal_format; reflexivity).
  unfold newline_fmt, vga_println.
  rewrite vga_print_app
    by (eapply Forall_impl;
        [apply (literal_format (cstr "Type 'help' for available commands."));
         reflexivity|];
        by intros ? [? _]).
  reflexivity.
Qed.

(** The characters of the words are characters of the line. *)
Lemma words_from_Forall (P : Z -> Prop) l : forall cur,
  Forall P cur -> Forall P l -> Forall (Forall P) (words_from cur l).
Proof.
  induction l as [|c l IH]; intros cur Hcur Hl; cbn [words_from].
  - destruct (decide (cur = [])); repeat constructor; exact Hcur.
  - apply Forall_cons in Hl as [Hc Hl].
    destruct (isspace c).
    + destruct (decide (cur = [])); [|constructor; [exact Hcur|]];
        apply IH; first [constructor|exact Hl].
    + apply IH; [|exact Hl]. apply Forall_app. split; [exact Hcur|].
      constructor; [exact Hc|constructor].
Qed.

Lemma parsed_words_are_c_strings line :
  Forall is_char line ->
  Forall is_c_string (take 16 (words (take 255 (c_string line)))).
Proof.
  intros Hline. apply Forall_take, words_from_Forall; [constructor|].
  apply Forall_take.
  pose proof (c_string_nul_free line) as Hnz.
  rewrite <- (c_string_take line) in Hnz |- *.
  apply Forall_and. split; [apply Forall_take, Hline|exact Hnz].
Qed.

(** [shell_find_command] returns the first entry whose name is the string
    looked for, and NULL when there is none. *)
Lemma shell_find_first nm commands : forall i e,
  Forall (fun e => is_c_string (name e)) commands -> is_c_string nm ->
  commands !! i = Some e -> name e = nm ->
  (forall j e', (j < i)%nat -> commands !! j = Some e' -> name e' <> nm) ->
  shell_find_command nm commands = Some e.
Proof.
  induction commands as [|e0 commands IH]; intros i e Hnames Hnm Hi He Hfirst;
    [by rewrite lookup_nil in Hi|].
  apply Forall_cons in Hnames as [Hn0 Hnames]. cbn [shell_find_command].
  destruct i as [|i].
  - injection Hi as ->.
    replace (strcmp (name e) nm =? 0) with true; [reflexivity|].
    apply eq_sym, Z.eqb_eq, strcmp_eq; assumption.
  - replace (strcmp (name e0) nm =? 0) with false.
    + apply (IH i e Hnames Hnm Hi He).
      intros j e' Hj. apply (Hfirst (S j) e'). lia.
    + apply eq_sym, Z.eqb_neq. rewrite strcmp_eq by assumption.
      apply (Hfirst 0%nat e0); [lia|reflexivity].
Qed.

Lemma shell_find_none nm commands :
  Forall (fun e => is_c_string (name e)) commands -> is_c_string nm ->
  (forall e, e ∈ commands -> name e <> nm) ->
  shell_find_command nm commands = None.
Proof.
  induction commands as [|e0 commands IH]; intros Hnames Hnm Hnone;
    [reflexivity|].
  apply Forall_cons in Hnames as [Hn0 Hnames]. cbn [shell_find_command].
  replace (strcmp (name e0) nm =? 0) with false.
  - apply IH; [exact Hnames|exact Hnm|].
    intros e He. apply Hnone. by right.
  - apply eq_sym, Z.eqb_neq. rewrite strcmp_eq by assumption.
    apply Hnone. by left.
Qed.

(** [shell_execute] in terms of the words of the line. *)
Lemma shell_execute_words commands line s :
  let args := take 16 (words (take 255 (c_string line))) in
  shell_execute commands (Some line) s
  = match args with
    | [] => Some s
    | arg0 :: _ =>
        match shell_find_command arg0 commands with
        | Some command => handler command (Z.of_nat (length args)) args s
        | None =>
            s1 ← kprintf (newline_fmt "Unknown command: %s")
                         [VaStr (Some arg0)] s;
            kprintf (newline_fmt "Type 'help' for available commands.") [] s1
        end
    end.
Proof.
  intros args. unfold shell_execute.
  destruct (parser_parse_spec line (ParsedCmd 0 [] []))
    as (cmd' & Eq & Ec & Harg & Ev).
  fold args in Ec, Harg, Ev.
  rewrite Eq, bind_Some. cbn [fst snd negb]. rewrite bind_Some, Ec.
  destruct args as [|arg0 rest] eqn:Eargs.
  - reflexivity.
  - assert (E : (Z.of_nat (length (arg0 :: rest)) =? 0) = false)
      by (apply Z.eqb_neq; rewrite length_cons; lia).
    rewrite E.
    rewrite (Harg 0%nat arg0 eq_refl), bind_Some.
    destruct (shell_find_command arg0 commands) as [command|]; [|reflexivity].
    rewrite Ev, bind_Some. reflexivity.
Qed.

(** C1.  [shell_execute] on a line parses it.  Without arguments it does
    nothing.  Otherwise the first entry of the command table whose name
    equals the first argument has its handler called with the argument
    count and the argument strings; when no entry has that name, the two
    messages are printed and the call returns.  With ["echo"] registered,
    ["echo hi there"] calls its handler with 3 and
    ["echo"], ["hi"], ["there"]. *)
Theorem shell_execute_dispatches (commands : list shell_command_t)
    (line : list Z) (s : vga_state) :
  Forall (fun e => is_c_string (name e)) commands -> Forall is_char line ->
  let args := take 16 (words (take 255 (c_string line))) in
  (exists cmd,
     parser_parse (Some line) (Some (ParsedCmd 0 [] [])) = Some (true, Some cmd) /\
     argc cmd = Z.of_nat (length args) /\ arg_vector cmd = Some args) /\
  (args = [] -> shell_execute commands (Some line) s = Some s) /\
  (forall arg0 rest i e,
     args = arg0 :: rest ->
     commands !! i = Some e -> name e = arg0 ->
     (forall j e', (j < i)%nat -> commands !! j = Some e' -> name e' <> arg0) ->
     shell_execute commands (Some line) s
     = handler e (Z.of_nat (length args)) args s) /\
  (forall arg0 rest,
     args = arg0 :: rest ->
     (forall e, e ∈ commands -> name e <> arg0) ->
     shell_execute commands (Some line) s
     = Some (vga_println (cstr "Type 'help' for available commands.")
               (vga_println (cstr "Unknown command: " ++ arg0) s))) /\
  (forall hlp h s',
     shell_execute (shell_register_command (cstr "echo") hlp h [])
                   (Some (cstr "echo hi there")) s'
     = h 3 [cstr "echo"; cstr "hi"; cstr "there"] s').
Proof.
  intros Hnames Hline args.
  pose proof (shell_execute_words commands line s) as Hex.
  cbv zeta in Hex. fold args in Hex.
  pose proof (parsed_words_are_c_strings line Hline) as Hargs. fold args in Hargs.
  split; [|split; [|split; [|split]]].
  - destruct (parser_parse_spec line (ParsedCmd 0 [] []))
      as (cmd' & Eq & Ec & _ & Ev).
    exists cmd'. done.
  - intros E. rewrite Hex, E. reflexivity.
  - intros arg0 rest i e E Hi He Hfirst. rewrite Hex. rewrite E in Hargs |- *.
    apply Forall_cons in Hargs as [Harg0 _].
    rewrite (shell_find_first arg0 commands i e Hnames Harg0 Hi He Hfirst).
    reflexivity.
  - intros arg0 rest E Hnone. rewrite Hex. rewrite E in Hargs |- *.
    apply Forall_cons in Hargs as [Harg0 _].
    rewrite (shell_find_none arg0 commands Hnames Harg0 Hnone).
    rewrite kprintf_unknown_command
      by (eapply Forall_impl; [exact Harg0|]; by intros ? [_ ?]).
    rewrite bind_Some. apply kprintf_help_hint.
  - intros hlp h s'.
    rewrite (shell_execute_words _ (cstr "echo hi there") s').
    reflexivity.
Qed.

Lemma shell_execute_dispatches_witness :
  shell_execute [ShellCommand (cstr "help") [] (fun _ _ s => Some s);
                 ShellCommand (cstr "echo") [] cmd_echo]
                (Some (cstr "echo  hi"))
                (VgaState (replicate 2000 0) 0 0 7 [])
  = cmd_echo 2 [cstr "echo"; cstr "hi"] (VgaState (replicate 2000 0) 0 0 7 []).
Proof.
  apply (proj1 (proj2 (proj2
           (shell_execute_dispatches
              [ShellCommand (cstr "help") [] (fun _ _ s => Some s);
               ShellCommand (cstr "echo") [] cmd_echo]
              (cstr "echo  hi") (VgaState (replicate 2000 0) 0 0 7 [])
              ltac:(repeat constructor; unfold is_char; cbn; lia)
              ltac:(repeat constructor; unfold is_char; cbn; lia))))
           (cstr "echo") [cstr "hi"] 1%nat
           (ShellCommand (cstr "echo") [] cmd_echo) eq_refl eq_refl eq_refl).
  intros j e' Hj He'. destruct j as [|j]; [|lia].
  injection He' as <-. discriminate.
Defined.

End ShellFacts.

(** * Further properties of the code

    Properties read off the sources, beyond those the specification
    states. *)

(** ** The console *)

Section VgaMore.
Import Libc Vga.

Arguments for_loop : simpl never.

Lemma update_cursor_buffer s : vga_buffer (vga_update_cursor s) = vga_buffer s.
Proof. reflexivity. Qed.
Lemma update_cursor_x s : cursor_x (vga_update_cursor s) = cursor_x s.
Proof. reflexivity. Qed.
Lemma update_cursor_y s : cursor_y (vga_update_cursor s) = cursor_y s.
Proof. reflexivity. Qed.
Lemma update_cursor_attr s : current_attr (vga_update_cursor s) = current_attr s.
Proof. reflexivity. Qed.

Ltac vga_proj :=
  rewrite ?update_cursor_buffer, ?update_cursor_x, ?update_cursor_y,
          ?update_cursor_attr;
  cbn [vga_buffer cursor_x cursor_y current_attr crt_log
       set_buffer set_x set_y set_attr].

Lemma vga_clear_state s :
  length (vga_buffer s) = 2000%nat ->
  vga_clear s
  = VgaState (replicate 2000 (vga_make_entry 32 (current_attr s))) 0 0
             (current_attr s) (crt_log s ++ cursor_sync 0 0).
Proof.
  intros Hlen. unfold vga_clear. cbv zeta.
  change (Z.to_nat (VGA_WIDTH * VGA_HEIGHT)) with 2000%nat.
  pose proof (fill_loop (vga_make_entry 32 (current_attr s)) 2000 0
                (vga_buffer s) ltac:(rewrite Hlen; lia) ltac:(lia)) as Hfill.
  change (Z.of_nat 0) with 0 in Hfill.
  rewrite take_0, (drop_ge _ (0 + 2000)) in Hfill by (rewrite Hlen; lia).
  rewrite app_nil_l, app_nil_r in Hfill. rewrite Hfill.
  rewrite vga_update_cursor_log
    by (unfold cursor_ok, VGA_WIDTH, VGA_HEIGHT; vga_proj; lia).
  reflexivity.
Qed.

(** X1.  Clearing the display fills all 2000 cells with blanks in the current
    attribute and puts the cursor in the top-left corner; the attribute is
    kept.  Clearing once more changes neither the cells, the cursor nor
    the attribute. *)
Theorem vga_clear_blanks_and_is_idempotent (s : vga_state) :
  length (vga_buffer s) = 2000%nat ->
  let s1 := vga_clear s in
  let s2 := vga_clear s1 in
  vga_buffer s1 = replicate 2000 (vga_make_entry 32 (current_attr s)) /\
  cursor_x s1 = 0 /\ cursor_y s1 = 0 /\ current_attr s1 = current_attr s /\
  vga_buffer s2 = vga_buffer s1 /\ cursor_x s2 = 0 /\ cursor_y s2 = 0 /\
  current_attr s2 = current_attr s1.
Proof.
  intros Hlen s1 s2. subst s2 s1.
  rewrite (vga_clear_state s Hlen).
  rewrite vga_clear_state by (vga_proj; apply length_replicate).
  vga_proj. repeat split.
Qed.

Lemma vga_clear_blanks_and_is_idempotent_witness :
  let s1 := vga_clear (VgaState numbered_rows 5 6 0x1E []) in
  let s2 := vga_clear s1 in
  vga_buffer s1 = replicate 2000 (vga_make_entry 32 0x1E) /\
  cursor_x s1 = 0 /\ cursor_y s1 = 0 /\ current_attr s1 = 0x1E /\
  vga_buffer s2 = vga_buffer s1 /\ cursor_x s2 = 0 /\ cursor_y s2 = 0 /\
  current_attr s2 = current_attr s1.
Proof.
  apply (vga_clear_blanks_and_is_idempotent (VgaState numbered_rows 5 6 0x1E [])).
  reflexivity.
Defined.

Lemma putchar_switch_visible c s :
  32 <= c ->
  putchar_switch c s
  = let offset := sint32 (sint32 (cursor_y s * VGA_WIDTH) + cursor_x s) in
    let s1 := set_buffer (<[Z.to_nat offset := vga_make_entry c (current_attr s)]>
                            (vga_buffer s)) s in
    let s2 := set_x (sint32 (cursor_x s1 + 1)) s1 in
    if VGA_WIDTH <=? cursor_x s2
    then set_y (sint32 (cursor_y s2 + 1)) (set_x 0 s2)
    else s2.
Proof.
  unfold putchar_switch. intros Hc.
  repeat (case_match; try lia); reflexivity.
Qed.

Lemma putchar_switch_frame c s :
  length (vga_buffer (putchar_switch c s)) = length (vga_buffer s) /\
  current_attr (putchar_switch c s) = current_attr s /\
  crt_log (putchar_switch c s) = crt_log s.
Proof.
  unfold putchar_switch.
  repeat case_match; vga_proj; rewrite ?length_insert; repeat split.
Qed.

(** A visible character written anywhere but in the last cell. *)
Lemma putchar_visible_step c s :
  cursor_ok s -> 32 <= c -> linear_pos s + 1 < 2000 ->
  vga_buffer (vga_putchar c s)
  = <[Z.to_nat (linear_pos s) := vga_make_entry c (current_attr s)]>
      (vga_buffer s) /\
  linear_pos (vga_putchar c s) = linear_pos s + 1 /\
  cursor_ok (vga_putchar c s) /\
  current_attr (vga_putchar c s) = current_attr s /\
  putchar_scrolls c s = false.
Proof.
  unfold cursor_ok, linear_pos, VGA_WIDTH, VGA_HEIGHT.
  intros [Hx Hy] Hc Hpos.
  unfold putchar_scrolls, vga_putchar.
  rewrite putchar_switch_visible by exact Hc.
  unfold VGA_WIDTH, VGA_HEIGHT. cbv zeta. vga_proj.
  rewrite !sint32_small by (rewrite ?sint32_small; lia).
  destruct (80 <=? cursor_x s + 1) eqn:E1; vga_proj.
  - rewrite ?sint32_small by lia.
    destruct (25 <=? cursor_y s + 1) eqn:E2; [lia|].
    repeat split; vga_proj; try reflexivity; lia.
  - destruct (25 <=? cursor_y s) eqn:E2; [lia|].
    repeat split; vga_proj; try reflexivity; lia.
Qed.

Lemma vga_print_putchars str : forall s,
  vga_print str s = putchars (c_string str) s.
Proof.
  induction str as [|c str IH]; intros s; [reflexivity|].
  cbn [vga_print c_string]. destruct (c =? 0); [reflexivity|].
  rewrite IH. reflexivity.
Qed.

Lemma visible_nul_free str :
  Forall (fun c => 32 <= c) str -> Forall (fun c => c <> 0) str.
Proof.
  intros H. eapply Forall_impl; [exact H|]. cbn. intros c Hc. lia.
Qed.

Lemma putchars_visible_run cs : forall s,
  cursor_ok s -> length (vga_buffer s) = 2000%nat ->
  Forall (fun c => 32 <= c) cs ->
  linear_pos s + Z.of_nat (length cs) < 2000 ->
  vga_buffer (putchars cs s)
  = take (Z.to_nat (linear_pos s)) (vga_buffer s)
    ++ ((fun c => vga_make_entry c (current_attr s)) <$> cs)
    ++ drop (Z.to_nat (linear_pos s) + length cs) (vga_buffer s) /\
  linear_pos (putchars cs s) = linear_pos s + Z.of_nat (length cs) /\
  cursor_ok (putchars cs s) /\
  current_attr (putchars cs s) = current_attr s /\
  scroll_count cs s = 0%nat.
Proof.
  induction cs as [|c cs IH]; intros s Hok Hlen Hcs Hroom.
  - unfold putchars. cbn [fold_left length fmap list_fmap app scroll_count].
    rewrite Nat.add_0_r, take_drop.
    split; [reflexivity|]. split; [lia|]. split; [exact Hok|]. done.
  - apply Forall_cons in Hcs as [Hc Hcs]. cbn [length] in Hroom.
    assert (Hp : 0 <= linear_pos s)
      by (unfold cursor_ok, linear_pos, VGA_WIDTH, VGA_HEIGHT in *; lia).
    destruct (putchar_visible_step c s Hok Hc ltac:(lia))
      as (Eb & Ep & Hok' & Ea & Es).
    specialize (IH (vga_putchar c s) Hok').
    rewrite Eb, Ep, Ea, length_insert in IH.
    specialize (IH Hlen Hcs ltac:(lia)).
    change (putchars (c :: cs) s) with (putchars cs (vga_putchar c s)).
    cbn [scroll_count]. rewrite Es.
    destruct IH as (IHb & IHp & IHok & IHa & IHs).
    rewrite IHb, IHp, IHa, IHs.
    split; [|split; [cbn [length]; lia|split; [exact IHok|done]]].
    replace (Z.to_nat (linear_pos s + 1)) with (S (Z.to_nat (linear_pos s)))
      by lia.
    set (p := Z.to_nat (linear_pos s)).
    rewrite (take_S_r _ p (vga_make_entry c (current_attr s)))
      by (apply list_lookup_insert_eq; lia).
    rewrite take_insert_ge, drop_insert_lt by lia.
    rewrite <- app_assoc. cbn [fmap list_fmap app length].
    replace (p + S (length cs))%nat with (S p + length cs)%nat by lia.
    reflexivity.
Qed.

(** X2.  Printing a string of visible characters, the [char] values from
    32 to 127, that fits before the end of the display stores them from the
    cursor on, cell by cell across line ends, and leaves the cursor behind
    the last one; nothing scrolls. *)
Theorem vga_print_stores_run (str : list Z) (s : vga_state) :
  cursor_ok s -> length (vga_buffer s) = 2000%nat ->
  Forall (fun c => 32 <= c <= 127) str ->
  linear_pos s + Z.of_nat (length str) < 2000 ->
  let s' := vga_print str s in
  vga_buffer s'
  = take (Z.to_nat (linear_pos s)) (vga_buffer s)
    ++ ((fun c => vga_make_entry c (current_attr s)) <$> str)
    ++ drop (Z.to_nat (linear_pos s) + length str) (vga_buffer s) /\
  cursor_x s' = (linear_pos s + Z.of_nat (length str)) `mod` 80 /\
  cursor_y s' = (linear_pos s + Z.of_nat (length str)) `div` 80 /\
  current_attr s' = current_attr s.
Proof.
  intros Hok Hlen Hchar Hroom s'. subst s'.
  assert (Hstr : Forall (fun c => 32 <= c) str).
  { eapply Forall_impl; [exact Hchar|]. cbn. intros c Hc. lia. }
  rewrite vga_print_putchars, c_string_id by (apply visible_nul_free, Hstr).
  destruct (putchars_visible_run str s Hok Hlen Hstr Hroom)
    as (Eb & Ep & Hok' & Ea & _).
  split; [exact Eb|]. split; [|split; [|exact Ea]];
    rewrite <- Ep; unfold cursor_ok, linear_pos, VGA_WIDTH, VGA_HEIGHT in *;
    Z.div_mod_to_equations; lia.
Qed.

Lemma vga_print_stores_run_witness :
  let s := VgaState (replicate 2000 0) 78 3 7 [] in
  let s' := vga_print [104; 105; 33] s in
  vga_buffer s'
  = take (Z.to_nat (linear_pos s)) (vga_buffer s)
    ++ ((fun c => vga_make_entry c (current_attr s)) <$> [104; 105; 33])
    ++ drop (Z.to_nat (linear_pos s) + 3) (vga_buffer s) /\
  cursor_x s' = (linear_pos s + 3) `mod` 80 /\
  cursor_y s' = (linear_pos s + 3) `div` 80 /\
  current_attr s' = current_attr s.
Proof.
  apply (vga_print_stores_run [104; 105; 33]
           (VgaState (replicate 2000 0) 78 3 7 [])).
  - unfold cursor_ok, VGA_WIDTH, VGA_HEIGHT. cbn. lia.
  - reflexivity.
  - repeat constructor; lia.
  - unfold linear_pos, VGA_WIDTH. cbn. lia.
Defined.


(** *** Backspace and the erase sequence *)

Lemma putchar_backspace s :
  cursor_ok s ->
  vga_buffer (vga_putchar 8 s) = vga_buffer s /\
  linear_pos (vga_putchar 8 s) = Z.max (linear_pos s - 1) 0 /\
  cursor_ok (vga_putchar 8 s) /\
  current_attr (vga_putchar 8 s) = current_attr s.
Proof.
  unfold cursor_ok, linear_pos, VGA_WIDTH, VGA_HEIGHT. intros [Hx Hy].
  unfold vga_putchar, putchar_switch.
  change (8 =? 10) with false. change (8 =? 13) with false.
  change (8 =? 9) with false. change (8 =? 8) with true. cbv iota zeta.
  unfold VGA_WIDTH, VGA_HEIGHT.
  destruct (0 <? cursor_x s) eqn:E1; vga_proj.
  - rewrite sint32_small by lia. vga_proj.
    destruct (25 <=? cursor_y s) eqn:E2; [lia|]. vga_proj.
    repeat split; try reflexivity; lia.
  - destruct (0 <? cursor_y s) eqn:E2; vga_proj.
    + rewrite sint32_small by lia.
      destruct (25 <=? cursor_y s - 1) eqn:E3; [lia|]. vga_proj.
      repeat split; try reflexivity; lia.
    + destruct (25 <=? cursor_y s) eqn:E3; [lia|]. vga_proj.
      repeat split; try reflexivity; lia.
Qed.

(** X3.  The erase sequence of the line editor, backspace, space, backspace:
    the cell before the cursor becomes a blank in the current attribute and
    the cursor ends on it, also across a line start; at the top-left corner
    the cell under the cursor is blanked and the cursor stays.  No other
    cell changes and nothing scrolls. *)
Theorem erase_sequence_blanks_previous_cell (s : vga_state) :
  cursor_ok s -> length (vga_buffer s) = 2000%nat ->
  let target := Z.max (linear_pos s - 1) 0 in
  let s' := putchars [8; 32; 8] s in
  vga_buffer s'
  = <[Z.to_nat target := vga_make_entry 32 (current_attr s)]> (vga_buffer s) /\
  linear_pos s' = target /\
  cursor_ok s' /\
  scroll_count [8; 32; 8] s = 0%nat.
Proof.
  intros Hok Hlen target s'. subst s'.
  assert (Hp : 0 <= linear_pos s < 2000)
    by (unfold cursor_ok, linear_pos, VGA_WIDTH, VGA_HEIGHT in *; lia).
  destruct (putchar_backspace s Hok) as (Eb1 & Ep1 & Hok1 & Ea1).
  fold target in Ep1.
  destruct (putchar_visible_step 32 (vga_putchar 8 s) Hok1 ltac:(lia)
              ltac:(lia)) as (Eb2 & Ep2 & Hok2 & Ea2 & Es2).
  destruct (putchar_backspace _ Hok2) as (Eb3 & Ep3 & Hok3 & Ea3).
  change (putchars [8; 32; 8] s)
    with (vga_putchar 8 (vga_putchar 32 (vga_putchar 8 s))).
  rewrite Eb3, Eb2, Ep3, Ep2, Eb1, Ep1, Ea1.
  split; [reflexivity|]. split; [lia|]. split; [exact Hok3|].
  cbn [scroll_count]. rewrite Es2.
  assert (Hs : forall t, cursor_ok t -> putchar_scrolls 8 t = false).
  { intros t Ht. unfold putchar_scrolls.
    destruct (vga_putchar_cursor 8 t) as [_ Ey].
    destruct (putchar_backspace t Ht) as (_ & _ & [_ Hy] & _).
    rewrite Ey in Hy. unfold VGA_HEIGHT in *.
    destruct (25 <=? cursor_y (putchar_switch 8 t)) eqn:E; [|reflexivity].
    pose proof (putchar_switch_bounds 8 t Ht) as [_ Hb].
    unfold putchar_switch in Hb, E |- *.
    change (8 =? 10) with false in *. change (8 =? 13) with false in *.
    change (8 =? 9) with false in *. change (8 =? 8) with true in *.
    cbv iota in *.
    unfold cursor_ok, VGA_WIDTH, VGA_HEIGHT in Ht.
    repeat case_match; cbn [cursor_y set_x set_y] in *;
      rewrite ?sint32_small in * by lia; lia. }
  rewrite (Hs s Hok), (Hs _ Hok2). reflexivity.
Qed.

Lemma erase_sequence_blanks_previous_cell_witness :
  let s := VgaState (replicate 2000 65) 0 5 7 [] in
  let s' := putchars [8; 32; 8] s in
  vga_buffer s'
  = <[Z.to_nat (Z.max (linear_pos s - 1) 0) := vga_make_entry 32 7]>
      (vga_buffer s) /\
  linear_pos s' = Z.max (linear_pos s - 1) 0 /\
  cursor_ok s' /\
  scroll_count [8; 32; 8] s = 0%nat.
Proof.
  apply (erase_sequence_blanks_previous_cell
           (VgaState (replicate 2000 65) 0 5 7 [])).
  - unfold cursor_ok, VGA_WIDTH, VGA_HEIGHT. cbn. lia.
  - reflexivity.
Defined.

(** *** Tabs *)

Lemma vga_putchar_buffer c s :
  vga_buffer (vga_putchar c s)
  = if VGA_HEIGHT <=? cursor_y (putchar_switch c s)
    then vga_buffer (vga_scroll (putchar_switch c s))
    else vga_buffer (putchar_switch c s).
Proof.
  unfold vga_putchar. cbv zeta. rewrite update_cursor_buffer.
  destruct (VGA_HEIGHT <=? cursor_y (putchar_switch c s)); reflexivity.
Qed.

Lemma putchar_switch_tab s :
  0 <= cursor_x s < 80 -> 0 <= cursor_y s < 25 ->
  putchar_switch 9 s
  = if cursor_x s <? 72
    then set_x (8 * (cursor_x s `div` 8 + 1)) s
    else set_y (cursor_y s + 1)
           (set_x 0 (set_x (8 * (cursor_x s `div` 8 + 1)) s)).
Proof.
  intros Hx Hy. unfold putchar_switch.
  change (9 =? 10) with false. change (9 =? 13) with false.
  change (9 =? 9) with true. cbv iota zeta. unfold VGA_WIDTH.
  cbn [cursor_x cursor_y set_x].
  rewrite land_lnot_7, (sint32_small (cursor_x s + 8)) by lia.
  replace ((cursor_x s + 8) `div` 8) with (cursor_x s `div` 8 + 1)
    by (Z.div_mod_to_equations; lia).
  rewrite (sint32_small (cursor_y s + 1)) by lia.
  destruct (cursor_x s <? 72) eqn:E;
    destruct (80 <=? 8 * (cursor_x s `div` 8 + 1)) eqn:E';
    first [reflexivity | exfalso; Z.div_mod_to_equations; lia].
Qed.

(** X4.  A tab moves the cursor to the next multiple of eight on the same row,
    at most eight columns on; from the last eight columns it goes to column
    0 of the next row instead, which on the last row scrolls the display.
    A tab stores nothing. *)
Theorem tab_moves_to_next_stop (s : vga_state) :
  cursor_ok s -> length (vga_buffer s) = 2000%nat ->
  let s' := vga_putchar 9 s in
  (cursor_x s < 72 ->
     cursor_x s' = 8 * (cursor_x s `div` 8 + 1) /\
     cursor_x s < cursor_x s' <= cursor_x s + 8 /\
     cursor_y s' = cursor_y s /\
     vga_buffer s' = vga_buffer s) /\
  (72 <= cursor_x s ->
     cursor_x s' = 0 /\
     (cursor_y s < 24 ->
        cursor_y s' = cursor_y s + 1 /\ vga_buffer s' = vga_buffer s) /\
     (cursor_y s = 24 ->
        cursor_y s' = 24 /\
        vga_buffer s'
        = drop 80 (vga_buffer s) ++ blank_row (current_attr s))).
Proof.
  intros Hok Hlen s'. subst s'.
  destruct Hok as [Hx Hy]. unfold VGA_WIDTH, VGA_HEIGHT in Hx, Hy.
  destruct (vga_putchar_cursor 9 s) as [Ex Ey].
  rewrite Ex, Ey, vga_putchar_buffer, (putchar_switch_tab s Hx Hy).
  unfold VGA_HEIGHT.
  destruct (cursor_x s <? 72) eqn:E; cbn [cursor_x cursor_y set_x set_y].
  - split; [|intros; lia]. intros _.
    replace (25 <=? cursor_y s) with false by lia.
    split; [reflexivity|]. split; [Z.div_mod_to_equations; lia|].
    split; reflexivity.
  - split; [intros; lia|]. intros _. split; [reflexivity|].
    split; intros Hrow.
    + replace (25 <=? cursor_y s + 1) with false by lia.
      split; reflexivity.
    + replace (25 <=? cursor_y s + 1) with true by lia.
      split; [reflexivity|].
      rewrite vga_scroll_buffer by exact Hlen. reflexivity.
Qed.

Lemma tab_moves_to_next_stop_witness :
  let s := VgaState (replicate 2000 0) 75 24 7 [] in
  let s' := vga_putchar 9 s in
  cursor_x s' = 0 /\
  (cursor_y s < 24 ->
     cursor_y s' = cursor_y s + 1 /\ vga_buffer s' = vga_buffer s) /\
  (cursor_y s = 24 ->
     cursor_y s' = 24 /\
     vga_buffer s' = drop 80 (vga_buffer s) ++ blank_row (current_attr s)).
Proof.
  apply (proj2 (tab_moves_to_next_stop (VgaState (replicate 2000 0) 75 24 7 [])
                  ltac:(unfold cursor_ok, VGA_WIDTH, VGA_HEIGHT; cbn; lia)
                  eq_refl)).
  cbn. lia.
Defined.


(** *** Scrolling *)

(** X5.  [vga_scroll] on a full-size display: every cell of the first 24 rows
    takes the value of the cell one row below, the last row becomes blanks
    in the current attribute, the size stays, and neither the cursor, the
    attribute nor the controller is touched. *)
Theorem vga_scroll_moves_rows_up (s : vga_state) :
  length (vga_buffer s) = 2000%nat ->
  let s' := vga_scroll s in
  length (vga_buffer s') = 2000%nat /\
  (forall i, 0 <= i < 1920 ->
     cell (vga_buffer s') i = cell (vga_buffer s) (i + 80)) /\
  (forall i, 1920 <= i < 2000 ->
     cell (vga_buffer s') i = vga_make_entry 32 (current_attr s)) /\
  cursor_x s' = cursor_x s /\ cursor_y s' = cursor_y s /\
  current_attr s' = current_attr s /\ crt_log s' = crt_log s.
Proof.
  intros Hlen s'. subst s'. rewrite (vga_scroll_buffer s Hlen).
  unfold blank_row, cell.
  split; [rewrite length_app, length_drop, length_replicate; lia|].
  split; [|split].
  - intros i Hi.
    rewrite lookup_app_l by (rewrite length_drop; lia).
    rewrite lookup_drop. do 2 f_equal. lia.
  - intros i Hi.
    rewrite lookup_app_r by (rewrite length_drop; lia).
    rewrite length_drop, Hlen.
    rewrite lookup_replicate_2 by lia. reflexivity.
  - destruct (vga_scroll_fields s) as (Ex & Ey & Ea).
    repeat split; assumption.
Qed.

Lemma vga_scroll_moves_rows_up_witness :
  let s := VgaState numbered_rows 3 4 7 [] in
  let s' := vga_scroll s in
  length (vga_buffer s') = 2000%nat /\
  (forall i, 0 <= i < 1920 ->
     cell (vga_buffer s') i = cell (vga_buffer s) (i + 80)) /\
  (forall i, 1920 <= i < 2000 ->
     cell (vga_buffer s') i = vga_make_entry 32 (current_attr s)) /\
  cursor_x s' = cursor_x s /\ cursor_y s' = cursor_y s /\
  current_attr s' = current_attr s /\ crt_log s' = crt_log s.
Proof.
  apply (vga_scroll_moves_rows_up (VgaState numbered_rows 3 4 7 [])).
  reflexivity.
Defined.


(** *** Cells and attributes *)

Lemma forall_below2 (n m : nat) (P : Z -> Z -> Prop)
    `{!forall a b, Decision (P a b)} :
  bool_decide (Forall (fun a => Forall (P a) (Z.of_nat <$> seq 0 m))
                      (Z.of_nat <$> seq 0 n)) = true ->
  forall a b, 0 <= a < Z.of_nat n -> 0 <= b < Z.of_nat m -> P a b.
Proof.
  intros Hb a b Ha Hb'.
  pose proof (forall_below n (fun a => Forall (P a) (Z.of_nat <$> seq 0 m))
                Hb a Ha) as HF.
  rewrite Forall_forall in HF. apply HF.
  apply list_elem_of_fmap. exists (Z.to_nat b). split; [lia|].
  apply elem_of_seq. lia.
Qed.

Lemma make_attr_value fg bg :
  0 <= fg < 16 -> 0 <= bg < 16 -> vga_make_attr fg bg = bg * 16 + fg.
Proof.
  apply (@forall_below2 16 16
           (fun fg bg => vga_make_attr fg bg = bg * 16 + fg)
           (fun _ _ => Z.eq_dec _ _)).
  vm_compute. reflexivity.
Qed.

Lemma vga_putchar_attr c s : current_attr (vga_putchar c s) = current_attr s.
Proof.
  unfold vga_putchar. cbv zeta. rewrite update_cursor_attr.
  destruct (VGA_HEIGHT <=? cursor_y (putchar_switch c s)).
  - cbn [current_attr set_y].
    rewrite (proj1 (proj2 (proj2 (vga_scroll_fields _)))).
    apply putchar_switch_frame.
  - apply putchar_switch_frame.
Qed.

Lemma vga_print_attr str : forall s,
  current_attr (vga_print str s) = current_attr s.
Proof.
  induction str as [|c str IH]; intros s; [reflexivity|].
  cbn [vga_print]. destruct (c =? 0); [reflexivity|].
  rewrite IH. apply vga_putchar_attr.
Qed.

(** X6.  A cell packs the character into its low byte and the attribute into
    its high byte, and an attribute packs the foreground colour into its
    low and the background colour into its high four bits.  A character
    with the top bit set, negative as a [char], sets every bit of the high
    byte whatever the attribute. *)
Theorem entry_packs_character_and_colours :
  (forall fg bg, 0 <= fg < 16 -> 0 <= bg < 16 ->
     vga_make_attr fg bg = bg * 16 + fg) /\
  (forall c attr, 0 <= c < 128 -> 0 <= attr < 256 ->
     vga_make_entry c attr = attr * 256 + c) /\
  (forall c attr, -128 <= c < 0 -> 0 <= attr < 256 ->
     vga_make_entry c attr = 255 * 256 + (c + 256)).
Proof.
  split; [|split].
  - exact make_attr_value.
  - apply (@forall_below2 128 256
             (fun c attr => vga_make_entry c attr = attr * 256 + c)
             (fun _ _ => Z.eq_dec _ _)).
    vm_compute. reflexivity.
  - intros c attr Hc Hattr.
    replace c with ((c + 128) - 128) by lia.
    apply (@forall_below2 128 256
             (fun c' attr => vga_make_entry (c' - 128) attr
                             = 255 * 256 + (c' - 128 + 256))
             (fun _ _ => Z.eq_dec _ _));
      [vm_compute; reflexivity | lia | exact Hattr].
Qed.

Lemma entry_packs_character_and_colours_witness :
  vga_make_attr 10 1 = 1 * 16 + 10 /\
  vga_make_entry 65 7 = 7 * 256 + 65 /\
  vga_make_entry (-27) 7 = 255 * 256 + (-27 + 256).
Proof.
  destruct entry_packs_character_and_colours as (Ha & He & Hn).
  split; [apply Ha; lia|]. split; [apply He; lia | apply Hn; lia].
Defined.

(** *** The hardware cursor *)

(** X7.  Every [vga_putchar] ends by writing the cursor position it leaves to
    the controller: register 0x0F receives the low and register 0x0E the
    high byte of [cursor_y * 80 + cursor_x]. *)
Theorem putchar_reports_cursor_position (c : Z) (s : vga_state) :
  cursor_ok s ->
  let s' := vga_putchar c s in
  exists lo hi,
    crt_log s' = crt_log s ++ [(0x3D4, 0x0F); (0x3D5, lo); (0x3D4, 0x0E); (0x3D5, hi)] /\
    0 <= lo < 256 /\ 0 <= hi < 256 /\
    hi * 256 + lo = linear_pos s'.
Proof.
  intros Hok s'.
  pose proof (vga_putchar_cursor_ok c s Hok) as Hok'. fold s' in Hok'.
  exists (linear_pos s' `mod` 256), (linear_pos s' `div` 256).
  assert (Hp : 0 <= linear_pos s' < 2000)
    by (unfold cursor_ok, linear_pos, VGA_WIDTH, VGA_HEIGHT in *; lia).
  split; [|Z.div_mod_to_equations; lia].
  subst s'. unfold vga_putchar at 1. cbv zeta.
  set (s2 := if VGA_HEIGHT <=? cursor_y (putchar_switch c s)
             then set_y (VGA_HEIGHT - 1) (vga_scroll (putchar_switch c s))
             else putchar_switch c s).
  assert (E2 : vga_putchar c s = vga_update_cursor s2) by reflexivity.
  assert (Hok2 : cursor_ok s2).
  { rewrite E2 in Hok'. unfold cursor_ok in *.
    rewrite update_cursor_x, update_cursor_y in Hok'. exact Hok'. }
  assert (Elog : crt_log s2 = crt_log s).
  { unfold s2. destruct (VGA_HEIGHT <=? cursor_y (putchar_switch c s)).
    - cbn [crt_log set_y].
      rewrite (proj2 (proj2 (proj2 (vga_scroll_fields _)))).
      unfold putchar_switch. repeat case_match; reflexivity.
    - unfold putchar_switch. repeat case_match; reflexivity. }
  rewrite (vga_update_cursor_log s2 Hok2). cbn [crt_log]. rewrite Elog.
  unfold cursor_sync, linear_pos, VGA_WIDTH. rewrite E2.
  rewrite update_cursor_x, update_cursor_y. reflexivity.
Qed.

Lemma putchar_reports_cursor_position_witness :
  exists lo hi,
    crt_log (vga_putchar 65 (VgaState (replicate 2000 0) 79 24 7 []))
    = [] ++ [(0x3D4, 0x0F); (0x3D5, lo); (0x3D4, 0x0E); (0x3D5, hi)] /\
    0 <= lo < 256 /\ 0 <= hi < 256 /\
    hi * 256 + lo
    = linear_pos (vga_putchar 65 (VgaState (replicate 2000 0) 79 24 7 [])).
Proof.
  apply (putchar_reports_cursor_position 65
           (VgaState (replicate 2000 0) 79 24 7 [])).
  unfold cursor_ok, VGA_WIDTH, VGA_HEIGHT. cbn. lia.
Defined.

(** *** Initialisation *)

(** X8.  [vga_init] brings a display of any content, cursor and colour to one
    state: blanks in light gray on black everywhere, the cursor in the
    top-left corner, reported to the controller, and the cursor shape set
    to scanlines 14 to 15. *)
Theorem vga_init_resets_display (s : vga_state) :
  length (vga_buffer s) = 2000%nat ->
  vga_init s
  = VgaState (replicate 2000 0x0720) 0 0 0x07
      (crt_log s
       ++ [(0x3D4, 0x0F); (0x3D5, 0); (0x3D4, 0x0E); (0x3D5, 0)]
       ++ [(0x3D4, 0x0A); (0x3D5, 0x0E); (0x3D4, 0x0B); (0x3D5, 0x0F)]).
Proof.
  intros Hlen. unfold vga_init.
  rewrite vga_clear_state by exact Hlen.
  unfold vga_cursor_enable, outb.
  cbn [vga_buffer cursor_x cursor_y current_attr crt_log set_attr].
  rewrite <- !app_assoc. reflexivity.
Qed.

Lemma vga_init_resets_display_witness :
  vga_init (VgaState numbered_rows 5 6 0x4F [(1, 2)])
  = VgaState (replicate 2000 0x0720) 0 0 0x07
      ([(1, 2)]
       ++ [(0x3D4, 0x0F); (0x3D5, 0); (0x3D4, 0x0E); (0x3D5, 0)]
       ++ [(0x3D4, 0x0A); (0x3D5, 0x0E); (0x3D4, 0x0B); (0x3D5, 0x0F)]).
Proof.
  apply (vga_init_resets_display (VgaState numbered_rows 5 6 0x4F [(1, 2)])).
  reflexivity.
Defined.

End VgaMore.

(** ** The keyboard decoder *)

Section KeyboardMore.
Import Keyboard.

(** X9.  What a call of the decoder can return: no key, a code from 1 to 126
    taken from a table or folded by ctrl, or [KEY_SPECIAL] combined with
    one of the scancodes 0x3B to 0x58.  A call that returns a key leaves
    the three flags as they were. *)
Theorem decoder_result_classes (hw : ports) (m : modifiers) :
  let r := keyboard_getchar_nonblock hw m in
  (fst r = KEY_NONE \/ 1 <= fst r <= 126 \/
   exists sc, 0x3B <= sc <= 0x58 /\ fst r = KEY_SPECIAL + sc /\
              keyboard_read_scancode hw = sc) /\
  (fst r <> KEY_NONE -> snd r = m).
Proof.
  unfold keyboard_getchar_nonblock.
  pose proof (read_scancode_range hw) as Hr.
  revert Hr. generalize (keyboard_read_scancode hw). intros raw Hr. cbv zeta.
  assert (H : (fst (decode raw m) = KEY_NONE \/ 1 <= fst (decode raw m) <= 126 \/
               (0x3B <= raw <= 0x58 /\ fst (decode raw m) = KEY_SPECIAL + raw)) /\
              (fst (decode raw m) <> KEY_NONE -> snd (decode raw m) = m)).
  { revert raw m Hr.
    apply (forall_raw_modifiers
      (fun raw m =>
         (fst (decode raw m) = KEY_NONE \/ 1 <= fst (decode raw m) <= 126 \/
          (0x3B <= raw <= 0x58 /\ fst (decode raw m) = KEY_SPECIAL + raw)) /\
         (fst (decode raw m) <> KEY_NONE -> snd (decode raw m) = m))).
    vm_compute. reflexivity. }
  destruct H as [[H|[H|[H1 H2]]] H']; (split; [|exact H']).
  - left. exact H.
  - right. left. exact H.
  - right. right. exists raw. split; [exact H1|]. split; [exact H2|reflexivity].
Qed.

(** X10.  The second [switch] comes before the tables: a make code it lists
    yields its [KEY_SPECIAL] code whatever the flags, so the keypad
    characters the tables hold at those codes are never returned. *)
Theorem special_keys_shadow_tables (hw : ports) (m : modifiers) (k : Z) :
  special_key (keyboard_read_scancode hw) = Some k ->
  keyboard_getchar_nonblock hw m = (k, m) /\
  k = KEY_SPECIAL + keyboard_read_scancode hw /\
  k <> table_at scancode_to_ascii_lower (keyboard_read_scancode hw) /\
  k <> table_at scancode_to_ascii_upper (keyboard_read_scancode hw).
Proof.
  unfold keyboard_getchar_nonblock.
  pose proof (read_scancode_range hw) as Hr.
  revert Hr. generalize (keyboard_read_scancode hw). intros raw Hr Hk.
  assert (H : special_key raw = None \/
       (special_key raw = Some (KEY_SPECIAL + raw) /\
        decode raw m = (KEY_SPECIAL + raw, m) /\
        KEY_SPECIAL + raw <> table_at scancode_to_ascii_lower raw /\
        KEY_SPECIAL + raw <> table_at scancode_to_ascii_upper raw)).
  { clear Hk. revert raw m Hr.
    apply (forall_raw_modifiers
      (fun raw m =>
         special_key raw = None \/
         (special_key raw = Some (KEY_SPECIAL + raw) /\
          decode raw m = (KEY_SPECIAL + raw, m) /\
          KEY_SPECIAL + raw <> table_at scancode_to_ascii_lower raw /\
          KEY_SPECIAL + raw <> table_at scancode_to_ascii_upper raw))).
    vm_compute. reflexivity. }
  destruct H as [H|(H1 & H2 & H3 & H4)].
  - congruence.
  - assert (k = KEY_SPECIAL + raw) by congruence. subst k.
    repeat split; assumption.
Qed.


Lemma decode_none_independent raw m1 m2 :
  0 <= raw < 256 ->
  fst (decode raw m1) = KEY_NONE -> fst (decode raw m2) = KEY_NONE.
Proof.
  intros Hr. revert m2.
  assert (H : Forall (fun m2 => fst (decode raw m1) = KEY_NONE ->
                                fst (decode raw m2) = KEY_NONE) all_modifiers).
  { revert raw m1 Hr.
    apply (forall_raw_modifiers
      (fun raw m1 => Forall (fun m2 => fst (decode raw m1) = KEY_NONE ->
                                       fst (decode raw m2) = KEY_NONE)
                            all_modifiers)).
    vm_compute. reflexivity. }
  intros m2. rewrite Forall_forall in H. apply H, all_modifiers_complete.
Qed.

(** X11.  Whether a byte yields a key does not depend on the flags: shift and
    ctrl change which key it is, never whether there is one.  The alt
    flag is recorded but changes nothing of what a call returns. *)
Theorem flags_never_gate_a_key (hw : ports) (m1 m2 : modifiers) (b : bool) :
  (fst (keyboard_getchar_nonblock hw m1) = KEY_NONE <->
   fst (keyboard_getchar_nonblock hw m2) = KEY_NONE) /\
  fst (keyboard_getchar_nonblock hw (set_alt b m1))
  = fst (keyboard_getchar_nonblock hw m1).
Proof.
  unfold keyboard_getchar_nonblock.
  pose proof (read_scancode_range hw) as Hr.
  revert Hr. generalize (keyboard_read_scancode hw). intros raw Hr.
  split; [split; apply decode_none_independent, Hr|].
  assert (H : Forall (fun b => fst (decode raw (set_alt b m1))
                               = fst (decode raw m1)) [true; false]).
  { revert raw m1 Hr.
    apply (forall_raw_modifiers
      (fun raw m1 => Forall (fun b => fst (decode raw (set_alt b m1))
                                      = fst (decode raw m1)) [true; false])).
    vm_compute. reflexivity. }
  apply Forall_cons in H as [Htrue H]. apply Forall_cons in H as [Hfalse _].
  destruct b; assumption.
Qed.

Lemma decode_key_keeps_flags raw m :
  0 <= raw < 256 -> fst (decode raw m) <> KEY_NONE -> snd (decode raw m) = m.
Proof.
  intros Hr. revert raw m Hr.
  apply (forall_raw_modifiers
    (fun raw m => fst (decode raw m) <> KEY_NONE -> snd (decode raw m) = m)).
  vm_compute. reflexivity.
Qed.

Lemma nonblock_none_independent hw m1 m2 :
  fst (keyboard_getchar_nonblock hw m1) = KEY_NONE ->
  fst (keyboard_getchar_nonblock hw m2) = KEY_NONE.
Proof.
  unfold keyboard_getchar_nonblock.
  apply decode_none_independent, read_scancode_range.
Qed.

(** What a blocking read that returns has done: it consumed polls that
    yield [KEY_NONE] and then one that yields the key returned. *)
Lemma keyboard_getchar_inv polls : forall m c m' rest,
  keyboard_getchar polls m = Some (c, m', rest) ->
  c <> KEY_NONE /\
  exists idle hw,
    polls = idle ++ hw :: rest /\
    Forall (fun p => fst (keyboard_getchar_nonblock p m) = KEY_NONE) idle /\
    c = fst (keyboard_getchar_nonblock hw (flags_after idle m)) /\
    m' = flags_after idle m.
Proof.
  induction polls as [|hw0 polls IH]; intros m c m' rest H; [discriminate|].
  cbn [keyboard_getchar] in H.
  destruct (keyboard_getchar_nonblock hw0 m) as [c0 m1] eqn:E.
  destruct (c0 =? KEY_NONE) eqn:Ec.
  - destruct (IH _ _ _ _ H) as (Hc & idle & hw & -> & Hidle & Ecc & Em).
    split; [exact Hc|]. exists (hw0 :: idle), hw.
    split; [reflexivity|]. split.
    + apply Forall_cons. split; [rewrite E; cbn [fst]; lia|].
      eapply Forall_impl; [exact Hidle|]. intros q.
      apply nonblock_none_independent.
    + unfold flags_after. cbn [fold_left]. rewrite E. cbn [snd].
      split; [exact Ecc|exact Em].
  - injection H as -> -> ->. split; [lia|].
    exists [], hw0. split; [reflexivity|]. split; [constructor|].
    unfold flags_after. cbn [fold_left]. rewrite E. cbn [fst].
    split; [reflexivity|].
    pose proof (decode_key_keeps_flags (keyboard_read_scancode hw0) m
                  (read_scancode_range hw0)) as Hk.
    unfold keyboard_getchar_nonblock in E. rewrite E in Hk.
    apply Hk. cbn [fst]. lia.
Qed.

(** X12.  The blocking read polls until a call of the decoder yields a
    key and returns that first key: the polls before it, which yield
    [KEY_NONE], are consumed and their changes to the modifier flags take
    effect on the key; the polls after it are left.  While every poll
    yields [KEY_NONE] it keeps waiting.  It never returns [KEY_NONE], and
    whatever it returns it has returned in this way. *)
Theorem keyboard_getchar_returns_the_first_key
    (idle : list ports) (hw : ports) (rest : list ports) (m : modifiers) :
  (Forall (fun p => fst (keyboard_getchar_nonblock p m) = KEY_NONE) idle ->
   let m0 := flags_after idle m in
   keyboard_getchar idle m = None /\
   (fst (keyboard_getchar_nonblock hw m) <> KEY_NONE ->
    keyboard_getchar (idle ++ hw :: rest) m
    = Some (fst (keyboard_getchar_nonblock hw m0), m0, rest) /\
    fst (keyboard_getchar_nonblock hw m0) <> KEY_NONE)) /\
  (forall polls c m' rest',
     keyboard_getchar polls m = Some (c, m', rest') ->
     c <> KEY_NONE /\
     exists idle' hw',
       polls = idle' ++ hw' :: rest' /\
       Forall (fun p => fst (keyboard_getchar_nonblock p m) = KEY_NONE) idle' /\
       c = fst (keyboard_getchar_nonblock hw' (flags_after idle' m)) /\
       m' = flags_after idle' m).
Proof.
  split; [|intros polls; apply keyboard_getchar_inv].
  revert m. induction idle as [|p idle IH]; intros m Hidle m0; subst m0.
  - split; [reflexivity|]. intros Hkey. split; [|exact Hkey].
    unfold flags_after. cbn [app fold_left keyboard_getchar].
    destruct (keyboard_getchar_nonblock hw m) as [c m'] eqn:E.
    cbn [fst] in Hkey |- *.
    replace (c =? KEY_NONE) with false by lia.
    assert (Em : m' = m).
    { pose proof (decode_key_keeps_flags (keyboard_read_scancode hw) m
                    (read_scancode_range hw)) as Hk.
      unfold keyboard_getchar_nonblock in E. rewrite E in Hk.
      exact (Hk Hkey). }
    rewrite Em. reflexivity.
  - apply Forall_cons in Hidle as [Hp Hidle].
    unfold flags_after. cbn [app fold_left keyboard_getchar].
    fold (flags_after idle (snd (keyboard_getchar_nonblock p m))).
    destruct (keyboard_getchar_nonblock p m) as [c0 m1] eqn:E.
    cbn [fst snd] in Hp |- *. rewrite Hp.
    change (KEY_NONE =? KEY_NONE) with true. cbv iota.
    assert (Hidle1 : Forall (fun q => fst (keyboard_getchar_nonblock q m1)
                                      = KEY_NONE) idle).
    { eapply Forall_impl; [exact Hidle|]. intros q.
      apply nonblock_none_independent. }
    destruct (IH m1 Hidle1) as [Hnone Hsome].
    split; [exact Hnone|]. intros Hkey. apply Hsome.
    intros H0. apply Hkey. revert H0. apply nonblock_none_independent.
Qed.

Lemma keyboard_getchar_returns_the_first_key_witness :
  keyboard_getchar [pending 0x2A; pending 0x9E] (Modifiers false false false)
  = None /\
  keyboard_getchar ([pending 0x2A; pending 0x9E] ++ pending 0x1E :: [pending 0x30])
                   (Modifiers false false false)
  = Some (65, Modifiers true false false, [pending 0x30]).
Proof.
  destruct (proj1 (keyboard_getchar_returns_the_first_key
              [pending 0x2A; pending 0x9E] (pending 0x1E) [pending 0x30]
              (Modifiers false false false))) as [Hnone Hsome].
  - repeat constructor.
  - split; [exact Hnone|]. apply Hsome. vm_compute. discriminate.
Defined.

Lemma special_keys_shadow_tables_witness :
  keyboard_getchar_nonblock (pending 0x47) (Modifiers true false false)
  = (KEY_HOME, Modifiers true false false) /\
  KEY_HOME = KEY_SPECIAL + keyboard_read_scancode (pending 0x47) /\
  KEY_HOME <> table_at scancode_to_ascii_lower (keyboard_read_scancode (pending 0x47)) /\
  KEY_HOME <> table_at scancode_to_ascii_upper (keyboard_read_scancode (pending 0x47)).
Proof.
  apply (special_keys_shadow_tables (pending 0x47) (Modifiers true false false)
           KEY_HOME).
  reflexivity.
Defined.

End KeyboardMore.

(** ** The C library *)

Section LibcMore.
Import Libc.

(** *** [strcmp] *)

Lemma strcmp_antisym s1 : forall s2, strcmp s1 s2 = - strcmp s2 s1.
Proof.
  induction s1 as [|c1 s1 IH]; intros [|c2 s2]; cbn [strcmp deref hd tl].
  - reflexivity.
  - destruct (Z.eqb_spec c2 0) as [->|Hne]; cbn [negb andb]; lia.
  - destruct (Z.eqb_spec c1 0) as [->|Hne]; cbn [negb andb]; lia.
  - destruct (Z.eqb_spec c1 c2) as [->|Hne].
    + rewrite Z.eqb_refl.
      destruct (Z.eqb_spec c2 0) as [->|Hne]; cbn [negb andb];
        [lia|apply IH].
    + replace (c2 =? c1) with false by lia. rewrite !andb_false_r. lia.
Qed.

Lemma strcmp_common_prefix p : forall s1 s2,
  Forall (fun c => c <> 0) p -> strcmp (p ++ s1) (p ++ s2) = strcmp s1 s2.
Proof.
  induction p as [|c p IH]; intros s1 s2 Hp; [reflexivity|].
  apply Forall_cons in Hp as [Hc Hp]. cbn [app strcmp deref hd tl].
  replace (c =? 0) with false by lia. rewrite Z.eqb_refl. cbn [negb andb].
  apply IH, Hp.
Qed.

(** X13.  [strcmp] compares as unsigned bytes at the first place where the
    strings differ, the terminator counting as a byte: its result there is
    the difference of the two bytes, between -255 and 255 and not zero, and
    exchanging the arguments changes the sign. *)
Theorem strcmp_is_the_first_byte_difference
    (p t1 t2 : list Z) (a b : Z) :
  Forall (fun c => c <> 0) p -> is_char a -> is_char b -> a <> b ->
  strcmp (p ++ a :: t1) (p ++ b :: t2) = uint8 a - uint8 b /\
  strcmp (p ++ b :: t2) (p ++ a :: t1) = - (uint8 a - uint8 b) /\
  uint8 a - uint8 b <> 0 /\ -255 <= uint8 a - uint8 b <= 255.
Proof.
  intros Hp Ha Hb Hab. unfold is_char in *.
  assert (E : strcmp (p ++ a :: t1) (p ++ b :: t2) = uint8 a - uint8 b).
  { rewrite strcmp_common_prefix by exact Hp. cbn [strcmp deref hd].
    replace (a =? b) with false by lia. rewrite andb_false_r. reflexivity. }
  split; [exact E|]. split; [rewrite strcmp_antisym, E; reflexivity|].
  unfold uint8. split; Z.div_mod_to_equations; lia.
Qed.

Lemma strcmp_is_the_first_byte_difference_witness :
  strcmp ([97; 98] ++ (-23) :: [120]) ([97; 98] ++ 0 :: [])
  = uint8 (-23) - uint8 0 /\
  strcmp ([97; 98] ++ 0 :: []) ([97; 98] ++ (-23) :: [120])
  = - (uint8 (-23) - uint8 0) /\
  uint8 (-23) - uint8 0 <> 0 /\ -255 <= uint8 (-23) - uint8 0 <= 255.
Proof.
  apply (strcmp_is_the_first_byte_difference [97; 98] [120] [] (-23) 0).
  - repeat constructor; lia.
  - unfold is_char. lia.
  - unfold is_char. lia.
  - lia.
Defined.

(** *** [memmove] *)

Lemma copy_forward_spec n : forall d s mem,
  (d < s)%nat -> (s + n <= length mem)%nat ->
  copy_forward n d s mem
  = Some (take d mem ++ take n (drop s mem) ++ drop (d + n) mem).
Proof.
  induction n as [|n IH]; intros d s mem Hds Hlen.
  - cbn [copy_forward]. rewrite take_0, app_nil_l, Nat.add_0_r, take_drop.
    reflexivity.
  - cbn [copy_forward].
    destruct (lookup_lt_is_Some_2 mem s ltac:(lia)) as [v Hv].
    destruct (lookup_lt_is_Some_2 mem d ltac:(lia)) as [w Hw].
    rewrite Hv, bind_Some, Hw, bind_Some.
    rewrite IH by (rewrite ?length_insert; lia).
    rewrite (take_S_r _ d v)
      by (rewrite list_lookup_insert_eq; [reflexivity|lia]).
    rewrite take_insert_ge by lia.
    rewrite !drop_insert_lt by lia.
    rewrite (drop_S mem v s Hv). cbn [take].
    rewrite <- app_assoc. cbn [app].
    replace (S d + n)%nat with (d + S n)%nat by lia. reflexivity.
Qed.

Lemma copy_backward_spec n : forall d s mem,
  (s < d)%nat -> (d + n <= length mem)%nat ->
  copy_backward n d s mem
  = Some (take d mem ++ take n (drop s mem) ++ drop (d + n) mem).
Proof.
  induction n as [|n IH]; intros d s mem Hsd Hlen.
  - cbn [copy_backward]. rewrite take_0, app_nil_l, Nat.add_0_r, take_drop.
    reflexivity.
  - cbn [copy_backward].
    destruct (lookup_lt_is_Some_2 mem (s + n) ltac:(lia)) as [v Hv].
    destruct (lookup_lt_is_Some_2 mem (d + n) ltac:(lia)) as [w Hw].
    rewrite Hv, bind_Some, Hw, bind_Some.
    rewrite IH by (rewrite ?length_insert; lia).
    rewrite take_insert_ge by lia.
    rewrite (drop_insert_ge _ s) by lia.
    rewrite take_insert_ge by lia.
    rewrite (drop_S (<[(d + n)%nat:=v]> mem) v (d + n))
      by (rewrite list_lookup_insert_eq; [reflexivity|lia]).
    rewrite drop_insert_lt by lia.
    rewrite (take_S_r (drop s mem) n v) by (rewrite lookup_drop; exact Hv).
    rewrite <- !app_assoc. cbn [app].
    replace (S (d + n)) with (d + S n)%nat by lia. reflexivity.
Qed.

(** X14.  [memmove] gives the destination the bytes the source held before the
    call, also when the two ranges overlap in either direction, and
    changes no byte outside the destination. *)
Theorem memmove_copies_overlapping_ranges (mem : list Z) (d s n : nat) :
  (d + n <= length mem)%nat -> (s + n <= length mem)%nat ->
  memmove mem d s n
  = Some (take d mem ++ take n (drop s mem) ++ drop (d + n) mem).
Proof.
  intros Hd Hs. unfold memmove.
  destruct (Nat.ltb_spec d s) as [E1|E1]; [apply copy_forward_spec; lia|].
  destruct (Nat.ltb_spec s d) as [E2|E2]; [apply copy_backward_spec; lia|].
  assert (d = s) by lia. subst s.
  rewrite <- drop_drop, !take_drop. reflexivity.
Qed.

Lemma memmove_copies_overlapping_ranges_witness :
  memmove [1; 2; 3; 4; 5; 6] 2 1 3
  = Some (take 2 [1; 2; 3; 4; 5; 6] ++ take 3 (drop 1 [1; 2; 3; 4; 5; 6])
          ++ drop (2 + 3) [1; 2; 3; 4; 5; 6]).
Proof.
  apply (memmove_copies_overlapping_ranges [1; 2; 3; 4; 5; 6] 2 1 3); cbn; lia.
Defined.


(** *** [strncpy] *)

Lemma strncpy_pad_spec n : forall i dest,
  (i + n <= length dest)%nat ->
  strncpy_pad i n dest
  = Some (take i dest ++ replicate n 0 ++ drop (i + n) dest).
Proof.
  induction n as [|n IH]; intros i dest Hlen.
  - cbn [strncpy_pad replicate app]. rewrite Nat.add_0_r, take_drop. reflexivity.
  - cbn [strncpy_pad].
    destruct (lookup_lt_is_Some_2 dest i ltac:(lia)) as [w Hw].
    rewrite Hw, bind_Some.
    rewrite IH by (rewrite ?length_insert; lia).
    rewrite (take_S_r _ i 0)
      by (rewrite list_lookup_insert_eq; [reflexivity|lia]).
    rewrite take_insert_ge, drop_insert_lt by lia.
    rewrite <- app_assoc. cbn [app replicate].
    replace (S i + n)%nat with (i + S n)%nat by lia. reflexivity.
Qed.

Lemma take_padded (l : list Z) n :
  take n (l ++ replicate (S n) 0) = take n (l ++ replicate n 0).
Proof.
  rewrite replicate_S_end, app_assoc.
  apply take_app_le. rewrite length_app, length_replicate. lia.
Qed.

Lemma strncpy_from_spec n : forall i dest src,
  (i + n <= length dest)%nat ->
  strncpy_from i n dest src
  = Some (take i dest ++ take n (c_string src ++ replicate n 0)
          ++ drop (i + n) dest).
Proof.
  induction n as [|n IH]; intros i dest src Hlen.
  - cbn [strncpy_from]. rewrite take_0, app_nil_l, Nat.add_0_r, take_drop.
    reflexivity.
  - cbn [strncpy_from].
    destruct (deref src =? 0) eqn:E.
    + rewrite strncpy_pad_spec by exact Hlen.
      assert (Hempty : c_string src = []).
      { destruct src as [|c src]; [reflexivity|].
        cbn [deref hd] in E. cbn [c_string]. rewrite E. reflexivity. }
      rewrite Hempty, app_nil_l.
      rewrite (take_ge (replicate (S n) 0)) by (rewrite length_replicate; lia).
      reflexivity.
    + destruct src as [|c src]; [discriminate|]. cbn [deref hd tl] in *.
      destruct (lookup_lt_is_Some_2 dest i ltac:(lia)) as [w Hw].
      rewrite Hw, bind_Some.
      rewrite IH by (rewrite ?length_insert; lia).
      rewrite (take_S_r _ i c)
        by (rewrite list_lookup_insert_eq; [reflexivity|lia]).
      rewrite take_insert_ge, drop_insert_lt by lia.
      cbn [c_string]. rewrite E. cbn [app take].
      rewrite take_padded, <- app_assoc. cbn [app].
      replace (S i + n)%nat with (i + S n)%nat by lia. reflexivity.
Qed.

(** X15.  [strncpy] writes exactly [n] bytes: the string, cut or padded with
    NULs to that length.  A source shorter than [n] arrives terminated; a
    source of [n] or more characters arrives without a terminator. *)
Theorem strncpy_pads_or_truncates (dest src : list Z) (n : nat) :
  (n <= length dest)%nat ->
  strncpy dest src n
  = Some (take n (c_string src ++ replicate n 0) ++ drop n dest) /\
  (strlen src < Z.of_nat n ->
   strncpy dest src n
   = Some (c_string src
           ++ replicate (n - length (c_string src)) 0 ++ drop n dest)) /\
  (Z.of_nat n <= strlen src ->
   strncpy dest src n = Some (take n (c_string src) ++ drop n dest)).
Proof.
  intros Hlen.
  assert (E : strncpy dest src n
              = Some (take n (c_string src ++ replicate n 0) ++ drop n dest)).
  { unfold strncpy. rewrite strncpy_from_spec by (cbn; lia).
    rewrite take_0, app_nil_l. reflexivity. }
  split; [exact E|]. rewrite E, strlen_c_string. split; intros H.
  - rewrite take_app_ge by lia. rewrite take_replicate.
    rewrite <- app_assoc.
    replace ((n - length (c_string src)) `min` n)%nat
      with (n - length (c_string src))%nat by lia.
    reflexivity.
  - rewrite take_app_le by lia. reflexivity.
Qed.

Lemma strncpy_pads_or_truncates_witness :
  strncpy [9; 9; 9; 9; 9; 9] [104; 105; 0; 7] 4
  = Some (c_string [104; 105; 0; 7]
          ++ replicate (4 - length (c_string [104; 105; 0; 7])) 0
          ++ drop 4 [9; 9; 9; 9; 9; 9]).
Proof.
  apply (proj1 (proj2 (strncpy_pads_or_truncates [9; 9; 9; 9; 9; 9]
                         [104; 105; 0; 7] 4 ltac:(cbn; lia)))).
  cbn. lia.
Defined.

(** *** Character classes *)

(** X16.  Case conversion touches letters only and keeps them letters: each
    conversion is idempotent, converting there and back restores a letter
    of the case converted to, and anything that is not a letter is
    returned as it is. *)
Theorem case_conversion_round_trips (c : Z) :
  toupper (toupper c) = toupper c /\ tolower (tolower c) = tolower c /\
  (65 <= c <= 90 -> toupper (tolower c) = c) /\
  (97 <= c <= 122 -> tolower (toupper c) = c) /\
  (isalpha c = false -> toupper c = c /\ tolower c = c) /\
  isalpha (toupper c) = isalpha c /\ isalpha (tolower c) = isalpha c.
Proof.
  unfold toupper, tolower, isalpha.
  destruct ((97 <=? c) && (c <=? 122)) eqn:E1;
    destruct ((65 <=? c) && (c <=? 90)) eqn:E2;
    rewrite ?sint32_small by lia;
    repeat match goal with
           | |- context [(?a <=? ?b)] =>
               destruct (Z.leb_spec a b); cbn [andb orb] in *
           end;
    repeat split; intros; try lia; try reflexivity; try discriminate.
Qed.

Lemma case_conversion_round_trips_witness :
  toupper (tolower 81) = 81 /\ tolower (toupper 113) = 113.
Proof.
  destruct (case_conversion_round_trips 81) as (_ & _ & H & _).
  destruct (case_conversion_round_trips 113) as (_ & _ & _ & H' & _).
  split; [apply H; lia | apply H'; lia].
Defined.

End LibcMore.

(** ** The parser *)

Section ParserMore.
Import Libc Parser.

(** X17.  [parser_skip_whitespace] moves the pointer over a run of blanks and
    nothing else: it stops at the terminator or at the first character that
    is not whitespace, a second call stays there, and the words of the
    string are those of what is left. *)
Theorem skip_whitespace_drops_leading_blanks (str : list Z) :
  let rest := parser_skip_whitespace str in
  (exists sp, str = sp ++ rest /\ Forall is_blank sp) /\
  (deref rest = 0 \/ isspace (deref rest) = false) /\
  parser_skip_whitespace rest = rest /\
  words (c_string rest) = words (c_string str).
Proof.
  induction str as [|c str IH]; cbn [parser_skip_whitespace].
  - split; [exists []; split; [reflexivity|constructor]|].
    split; [left; reflexivity|]. split; reflexivity.
  - destruct (c =? 0) eqn:E0; cbn [negb andb].
    + split; [exists []; split; [reflexivity|constructor]|].
      split; [left; cbn; lia|]. split; [|reflexivity].
      cbn [parser_skip_whitespace]. rewrite E0. reflexivity.
    + destruct (isspace c) eqn:Es.
      * cbv zeta in IH. destruct IH as ((sp & Esp & Hsp) & Hstop & Hidem & Hw).
        split; [|split; [exact Hstop|split; [exact Hidem|]]].
        -- exists (c :: sp). split; [cbn [app]; f_equal; exact Esp|].
           constructor; [split; [lia|exact Es]|exact Hsp].
        -- rewrite Hw. cbn [c_string]. rewrite E0.
           symmetry. apply (words_blanks [c]).
           constructor; [split; [lia|exact Es]|constructor].
      * split; [exists []; split; [reflexivity|constructor]|].
        split; [right; exact Es|]. split; [|reflexivity].
        cbn [parser_skip_whitespace]. rewrite E0, Es. reflexivity.
Qed.

(** *** Trimming *)

Lemma trim_from_tail l : forall tail,
  Forall (fun c => c <> 0) l ->
  exists l' ws,
    l = l' ++ ws /\ Forall is_blank ws /\
    (forall l0 c, l' = l0 ++ [c] -> isspace c = false) /\
    trim_from (length l) (l ++ tail)
    = Some (l' ++ replicate (length ws) 0 ++ tail).
Proof.
  induction l as [|c l0 IH] using rev_ind; intros tail Hnz.
  - exists [], []. split; [reflexivity|]. split; [constructor|].
    split; [|reflexivity]. intros l0 c E. by destruct l0.
  - apply Forall_app in Hnz as [Hnz0 Hc].
    rewrite length_app. cbn [length].
    replace (length l0 + 1)%nat with (S (length l0)) by lia.
    cbn [trim_from]. rewrite <- app_assoc. cbn [app].
    rewrite list_lookup_middle by reflexivity. rewrite bind_Some.
    destruct (isspace c) eqn:E.
    + rewrite insert_at_length.
      destruct (IH (0 :: tail) Hnz0) as (l' & ws & -> & Hws & Hmax & Et).
      exists l', (ws ++ [c]). split; [rewrite app_assoc; reflexivity|].
      split; [apply Forall_app; split; [exact Hws|];
              constructor; [exact (conj (isspace_nonzero c E) E)|constructor]|].
      split; [exact Hmax|].
      rewrite Et, length_app. cbn [length].
      replace (length ws + 1)%nat with (S (length ws)) by lia.
      rewrite replicate_S_end, <- app_assoc. reflexivity.
    + exists (l0 ++ [c]), []. rewrite app_nil_r. split; [reflexivity|].
      split; [constructor|]. split.
      * intros l1 c1 E1. apply app_inj_tail in E1 as [_ <-]. exact E.
      * cbn [length replicate app]. rewrite <- app_assoc. reflexivity.
Qed.

(** X18.  [parser_trim_trailing] overwrites with NUL exactly the blanks at the
    end of the string: what remains is the string up to its last character
    that is not whitespace, a string of blanks becomes empty, and the
    memory behind the terminator is not touched. *)
Theorem trim_trailing_cuts_exactly_the_final_blanks (l rest : list Z) :
  Forall (fun c => c <> 0) l ->
  exists l' ws,
    l = l' ++ ws /\ Forall is_blank ws /\
    (forall l0 c, l' = l0 ++ [c] -> isspace c = false) /\
    parser_trim_trailing (l ++ 0 :: rest)
    = Some (l' ++ replicate (length ws) 0 ++ 0 :: rest).
Proof.
  intros Hnz. unfold parser_trim_trailing.
  destruct l as [|c l].
  - exists [], []. split; [reflexivity|]. split; [constructor|].
    split; [|reflexivity]. intros l0 c E. by destruct l0.
  - cbn [app lookup list_lookup]. rewrite bind_Some.
    pose proof (Forall_inv Hnz) as Hc. cbn beta in Hc.
    replace (c =? 0) with false by lia.
    rewrite strlen_c_string.
    change (c :: l ++ 0 :: rest) with ((c :: l) ++ 0 :: rest).
    rewrite c_string_app_nul by exact Hnz. rewrite Nat2Z.id.
    apply (trim_from_tail (c :: l) (0 :: rest) Hnz).
Qed.

Lemma trim_trailing_cuts_exactly_the_final_blanks_witness :
  exists l' ws,
    [97; 32; 98; 32; 9] = l' ++ ws /\ Forall is_blank ws /\
    (forall l0 c, l' = l0 ++ [c] -> isspace c = false) /\
    parser_trim_trailing ([97; 32; 98; 32; 9] ++ 0 :: [7; 7])
    = Some (l' ++ replicate (length ws) 0 ++ 0 :: [7; 7]).
Proof.
  apply (trim_trailing_cuts_exactly_the_final_blanks [97; 32; 98; 32; 9] [7; 7]).
  repeat constructor; lia.
Defined.


(** *** What the arguments are made of *)

Lemma words_from_clean l : forall cur,
  Forall (fun c => c <> 0) l -> Forall is_word_char cur ->
  Forall (fun w => w <> [] /\ Forall is_word_char w) (words_from cur l).
Proof.
  induction l as [|c l IH]; intros cur Hl Hcur; cbn [words_from].
  - destruct (decide (cur = [])); repeat constructor; assumption.
  - apply Forall_cons in Hl as [Hc Hl].
    destruct (isspace c) eqn:E.
    + destruct (decide (cur = [])) as [->|Hne].
      * apply IH; [exact Hl|constructor].
      * constructor; [split; assumption|]. apply IH; [exact Hl|constructor].
    + apply IH; [exact Hl|]. apply Forall_app. split; [exact Hcur|].
      constructor; [split; assumption|constructor].
Qed.

Lemma words_from_sublist l : forall cur,
  concat (words_from cur l) `sublist_of` cur ++ l.
Proof.
  induction l as [|c l IH]; intros cur; cbn [words_from].
  - destruct (decide (cur = [])) as [->|Hne]; cbn [concat];
      rewrite ?app_nil_r; reflexivity.
  - destruct (isspace c).
    + destruct (decide (cur = [])) as [->|Hne]; cbn [concat app].
      * apply sublist_cons, (IH []).
      * apply sublist_app; [reflexivity|]. apply sublist_cons, (IH []).
    + rewrite (IH (cur ++ [c])), <- app_assoc. reflexivity.
Qed.

Lemma concat_take_sublist {A} (ls : list (list A)) n :
  concat (take n ls) `sublist_of` concat ls.
Proof.
  rewrite <- (take_drop n ls) at 2. rewrite concat_app.
  apply sublist_inserts_r. reflexivity.
Qed.

(** X19.  Every argument the parser records is a non-empty string without
    whitespace, and the arguments in order are made of characters of the
    line in the order they have there: the parser invents, repeats and
    reorders nothing. *)
Theorem arguments_are_blank_free_pieces_of_the_line
    (line : list Z) (cmd0 : parsed_cmd_t) :
  exists cmd' args,
    parser_parse (Some line) (Some cmd0) = Some (true, Some cmd') /\
    arg_vector cmd' = Some args /\
    Forall (fun w => w <> [] /\ Forall is_word_char w) args /\
    concat args `sublist_of` c_string line.
Proof.
  destruct (parser_parse_spec line cmd0) as (cmd' & Eq & _ & _ & Ev).
  cbv zeta in Ev.
  exists cmd', (take 16 (words (take 255 (c_string line)))).
  split; [exact Eq|]. split; [exact Ev|]. split.
  - apply Forall_take, words_from_clean; [|constructor].
    apply Forall_take, c_string_nul_free.
  - etrans; [apply concat_take_sublist|].
    etrans; [apply (words_from_sublist _ [])|].
    cbn [app]. apply sublist_take.
Qed.


(** *** The structure the parser fills *)

Lemma parse_args_keeps_structure fuel : forall cmd ptr cmd',
  length (argv cmd) = 16%nat -> length (buffer cmd) = 256%nat ->
  0 <= argc cmd <= 16 ->
  (forall j, (Z.to_nat (argc cmd) <= j < 16)%nat -> argv cmd !! j = Some None) ->
  buffer cmd !! 255%nat = Some 0 ->
  parse_args fuel cmd ptr = Some cmd' ->
  length (argv cmd') = 16%nat /\ length (buffer cmd') = 256%nat /\
  0 <= argc cmd' <= 16 /\
  (forall j, (Z.to_nat (argc cmd') <= j < 16)%nat -> argv cmd' !! j = Some None) /\
  buffer cmd' !! 255%nat = Some 0.
Proof.
  induction fuel as [|fuel IH]; intros cmd ptr cmd' Hav Hbuf Hargc Hnull Hend H;
    [discriminate|].
  cbn [parse_args] in H.
  destruct (buffer cmd !! ptr) as [c|]; [|discriminate].
  rewrite bind_Some in H.
  destruct (negb (c =? 0) && (argc cmd <? SHELL_MAX_ARGS)) eqn:Eloop;
    [|injection H as <-; done].
  apply andb_prop in Eloop as [_ Hroom]. unfold SHELL_MAX_ARGS in Hroom.
  destruct (skip_spaces scan_fuel (buffer cmd) ptr) as [ptr1|]; [|discriminate].
  rewrite bind_Some in H.
  destruct (buffer cmd !! ptr1) as [c1|]; [|discriminate].
  rewrite bind_Some in H.
  destruct (c1 =? 0); [injection H as <-; done|].
  cbn [buffer argc argv] in H.
  destruct (skip_word scan_fuel (buffer cmd) ptr1) as [ptr2|]; [|discriminate].
  rewrite bind_Some in H.
  destruct (buffer cmd !! ptr2) as [c2|] eqn:E2; [|discriminate].
  rewrite bind_Some in H.
  rewrite sint32_small in H by lia.
  assert (Hnull' : forall j, (Z.to_nat (argc cmd + 1) <= j < 16)%nat ->
            <[Z.to_nat (argc cmd) := Some ptr1]> (argv cmd) !! j = Some None).
  { intros j Hj. rewrite list_lookup_insert_ne by lia. apply Hnull. lia. }
  destruct (negb (c2 =? 0)) eqn:Ec2.
  - apply (IH _ _ _) in H; [exact H|..]; cbn [argv buffer argc].
    + rewrite length_insert. exact Hav.
    + rewrite length_insert. exact Hbuf.
    + lia.
    + exact Hnull'.
    + rewrite list_lookup_insert_ne; [exact Hend|].
      intros ->. rewrite Hend in E2. injection E2 as <-. discriminate.
  - apply (IH _ _ _) in H; [exact H|..]; cbn [argv buffer argc].
    + rewrite length_insert. exact Hav.
    + exact Hbuf.
    + lia.
    + exact Hnull'.
    + exact Hend.
Qed.

(** X20.  The structure after a successful parse: sixteen slots and 256 bytes as
    before, the slots below [argc] point into the buffer and all others are
    NULL, and the last byte of the buffer is NUL, so every argument is a
    terminated string. *)
Theorem parsed_structure_is_well_formed (line : list Z) (cmd0 : parsed_cmd_t) :
  exists cmd',
    parser_parse (Some line) (Some cmd0) = Some (true, Some cmd') /\
    length (argv cmd') = 16%nat /\ length (buffer cmd') = 256%nat /\
    0 <= argc cmd' <= 16 /\
    (forall j, (j < 16)%nat ->
       argv cmd' !! j = Some None <-> argc cmd' <= Z.of_nat j) /\
    (forall j, 0 <= Z.of_nat j < argc cmd' ->
       exists off, argv cmd' !! j = Some (Some off) /\ (off < 255)%nat) /\
    buffer cmd' !! 255%nat = Some 0.
Proof.
  destruct (parser_parse_spec line cmd0) as (cmd' & Eq & Ec & Harg & _).
  cbv zeta in Ec, Harg.
  exists cmd'. split; [exact Eq|].
  assert (HI : length (argv cmd') = 16%nat /\ length (buffer cmd') = 256%nat /\
               0 <= argc cmd' <= 16 /\
               (forall j, (Z.to_nat (argc cmd') <= j < 16)%nat ->
                  argv cmd' !! j = Some None) /\
               buffer cmd' !! 255%nat = Some 0).
  { revert Eq. unfold parser_parse.
    destruct (copied_line line) as (Elen & Etake & HL255 & HLline & HLnz).
    cbv zeta in Elen, Etake.
    set (L := take 255 (c_string line)) in *.
    set (len := if SHELL_MAX_CMD_LEN <=? strlen line then SHELL_MAX_CMD_LEN - 1
                else strlen line) in *.
    change (Z.to_nat SHELL_MAX_CMD_LEN) with 256%nat.
    rewrite memcpy_spec by (rewrite ?length_replicate; lia).
    rewrite bind_Some, Etake, Elen, drop_replicate.
    replace (256 - length L)%nat with (S (255 - length L)) by lia.
    rewrite insert_terminator.
    destruct (parser_trim_trailing_spec L (S (255 - length L)) HLnz ltac:(lia))
      as (l' & sp & EL & Hsp & Etrim).
    rewrite Etrim, bind_Some.
    change (Z.to_nat SHELL_MAX_ARGS) with 16%nat.
    destruct (parse_args scan_fuel _ 0) as [cmd1|] eqn:Eargs; [|discriminate].
    rewrite bind_Some. intros [= <-].
    assert (HlenL : length L = (length l' + length sp)%nat)
      by (rewrite EL, length_app; reflexivity).
    apply (parse_args_keeps_structure _ _ _ _) in Eargs; [exact Eargs|..];
      cbn [argv buffer argc].
    - apply length_replicate.
    - rewrite length_app, length_replicate. lia.
    - lia.
    - intros j Hj. apply lookup_replicate_2. lia.
    - rewrite lookup_app_r by lia. apply lookup_replicate_2. lia. }
  destruct HI as (Hav & Hbuf & Hargc & Hnull & Hend).
  split; [exact Hav|]. split; [exact Hbuf|]. split; [exact Hargc|].
  assert (Hptr : forall j, 0 <= Z.of_nat j < argc cmd' ->
            exists off, argv cmd' !! j = Some (Some off) /\ (off < 255)%nat).
  { intros j Hj. rewrite Ec in Hj.
    destruct (lookup_lt_is_Some_2 (take 16 (words (take 255 (c_string line)))) j
                ltac:(lia)) as [w Hw].
    pose proof (Harg j w Hw) as Hs. unfold arg_string in Hs.
    destruct (argv cmd' !! j) as [[off|]|] eqn:Ej; try discriminate.
    exists off. split; [reflexivity|].
    cbn [mbind option_bind] in Hs. injection Hs as Hs.
    destruct (decide (off < 255)%nat) as [|Hge]; [assumption|exfalso].
    assert (Hw0 : w = []).
    { rewrite <- Hs. destruct (decide (off = 255%nat)) as [->|Hne].
      - rewrite (drop_S _ 0 255 Hend). reflexivity.
      - rewrite drop_ge by lia. reflexivity. }
    pose proof (words_from_clean (take 255 (c_string line)) []
                  ltac:(apply Forall_take, c_string_nul_free)
                  ltac:(constructor)) as Hclean.
    apply (Forall_take _ 16) in Hclean. rewrite Forall_forall in Hclean.
    destruct (Hclean w) as [Hne _]; [eapply list_elem_of_lookup_2, Hw|].
    exact (Hne Hw0). }
  split; [|split; [exact Hptr|exact Hend]].
  intros j Hj. split.
  - intros Enull. destruct (decide (argc cmd' <= Z.of_nat j)) as [|Hlt];
      [assumption|exfalso].
    destruct (Hptr j ltac:(lia)) as (off & Eoff & _). congruence.
  - intros Hge. apply Hnull. lia.
Qed.

End ParserMore.

(** ** Numbers printed and parsed *)

Section NumberFacts.
Import Libc Vga Printf Commands.

Lemma shift_or_digit v d :
  0 <= d < 16 -> Z.lor (Z.shiftl v 4) d = v * 16 + d.
Proof.
  intros Hd.
  assert (E : Z.land (Z.shiftl v 4) d = 0).
  { replace d with (Z.land d (Z.ones 4))
      by (rewrite Z.land_ones by lia; apply Z.mod_small; lia).
    apply Z.bits_inj'. intros n Hn.
    rewrite !Z.land_spec, Z.bits_0.
    destruct (Z.lt_ge_cases n 4) as [Hlt|Hge].
    - rewrite Z.shiftl_spec_low by lia. reflexivity.
    - rewrite Z.ones_spec_high by lia. rewrite !andb_false_r. reflexivity. }
  pose proof (Z.add_lor_land (Z.shiftl v 4) d) as H.
  rewrite E, Z.add_0_r in H. rewrite H, Z.shiftl_mul_pow2 by lia.
  reflexivity.
Qed.

Lemma uint_digits_unfold fuel value base digits buf :
  uint_digits (S fuel) value base digits buf
  = if 0 <? value then
      if (24 <=? Z.of_nat (length buf)) || (uint64 base =? 0) then None
      else
        d ← digits !! Z.to_nat (value `mod` uint64 base);
        uint_digits fuel (value `div` uint64 base) base digits (buf ++ [d])
    else Some buf.
Proof. reflexivity. Qed.

(** The digits [uint_digits] stores: those of the value in the base, as
    many as it has, none of them a leading zero. *)
Lemma uint_digits_spec base digits :
  2 <= base < 17 ->
  (forall k, 0 <= k < base ->
     exists d, digits !! Z.to_nat k = Some d /\ hex_digit d = Some k) ->
  forall fuel value buf,
    0 <= value < base ^ Z.of_nat fuel ->
    value * base ^ Z.of_nat (length buf) < base ^ 24 ->
    exists ds,
      uint_digits (S fuel) value base digits buf = Some (buf ++ ds) /\
      foldr (fun d acc => acc * base + default 0 (hex_digit d)) 0 ds = value /\
      Forall (fun d => exists k, hex_digit d = Some k /\ 0 <= k < base) ds /\
      value < base ^ Z.of_nat (length ds) /\
      (0 < value -> base ^ (Z.of_nat (length ds) - 1) <= value) /\
      (value = 0 -> ds = []).
Proof.
  intros Hbase Hdigits.
  assert (Hb : uint64 base = base) by (apply uint64_small; lia).
  induction fuel as [|fuel IH]; intros value buf Hv Hroom.
  - change (Z.of_nat 0) with 0 in Hv. rewrite Z.pow_0_r in Hv.
    assert (value = 0) by lia. subst value.
    exists []. rewrite uint_digits_unfold, app_nil_r.
    split; [reflexivity|]. cbn. split; [reflexivity|].
    split; [constructor|]. split; [lia|]. split; [lia|done].
  - rewrite uint_digits_unfold. destruct (0 <? value) eqn:Epos.
    + rewrite Hb.
      assert (Hlen : Z.of_nat (length buf) < 24).
      { destruct (Z.lt_ge_cases (Z.of_nat (length buf)) 24) as [|Hge];
          [assumption|exfalso].
        assert (base ^ 24 <= base ^ Z.of_nat (length buf))
          by (apply Z.pow_le_mono_r; lia).
        nia. }
      replace (24 <=? Z.of_nat (length buf)) with false by lia.
      replace (base =? 0) with false by lia. cbn [orb].
      destruct (Hdigits (value `mod` base)
                  ltac:(Z.div_mod_to_equations; lia)) as (d & Hd & Hdv).
      rewrite Hd, bind_Some.
      rewrite Nat2Z.inj_succ, Z.pow_succ_r in Hv by lia.
      destruct (IH (value `div` base) (buf ++ [d]))
        as (ds & Eq & Hval & Hall & Hup & Hlo & Hz).
      * Z.div_mod_to_equations. nia.
      * rewrite length_app, Nat2Z.inj_add. cbn [length].
        change (Z.of_nat 1) with 1. rewrite Z.pow_add_r, Z.pow_1_r by lia.
        assert (0 < base ^ Z.of_nat (length buf))
          by (apply Z.pow_pos_nonneg; lia).
        Z.div_mod_to_equations. nia.
      * exists (d :: ds). rewrite Eq, <- app_assoc. split; [reflexivity|].
        split; [|split; [|split; [|split; [|intros ->; discriminate]]]].
        -- cbn [foldr]. rewrite Hval, Hdv.
           change (default 0 (Some (value `mod` base))) with (value `mod` base).
           Z.div_mod_to_equations. nia.
        -- constructor; [|exact Hall].
           exists (value `mod` base). split; [exact Hdv|].
           Z.div_mod_to_equations. lia.
        -- rewrite length_cons, Nat2Z.inj_succ, Z.pow_succ_r by lia.
           Z.div_mod_to_equations. nia.
        -- intros _. rewrite length_cons, Nat2Z.inj_succ.
           replace (Z.succ (Z.of_nat (length ds)) - 1)
             with (Z.of_nat (length ds)) by lia.
           destruct ds as [|d' ds'].
           ++ cbn. lia.
           ++ assert (Hq : 0 < value `div` base).
              { destruct (Z.eq_dec (value `div` base) 0) as [E0|];
                  [discriminate (Hz E0)|].
                Z.div_mod_to_equations. nia. }
              specialize (Hlo Hq).
              rewrite length_cons, Nat2Z.inj_succ in Hlo |- *.
              replace (Z.succ (Z.of_nat (length ds')) - 1)
                with (Z.of_nat (length ds')) in Hlo by lia.
              rewrite Z.pow_succ_r by lia.
              Z.div_mod_to_equations. nia.
    + assert (value = 0) by lia. subst value.
      exists []. rewrite app_nil_r. split; [reflexivity|].
      cbn. split; [reflexivity|]. split; [constructor|].
      split; [lia|]. split; [lia|done].
Qed.


Lemma hex_digit_range d k :
  hex_digit d = Some k -> 0 <= k < 16 /\ d <> 0 /\ d <> 120 /\ d <> 88.
Proof.
  unfold hex_digit. repeat case_match; intros [= <-]; lia.
Qed.

Lemma hex_digit_decimal d k :
  hex_digit d = Some k -> k < 10 -> 48 <= d <= 57 /\ k = d - 48.
Proof.
  unfold hex_digit. repeat case_match; intros [= <-]; lia.
Qed.

Lemma horner_nonneg base ds :
  0 <= base ->
  Forall (fun d => exists k, hex_digit d = Some k /\ 0 <= k < base) ds ->
  0 <= foldr (fun d acc => acc * base + default 0 (hex_digit d)) 0 ds.
Proof.
  intros Hb. induction 1 as [|d ds (k & Hk & Hk') _ IH]; [cbn; lia|].
  cbn [foldr]. rewrite Hk. change (default 0 (Some k)) with k. nia.
Qed.

Lemma parse_dec_loop_digits ds : forall rest acc,
  Forall (fun d => exists k, hex_digit d = Some k /\ 0 <= k < 10) ds ->
  0 <= acc ->
  acc * 10 ^ Z.of_nat (length ds)
  + foldr (fun d acc => acc * 10 + default 0 (hex_digit d)) 0 ds
  < 18446744073709551616 ->
  parse_dec_loop (rev ds ++ rest) acc
  = parse_dec_loop rest
      (acc * 10 ^ Z.of_nat (length ds)
       + foldr (fun d acc => acc * 10 + default 0 (hex_digit d)) 0 ds).
Proof.
  induction ds as [|d ds IH]; intros rest acc Hds Hacc Hfit.
  - cbn. f_equal. lia.
  - apply Forall_cons in Hds as [(k & Hk & Hk') Hds].
    pose proof (horner_nonneg 10 ds ltac:(lia) Hds) as Hnn.
    revert Hfit. rewrite length_cons, Nat2Z.inj_succ, Z.pow_succ_r by lia.
    cbn [foldr]. rewrite Hk. change (default 0 (Some k)) with k. intros Hfit.
    cbn [rev]. rewrite <- app_assoc. cbn [app].
    assert (0 < 10 ^ Z.of_nat (length ds)) by (apply Z.pow_pos_nonneg; lia).
    rewrite IH by (first [exact Hds | nia]).
    destruct (hex_digit_decimal d k Hk ltac:(lia)) as [Hd ->].
    cbn [parse_dec_loop].
    replace (d =? 0) with false by lia.
    replace ((48 <=? d) && (d <=? 57)) with true by lia.
    rewrite uint64_small by nia. f_equal. ring.
Qed.

Lemma parse_hex_loop_digits ds : forall rest acc,
  Forall (fun d => exists k, hex_digit d = Some k /\ 0 <= k < 16) ds ->
  0 <= acc ->
  acc * 16 ^ Z.of_nat (length ds)
  + foldr (fun d acc => acc * 16 + default 0 (hex_digit d)) 0 ds
  < 18446744073709551616 ->
  parse_hex_loop (rev ds ++ rest) acc
  = parse_hex_loop rest
      (acc * 16 ^ Z.of_nat (length ds)
       + foldr (fun d acc => acc * 16 + default 0 (hex_digit d)) 0 ds).
Proof.
  induction ds as [|d ds IH]; intros rest acc Hds Hacc Hfit.
  - cbn. f_equal. lia.
  - apply Forall_cons in Hds as [(k & Hk & Hk') Hds].
    pose proof (horner_nonneg 16 ds ltac:(lia) Hds) as Hnn.
    revert Hfit. rewrite length_cons, Nat2Z.inj_succ, Z.pow_succ_r by lia.
    cbn [foldr]. rewrite Hk. change (default 0 (Some k)) with k. intros Hfit.
    cbn [rev]. rewrite <- app_assoc. cbn [app].
    assert (0 < 16 ^ Z.of_nat (length ds)) by (apply Z.pow_pos_nonneg; lia).
    rewrite IH by (first [exact Hds | nia]).
    destruct (hex_digit_range d k Hk) as (_ & Hd0 & _).
    cbn [parse_hex_loop].
    replace (d =? 0) with false by lia.
    rewrite Hk, bind_Some.
    rewrite Z.shiftl_mul_pow2 by lia. change (2 ^ 4) with 16.
    rewrite (uint64_small (_ * 16)) by nia.
    rewrite <- (Z.shiftl_mul_pow2 _ 4) by lia.
    rewrite shift_or_digit by lia.
    rewrite uint64_small by nia. f_equal. ring.
Qed.

Lemma putchars_replicate n c s :
  Nat.iter n (vga_putchar c) s = putchars (replicate n c) s.
Proof.
  revert s. induction n as [|n IH]; intros s; [reflexivity|].
  rewrite Nat.iter_succ_r, IH. reflexivity.
Qed.

Lemma digit_table (upper : bool) k :
  0 <= k < 16 ->
  exists d,
    (if upper then cstr "0123456789ABCDEF" else cstr "0123456789abcdef")
      !! Z.to_nat k = Some d /\ hex_digit d = Some k.
Proof.
  intros Hk.
  set (D := if upper then cstr "0123456789ABCDEF" else cstr "0123456789abcdef").
  exists (default 0 (D !! Z.to_nat k)).
  revert k Hk.
  apply (forall_below 16
    (fun k => D !! Z.to_nat k = Some (default 0 (D !! Z.to_nat k)) /\
              hex_digit (default 0 (D !! Z.to_nat k)) = Some k)).
  subst D. destruct upper; vm_compute; reflexivity.
Qed.

(** The digits and the padding [print_uint] sends to the console. *)
Lemma print_uint_spec value base upper width zeropad s :
  0 <= value < 18446744073709551616 -> (base = 10 \/ base = 16) ->
  0 <= width < 2147483648 ->
  exists ds,
    print_uint value base upper width zeropad s
    = Some (Z.max width (Z.of_nat (length ds)),
            putchars (replicate (Z.to_nat (width - Z.of_nat (length ds)))
                                (if zeropad then 48 else 32) ++ rev ds) s) /\
    ds <> [] /\
    foldr (fun d acc => acc * base + default 0 (hex_digit d)) 0 ds = value /\
    Forall (fun d => exists k, hex_digit d = Some k /\ 0 <= k < base) ds /\
    (0 < value -> base ^ (Z.of_nat (length ds) - 1) <= value) /\
    (value = 0 -> ds = [48]).
Proof.
  intros Hv Hbase Hw. unfold print_uint.
  assert (Hfinish : forall ds, (0 < length ds <= 24)%nat ->
    Some (sint32 (Z.max (sint32 (width - Z.of_nat (length ds))) 0
                  + Z.of_nat (length ds)),
          putchars (rev ds)
            (Nat.iter (Z.to_nat (sint32 (width - Z.of_nat (length ds))))
               (vga_putchar (if zeropad then 48 else 32)) s))
    = Some (Z.max width (Z.of_nat (length ds)),
            putchars (replicate (Z.to_nat (width - Z.of_nat (length ds)))
                                (if zeropad then 48 else 32) ++ rev ds) s)).
  { intros ds Hlen. rewrite (sint32_small (width - _)) by lia.
    rewrite sint32_small by lia. rewrite putchars_replicate, putchars_app.
    do 2 f_equal. lia. }
  destruct (value =? 0) eqn:E0.
  - assert (value = 0) by lia. subst value. rewrite bind_Some.
    exists [48]. split; [apply (Hfinish [48]); cbn; lia|].
    split; [discriminate|]. split; [destruct Hbase as [->| ->]; reflexivity|].
    split; [|split; [lia|done]].
    constructor; [|constructor]. exists 0. split; [reflexivity|lia].
  - assert (Hb : 2 <= base < 17) by lia.
    assert (Htable : forall k, 0 <= k < base ->
              exists d,
                (if upper then cstr "0123456789ABCDEF"
                 else cstr "0123456789abcdef") !! Z.to_nat k = Some d /\
                hex_digit d = Some k)
      by (intros k Hk; apply digit_table; lia).
    assert (Hbig : 18446744073709551616 <= base ^ 24
                   /\ 18446744073709551616 <= base ^ Z.of_nat 64)
      by (destruct Hbase as [->| ->]; split; vm_compute; discriminate).
    assert (Hfuel : 0 <= value < base ^ Z.of_nat 64).
    { destruct Hbig as [_ Hbig]. revert Hbig.
      generalize (base ^ Z.of_nat 64). intros; lia. }
    assert (Hroom : value * base ^ Z.of_nat (length (@nil Z)) < base ^ 24).
    { destruct Hbig as [Hbig _]. revert Hbig.
      cbn [length]. change (Z.of_nat 0) with 0. rewrite Z.pow_0_r.
      generalize (base ^ 24). intros; lia. }
    destruct (uint_digits_spec base
                (if upper then cstr "0123456789ABCDEF"
                 else cstr "0123456789abcdef")
                Hb Htable 64%nat value [] Hfuel Hroom)
      as (ds & Eq & Hval & Hall & Hup & Hlo & _).
    clear Hfuel Hroom.
    rewrite app_nil_l in Eq. rewrite Eq, bind_Some.
    assert (Hne : ds <> []).
    { intros ->. clear Hbig. cbn in Hup. lia. }
    assert (Hpos : 0 < value) by (clear Hbig; lia).
    specialize (Hlo Hpos).
    assert (Hlen : (0 < length ds <= 24)%nat).
    { split; [destruct ds; [done|cbn; clear; lia]|].
      destruct (Nat.le_gt_cases (length ds) 24) as [|Hgt]; [assumption|exfalso].
      assert (Hmono : base ^ 24 <= base ^ (Z.of_nat (length ds) - 1))
        by (apply Z.pow_le_mono_r; lia).
      destruct Hbig as [Hbig _]. revert Hbig Hmono Hlo Hv. clear.
      generalize (base ^ 24), (base ^ (Z.of_nat (length ds) - 1)).
      intros; lia. }
    clear Hbig.
    exists ds. split; [apply Hfinish, Hlen|]. split; [exact Hne|].
    split; [exact Hval|]. split; [exact Hall|].
    split; [intros _; exact Hlo|]. intros ->. lia.
Qed.


Lemma digits_nul_free base ds :
  Forall (fun d => exists k, hex_digit d = Some k /\ 0 <= k < base) ds ->
  Forall (fun d => d <> 0 /\ d <> 120 /\ d <> 88) (rev ds).
Proof.
  intros H. apply Forall_rev. eapply Forall_impl; [exact H|].
  intros d (k & Hk & _). apply (hex_digit_range d k Hk).
Qed.

Lemma digit_count base (ds : list Z) value n :
  2 <= base -> 0 <= n ->
  base ^ (Z.of_nat (length ds) - 1) <= value -> value < base ^ n ->
  Z.of_nat (length ds) <= n.
Proof.
  intros Hb Hn Hlo Hup.
  destruct (Z.le_gt_cases (Z.of_nat (length ds)) n) as [|Hgt]; [assumption|].
  exfalso.
  assert (base ^ n <= base ^ (Z.of_nat (length ds) - 1))
    by (apply Z.pow_le_mono_r; lia).
  lia.
Qed.

(** X21.  What [print_uint] prints in base 10 reads back: the characters sent
    to the console are the padding up to the field width followed by
    between one and twenty digits, the count returned is their number, and
    [parse_dec] turns the digits into the value printed. *)
Theorem printed_decimal_parses_back
    (value width : Z) (zeropad : bool) (s : vga_state) :
  0 <= value < 18446744073709551616 -> 0 <= width < 2147483648 ->
  exists digits,
    print_uint value 10 false width zeropad s
    = Some (Z.max width (Z.of_nat (length digits)),
            putchars (replicate (Z.to_nat (width - Z.of_nat (length digits)))
                                (if zeropad then 48 else 32) ++ digits) s) /\
    (1 <= length digits <= 20)%nat /\
    parse_dec digits = Some value.
Proof.
  intros Hv Hw.
  destruct (print_uint_spec value 10 false width zeropad s Hv ltac:(by left) Hw)
    as (ds & Eq & Hne & Hval & Hall & Hlo & Hz).
  exists (rev ds). rewrite length_rev. split; [exact Eq|].
  assert (Hlen : (1 <= length ds <= 20)%nat).
  { split; [destruct ds; [done|cbn; lia]|].
    destruct (Z.eq_dec value 0) as [E0|Hnz]; [rewrite (Hz E0); cbn; lia|].
    pose proof (digit_count 10 ds value 20 ltac:(lia) ltac:(lia)
                  (Hlo ltac:(lia)) ltac:(lia)). lia. }
  split; [exact Hlen|].
  pose proof (digits_nul_free 10 ds Hall) as Hnul.
  unfold parse_dec.
  destruct (rev ds) as [|d0 rest] eqn:Erev.
  { apply (f_equal length) in Erev. rewrite length_rev in Erev.
    cbn in Erev. lia. }
  apply Forall_cons in Hnul as [(Hd0 & _) _]. cbn [deref hd].
  replace (d0 =? 0) with false by lia.
  rewrite <- Erev, <- (app_nil_r (rev ds)).
  rewrite parse_dec_loop_digits; [cbn [parse_dec_loop]; f_equal; lia|exact Hall|lia|].
  rewrite Hval. lia.
Qed.


Lemma printed_decimal_parses_back_witness :
  exists digits,
    print_uint 1024 10 false 6 true (VgaState (replicate 2000 0) 0 0 7 [])
    = Some (Z.max 6 (Z.of_nat (length digits)),
            putchars (replicate (Z.to_nat (6 - Z.of_nat (length digits)))
                                (if true then 48 else 32) ++ digits)
                     (VgaState (replicate 2000 0) 0 0 7 [])) /\
    (1 <= length digits <= 20)%nat /\
    parse_dec digits = Some 1024.
Proof.
  apply (printed_decimal_parses_back 1024 6 true
           (VgaState (replicate 2000 0) 0 0 7 [])); lia.
Defined.

(** X22.  The same in base 16, with either set of digit characters: between one
    and sixteen digits, which [parse_hex] reads back to the value printed,
    with or without a [0x] or [0X] in front. *)
Theorem printed_hex_parses_back
    (value width : Z) (upper zeropad : bool) (s : vga_state) :
  0 <= value < 18446744073709551616 -> 0 <= width < 2147483648 ->
  exists digits,
    print_uint value 16 upper width zeropad s
    = Some (Z.max width (Z.of_nat (length digits)),
            putchars (replicate (Z.to_nat (width - Z.of_nat (length digits)))
                                (if zeropad then 48 else 32) ++ digits) s) /\
    (1 <= length digits <= 16)%nat /\
    parse_hex digits = Some value /\
    parse_hex (cstr "0x" ++ digits) = Some value /\
    parse_hex (cstr "0X" ++ digits) = Some value.
Proof.
  intros Hv Hw.
  destruct (print_uint_spec value 16 upper width zeropad s Hv ltac:(by right) Hw)
    as (ds & Eq & Hne & Hval & Hall & Hlo & Hz).
  exists (rev ds). rewrite length_rev. split; [exact Eq|].
  assert (Hlen : (1 <= length ds <= 16)%nat).
  { split; [destruct ds; [done|cbn; lia]|].
    destruct (Z.eq_dec value 0) as [E0|Hnz]; [rewrite (Hz E0); cbn; lia|].
    pose proof (digit_count 16 ds value 16 ltac:(lia) ltac:(lia)
                  (Hlo ltac:(lia)) ltac:(lia)). lia. }
  split; [exact Hlen|].
  pose proof (digits_nul_free 16 ds Hall) as Hnul.
  assert (Hloop : parse_hex_loop (rev ds) 0 = Some value).
  { rewrite <- (app_nil_r (rev ds)).
    rewrite parse_hex_loop_digits;
      [cbn [parse_hex_loop]; f_equal; lia|exact Hall|lia|].
    rewrite Hval. lia. }
  destruct (rev ds) as [|d0 rest] eqn:Erev.
  { apply (f_equal length) in Erev. rewrite length_rev in Erev.
    cbn in Erev. lia. }
  apply Forall_cons in Hnul as [(Hd0 & _) Hrest].
  assert (Hbody : (if deref (d0 :: rest) =? 0 then None
                   else parse_hex_loop (d0 :: rest) 0) = Some value).
  { cbn [deref hd]. replace (d0 =? 0) with false by lia. exact Hloop. }
  split; [|split; exact Hbody].
  unfold parse_hex. cbn [deref hd tl].
  replace ((deref rest =? 120) || (deref rest =? 88)) with false.
  - rewrite andb_false_r. exact Hbody.
  - destruct rest as [|d1 rest']; [reflexivity|].
    apply Forall_cons in Hrest as [(_ & H120 & H88) _]. cbn [deref hd]. lia.
Qed.

Lemma printed_hex_parses_back_witness :
  exists digits,
    print_uint 753664 16 true 8 true (VgaState (replicate 2000 0) 0 0 7 [])
    = Some (Z.max 8 (Z.of_nat (length digits)),
            putchars (replicate (Z.to_nat (8 - Z.of_nat (length digits)))
                                (if true then 48 else 32) ++ digits)
                     (VgaState (replicate 2000 0) 0 0 7 [])) /\
    (1 <= length digits <= 16)%nat /\
    parse_hex digits = Some 753664 /\
    parse_hex (cstr "0x" ++ digits) = Some 753664 /\
    parse_hex (cstr "0X" ++ digits) = Some 753664.
Proof.
  apply (printed_hex_parses_back 753664 8 true true
           (VgaState (replicate 2000 0) 0 0 7 [])); lia.
Defined.

(** *** What the number parsers reject *)

Lemma parse_dec_loop_accepts str : forall val,
  is_Some (parse_dec_loop str val)
  <-> Forall (fun c => 48 <= c <= 57) (c_string str).
Proof.
  induction str as [|c str IH]; intros val; cbn [parse_dec_loop c_string].
  - split; [constructor|eauto].
  - destruct (c =? 0) eqn:E0; [split; [constructor|eauto]|].
    destruct ((48 <=? c) && (c <=? 57)) eqn:Ed.
    + rewrite IH. split.
      * intros H. constructor; [lia|exact H].
      * intros H. apply Forall_cons in H as [_ H]. exact H.
    + split; [intros [? [=]]|].
      intros H. apply Forall_cons in H as [H _]. lia.
Qed.

(** X23.  [parse_dec] succeeds exactly on the non-empty strings of decimal
    digits; a sign, a blank or a letter anywhere makes it fail, and so
    does the empty string. *)
Theorem parse_dec_accepts_exactly_digit_strings (str : list Z) :
  is_Some (parse_dec str)
  <-> c_string str <> [] /\ Forall (fun c => 48 <= c <= 57) (c_string str).
Proof.
  unfold parse_dec. destruct str as [|c str]; cbn [deref hd].
  - cbn. split; [intros [? [=]]|intros [H _]; done].
  - destruct (c =? 0) eqn:E0.
    + cbn [c_string]. rewrite E0. split; [intros [? [=]]|intros [H _]; done].
    + rewrite parse_dec_loop_accepts. cbn [c_string]. rewrite E0.
      split; [intros H; split; [discriminate|exact H]|intros [_ H]; exact H].
Qed.

End NumberFacts.

(** ** The shell *)

Section ShellMore.
Import Libc Vga Parser Printf Shell.

(** *** The command table *)

Lemma shell_find_app nm e l1 : forall l2,
  shell_find_command nm l1 = Some e ->
  shell_find_command nm (l1 ++ l2) = Some e.
Proof.
  induction l1 as [|e0 l1 IH]; intros l2 H; [discriminate|].
  cbn [app shell_find_command] in *.
  destruct (strcmp (name e0) nm =? 0); [exact H|apply IH, H].
Qed.

(** X24.  Registration appends to the table while it has room: a name not yet
    in the table is found afterwards with the entry just registered, a
    lookup that succeeded before returns the same entry afterwards, so an
    earlier registration of a name hides every later one, and the 33rd
    registration is dropped. *)
Theorem registration_appends_and_never_replaces
    (commands : list shell_command_t) (nm hlp : list Z) (h : shell_cmd_fn) :
  Forall (fun e => is_c_string (name e)) commands -> is_c_string nm ->
  let commands' := shell_register_command nm hlp h commands in
  ((length commands < 32)%nat ->
     (forall e, e ∈ commands -> name e <> nm) ->
     shell_find_command nm commands' = Some (ShellCommand nm hlp h)) /\
  (forall key e,
     shell_find_command key commands = Some e ->
     shell_find_command key commands' = Some e) /\
  ((32 <= length commands)%nat -> commands' = commands) /\
  ((length commands <= 32)%nat -> (length commands' <= 32)%nat).
Proof.
  intros Hnames Hnm commands'. subst commands'.
  unfold shell_register_command, MAX_COMMANDS.
  split; [|split; [|split]].
  - intros Hroom Hnew. replace (32 <=? Z.of_nat (length commands)) with false by lia.
    apply (shell_find_first nm _ (length commands) (ShellCommand nm hlp h)).
    + apply Forall_app. split; [exact Hnames|]. constructor; [exact Hnm|constructor].
    + exact Hnm.
    + rewrite lookup_app_r by lia. rewrite Nat.sub_diag. reflexivity.
    + reflexivity.
    + intros j e' Hj He'. rewrite lookup_app_l in He' by lia.
      apply Hnew. eapply list_elem_of_lookup_2, He'.
  - intros key e Hfind.
    destruct (32 <=? Z.of_nat (length commands)); [exact Hfind|].
    apply shell_find_app, Hfind.
  - intros Hfull. replace (32 <=? Z.of_nat (length commands)) with true by lia.
    reflexivity.
  - intros Hle. destruct (32 <=? Z.of_nat (length commands)) eqn:E; [lia|].
    rewrite length_app. cbn [length]. lia.
Qed.

Lemma registration_appends_and_never_replaces_witness :
  shell_find_command (cstr "echo")
    (shell_register_command (cstr "echo") [] cmd_echo
       [ShellCommand (cstr "help") [] (fun _ _ s => Some s)])
  = Some (ShellCommand (cstr "echo") [] cmd_echo).
Proof.
  apply (proj1 (registration_appends_and_never_replaces
                  [ShellCommand (cstr "help") [] (fun _ _ s => Some s)]
                  (cstr "echo") [] cmd_echo
                  ltac:(repeat constructor; unfold is_char; cbn; lia)
                  ltac:(repeat constructor; unfold is_char; cbn; lia))).
  - cbn. lia.
  - intros e He. apply list_elem_of_singleton in He as ->. discriminate.
Defined.


(** *** [echo] *)

Lemma kprintf_percent_s a s :
  kprintf (cstr "%s") [VaStr (Some a)] s = Some (vga_print a s).
Proof.
  unfold kprintf. change (cstr "%s") with [37; 115].
  change (S (length [37; 115])) with (S 2).
  rewrite do_printf_string. reflexivity.
Qed.

Lemma echo_text_cons a b more :
  echo_text (a :: b :: more) = a ++ 32 :: echo_text (b :: more).
Proof. reflexivity. Qed.

Lemma echo_text_nul_free args :
  Forall (Forall (fun c => c <> 0)) args -> Forall (fun c => c <> 0) (echo_text args).
Proof.
  induction 1 as [|a more Ha Hmore IH]; [constructor|].
  destruct more as [|b more].
  - cbn. rewrite app_nil_r. exact Ha.
  - rewrite echo_text_cons. apply Forall_app. split; [exact Ha|].
    constructor; [lia|exact IH].
Qed.

Lemma echo_from_spec argc rest : forall i s,
  1 <= i -> i + Z.of_nat (length rest) = argc -> argc < 2147483648 ->
  Forall (Forall (fun c => c <> 0)) rest ->
  echo_from i argc rest s = Some (vga_print (echo_text rest) s).
Proof.
  induction rest as [|a rest IH]; intros i s Hi Hargc Hint Hnz; [reflexivity|].
  apply Forall_cons in Hnz as [Ha Hrest].
  rewrite length_cons in Hargc.
  cbn [echo_from]. replace (i <? argc) with true by lia.
  rewrite kprintf_percent_s, bind_Some.
  rewrite (sint32_small (argc - 1)), (sint32_small (i + 1)) by lia.
  destruct rest as [|b more].
  - cbn [length] in Hargc. replace (i <? argc - 1) with false by lia.
    rewrite bind_Some. cbn [echo_from echo_text fmap list_fmap concat].
    rewrite app_nil_r. reflexivity.
  - rewrite length_cons in Hargc. replace (i <? argc - 1) with true by lia.
    rewrite kprintf_literal by (repeat constructor; discriminate).
    rewrite bind_Some.
    rewrite IH by (rewrite ?length_cons; first [lia | exact Hrest]).
    rewrite echo_text_cons.
    rewrite (vga_print_app a) by exact Ha.
    change (32 :: echo_text (b :: more)) with ([32] ++ echo_text (b :: more)).
    rewrite (vga_print_app [32]) by (repeat constructor; discriminate).
    reflexivity.
Qed.

(** X25.  [echo] prints its arguments after the command name separated by
    single spaces and ends the line; without such arguments it prints the
    newline alone. *)
Theorem echo_prints_arguments_with_single_spaces
    (args : list (list Z)) (s : vga_state) :
  (1 <= length args)%nat -> Z.of_nat (length args) < 2147483648 ->
  Forall (Forall (fun c => c <> 0)) args ->
  cmd_echo (Z.of_nat (length args)) args s
  = Some (vga_print (echo_text (drop 1 args) ++ [10]) s).
Proof.
  intros Hname Hint Hnz. unfold cmd_echo.
  rewrite echo_from_spec.
  - rewrite bind_Some.
    rewrite kprintf_literal by (repeat constructor; discriminate).
    rewrite vga_print_app; [reflexivity|].
    apply echo_text_nul_free, Forall_drop, Hnz.
  - lia.
  - rewrite length_drop. lia.
  - exact Hint.
  - apply Forall_drop, Hnz.
Qed.

Lemma echo_prints_arguments_with_single_spaces_witness :
  cmd_echo 3 [cstr "echo"; cstr "hi"; cstr "there"]
           (VgaState (replicate 2000 0) 0 0 7 [])
  = Some (vga_print (cstr "hi there" ++ [10])
            (VgaState (replicate 2000 0) 0 0 7 [])).
Proof.
  apply (echo_prints_arguments_with_single_spaces
           [cstr "echo"; cstr "hi"; cstr "there"]
           (VgaState (replicate 2000 0) 0 0 7 [])).
  - cbn. lia.
  - cbn. lia.
  - repeat constructor; discriminate.
Defined.

(** *** The line editor *)

(** X26.  Key events that are neither Enter, backspace nor a printable
    character have no effect at all on a call, not even an echo: the call
    behaves as if they had not occurred. *)
Theorem readline_ignores_other_keys
    (keys : list Z) (mem : gmap Z Z) (maxlen : Z) (s : vga_state) :
  shell_readline keys mem maxlen s
  = shell_readline (filter rl_relevant keys) mem maxlen s.
Proof.
  unfold shell_readline. generalize (RlState 0 mem [] s).
  induction keys as [|c keys IH]; intros st; [reflexivity|].
  destruct (decide (rl_relevant c)) as [Hrel|Hirr].
  - rewrite filter_cons_True by exact Hrel.
    rewrite (readline_loop_unfold (c :: keys)),
            (readline_loop_unfold (c :: filter rl_relevant keys)).
    rewrite !IH. reflexivity.
  - rewrite filter_cons_False by exact Hirr.
    rewrite (readline_loop_unfold (c :: keys)).
    unfold rl_relevant in Hirr. unfold KEY_ENTER, KEY_BACKSPACE.
    replace ((c =? 10) || (c =? 10)) with false by lia.
    replace ((c =? 8) || (c =? 8)) with false by lia.
    replace ((32 <=? c) && (c <=? 126)) with false by lia.
    destruct (rl_pos st <? uint64 (maxlen - 1)) eqn:E; [apply IH|].
    rewrite readline_loop_unfold, E. reflexivity.
Qed.


Lemma putchars_snoc cs c s : putchars (cs ++ [c]) s = vga_putchar c (putchars cs s).
Proof. unfold putchars. rewrite fold_left_app. reflexivity. Qed.

Lemma readline_loop_chars maxlen cs : forall rest st,
  maxlen < 18446744073709551616 -> Forall printable cs ->
  0 <= rl_pos st -> rl_pos st + Z.of_nat (length cs) <= maxlen - 1 ->
  exists st',
    readline_loop (cs ++ rest) maxlen st = readline_loop rest maxlen st' /\
    rl_pos st' = rl_pos st + Z.of_nat (length cs) /\
    rl_vga st' = putchars cs (rl_vga st) /\
    (forall k c, cs !! k = Some c ->
       rl_mem st' !! (rl_pos st + Z.of_nat k) = Some c) /\
    (forall i, i < rl_pos st \/ rl_pos st + Z.of_nat (length cs) <= i ->
       rl_mem st' !! i = rl_mem st !! i).
Proof.
  induction cs as [|c cs IH]; intros rest st Hm Hcs Hpos Hroom.
  - exists st. cbn [app length]. split; [reflexivity|]. split; [lia|].
    split; [reflexivity|]. split; [intros k c Hk; by rewrite lookup_nil in Hk|done].
  - apply Forall_cons in Hcs as [Hc Hcs]. unfold printable in Hc.
    rewrite length_cons in Hroom.
    cbn [app]. rewrite readline_loop_unfold.
    rewrite uint64_small by lia.
    replace (rl_pos st <? maxlen - 1) with true by lia.
    replace ((c =? 10) || (c =? KEY_ENTER)) with false
      by (unfold KEY_ENTER; lia).
    replace ((c =? 8) || (c =? KEY_BACKSPACE)) with false
      by (unfold KEY_BACKSPACE; lia).
    replace ((32 <=? c) && (c <=? 126)) with true by lia.
    rewrite uint64_small by lia.
    destruct (IH rest (rl_echo c (rl_set_pos (rl_pos st + 1)
                                    (rl_store (rl_pos st) c st)))
                 Hm Hcs ltac:(cbn; lia) ltac:(cbn; lia))
      as (st' & Eq & Ep & Ev & Em & Eo).
    cbn [rl_pos rl_echo rl_set_pos rl_store rl_vga rl_mem] in Ep, Ev, Em, Eo.
    exists st'. split; [exact Eq|]. split; [rewrite length_cons; lia|].
    split; [exact Ev|]. split.
    + intros k c' Hk. destruct k as [|k].
      * injection Hk as <-. rewrite Z.add_0_r, Eo by lia.
        apply lookup_insert_eq.
      * cbn [lookup list_lookup] in Hk.
        replace (rl_pos st + Z.of_nat (S k)) with (rl_pos st + 1 + Z.of_nat k)
          by lia.
        apply Em, Hk.
    + intros i Hi. rewrite length_cons in Hi. rewrite Eo by lia.
      apply lookup_insert_ne. lia.
Qed.

(** X27.  Typing a line of printable characters that leaves room in the
    buffer and pressing Enter, for every buffer size: the call returns the
    number of characters converted to [int], which is their number while it
    is below 2^31; the buffer holds the characters followed by a NUL, the
    rest of memory is as before, and the display received the characters
    and a newline. *)
Theorem readline_returns_the_typed_line
    (cs rest : list Z) (mem : gmap Z Z) (maxlen : Z) (s : vga_state) :
  1 <= maxlen < 18446744073709551616 -> Forall printable cs ->
  Z.of_nat (length cs) < maxlen - 1 ->
  exists st,
    shell_readline (cs ++ 10 :: rest) mem maxlen s
    = Returned (sint32 (Z.of_nat (length cs))) st /\
    (Z.of_nat (length cs) < 2147483648 ->
     sint32 (Z.of_nat (length cs)) = Z.of_nat (length cs)) /\
    (forall k c, cs !! k = Some c -> rl_mem st !! Z.of_nat k = Some c) /\
    rl_mem st !! Z.of_nat (length cs) = Some 0 /\
    (forall i, i < 0 \/ Z.of_nat (length cs) < i -> rl_mem st !! i = mem !! i) /\
    rl_vga st = putchars (cs ++ [10]) s.
Proof.
  intros Hm Hcs Hroom. unfold shell_readline.
  destruct (readline_loop_chars maxlen cs (10 :: rest) (RlState 0 mem [] s)
              ltac:(lia) Hcs ltac:(cbn; lia) ltac:(cbn; lia))
    as (st' & Eq & Ep & Ev & Em & Eo).
  cbn [rl_pos rl_mem rl_vga] in Ep, Ev, Em, Eo.
  rewrite Eq, readline_loop_unfold, uint64_small by lia.
  replace (rl_pos st' <? maxlen - 1) with true by lia.
  change ((10 =? 10) || (10 =? KEY_ENTER)) with true. cbv iota.
  rewrite Ep, Z.add_0_l.
  eexists. split; [reflexivity|].
  split; [intros Hsmall; apply sint32_small; lia|].
  cbn [rl_mem rl_vga rl_echo rl_store].
  split; [|split; [apply lookup_insert_eq|split]].
  - intros k c Hk. rewrite lookup_insert_ne
      by (apply lookup_lt_Some in Hk; lia).
    rewrite <- (Z.add_0_l (Z.of_nat k)). apply Em, Hk.
  - intros i Hi. rewrite lookup_insert_ne by lia. apply Eo. lia.
  - rewrite Ev. symmetry. apply putchars_snoc.
Qed.

Lemma readline_returns_the_typed_line_witness :
  exists st,
    shell_readline ([104; 105] ++ 10 :: [120]) ∅ 256
                   (VgaState (replicate 2000 0) 0 0 7 [])
    = Returned 2 st /\
    (forall k c, [104; 105] !! k = Some c -> rl_mem st !! Z.of_nat k = Some c) /\
    rl_mem st !! 2 = Some 0 /\
    (forall i, i < 0 \/ 2 < i -> rl_mem st !! i = (∅ : gmap Z Z) !! i) /\
    rl_vga st = putchars ([104; 105] ++ [10])
                         (VgaState (replicate 2000 0) 0 0 7 []).
Proof.
  destruct (readline_returns_the_typed_line [104; 105] [120] ∅ 256
              (VgaState (replicate 2000 0) 0 0 7 []))
    as (st & E & _ & H).
  - lia.
  - repeat constructor; unfold printable; lia.
  - cbn. lia.
  - exists st. split; [exact E|exact H].
Defined.

(** X28.  Once the typed characters fill the buffer up to the place of the
    terminator the call returns by itself, for every buffer size: Enter is
    not waited for, no newline is echoed, and the key events that follow
    are not looked at.  The value returned is [maxlen - 1] converted to
    [int], which is [maxlen - 1] for a buffer of at most 2^31 bytes. *)
Theorem readline_returns_when_the_buffer_is_full
    (cs rest : list Z) (mem : gmap Z Z) (maxlen : Z) (s : vga_state) :
  1 <= maxlen < 18446744073709551616 -> Forall printable cs ->
  Z.of_nat (length cs) = maxlen - 1 ->
  exists st,
    shell_readline (cs ++ rest) mem maxlen s
    = Returned (sint32 (maxlen - 1)) st /\
    (maxlen <= 2147483648 -> sint32 (maxlen - 1) = maxlen - 1) /\
    (forall k c, cs !! k = Some c -> rl_mem st !! Z.of_nat k = Some c) /\
    rl_mem st !! (maxlen - 1) = Some 0 /\
    rl_vga st = putchars cs s.
Proof.
  intros Hm Hcs Hfull. unfold shell_readline.
  destruct (readline_loop_chars maxlen cs rest (RlState 0 mem [] s)
              ltac:(lia) Hcs ltac:(cbn; lia) ltac:(cbn; lia))
    as (st' & Eq & Ep & Ev & Em & Eo).
  cbn [rl_pos rl_mem rl_vga] in Ep, Ev, Em, Eo.
  rewrite Eq, readline_loop_unfold, uint64_small by lia.
  replace (rl_pos st' <? maxlen - 1) with false by lia.
  rewrite Ep, Z.add_0_l, Hfull.
  eexists. split; [reflexivity|].
  split; [intros Hfit; apply sint32_small; lia|].
  cbn [rl_mem rl_vga rl_store].
  split; [|split; [apply lookup_insert_eq|exact Ev]].
  intros k c Hk. rewrite lookup_insert_ne
    by (apply lookup_lt_Some in Hk; lia).
  rewrite <- (Z.add_0_l (Z.of_nat k)). apply Em, Hk.
Qed.

Lemma readline_returns_when_the_buffer_is_full_witness :
  exists st,
    shell_readline ([104; 105; 33] ++ [8; 8; 10]) ∅ 4
                   (VgaState (replicate 2000 0) 0 0 7 [])
    = Returned 3 st /\
    (forall k c, [104; 105; 33] !! k = Some c -> rl_mem st !! Z.of_nat k = Some c) /\
    rl_mem st !! 3 = Some 0 /\
    rl_vga st = putchars [104; 105; 33] (VgaState (replicate 2000 0) 0 0 7 []).
Proof.
  destruct (readline_returns_when_the_buffer_is_full [104; 105; 33] [8; 8; 10] ∅ 4
              (VgaState (replicate 2000 0) 0 0 7 []))
    as (st & E & _ & H).
  - lia.
  - repeat constructor; unfold printable; lia.
  - cbn. lia.
  - exists st. split; [exact E|exact H].
Defined.

End ShellMore.

(** ** The [color] command *)

Section ColorFacts.
Import Libc Vga Printf Shell Commands.

Lemma color_by_name_in str names v :
  color_by_name str names = Some v -> v ∈ names.*2.
Proof.
  induction names as [|[nm col] names IH]; [discriminate|].
  cbn [color_by_name fmap list_fmap snd].
  destruct (strcmp str nm =? 0).
  - intros [= <-]. left.
  - intros H. right. apply IH, H.
Qed.

Lemma parse_color_range :
  forall str v, parse_color str = Some v -> 0 <= v <= 15.
Proof.
  intros str v. unfold parse_color.
  destruct ((48 <=? deref str) && (deref str <=? 57)).
  - destruct (color_number str 0) as [val rest].
    destruct ((deref rest =? 0) && (0 <=? val) && (val <=? 15)) eqn:E;
      [|discriminate].
    intros [= <-]. lia.
  - intros H. apply color_by_name_in in H.
    assert (Hall : Forall (fun v => 0 <= v <= 15) color_names.*2)
      by (apply (bool_decide_eq_true_1
                   (Forall (fun v => 0 <= v <= 15) color_names.*2));
          vm_compute; reflexivity).
    rewrite Forall_forall in Hall. apply Hall, H.
Qed.

(** X29.  [parse_color] yields nothing but the sixteen colours: each name of
    its table gives the colour listed with it, a decimal number gives
    itself when it is at most 15 and is refused when it is larger, and
    whatever the string, a colour returned lies between 0 and 15. *)
Theorem parse_color_yields_a_valid_colour :
  (forall str v, parse_color str = Some v -> 0 <= v <= 15) /\
  Forall (fun e => parse_color e.1 = Some e.2) color_names /\
  (forall v, 0 <= v < 10 -> parse_color [48 + v] = Some v) /\
  (forall v, 0 <= v < 100 ->
     parse_color [48 + v `div` 10; 48 + v `mod` 10]
     = if v <=? 15 then Some v else None).
Proof.
  split; [exact parse_color_range|split; [|split]].
  - apply (bool_decide_eq_true_1
             (Forall (fun e => parse_color e.1 = Some e.2) color_names)).
    vm_compute. reflexivity.
  - apply (forall_below 10 (fun v => parse_color [48 + v] = Some v)).
    vm_compute. reflexivity.
  - apply (forall_below 100
      (fun v => parse_color [48 + v `div` 10; 48 + v `mod` 10]
                = if v <=? 15 then Some v else None)).
    vm_compute. reflexivity.
Qed.

Lemma parse_color_yields_a_valid_colour_witness :
  parse_color [48 + 7] = Some 7 /\
  parse_color [48 + 12 `div` 10; 48 + 12 `mod` 10]
  = (if 12 <=? 15 then Some 12 else None).
Proof.
  destruct parse_color_yields_a_valid_colour as (_ & _ & H1 & H2).
  split; [apply H1; lia | apply H2; lia].
Defined.


Lemma kprintf_invalid_color a s :
  Forall (fun c => c <> 0) a ->
  kprintf (newline_fmt "Error: Invalid color '%s'") [VaStr (Some a)] s
  = Some (vga_print (cstr "Error: Invalid color '" ++ a ++ cstr "'" ++ [10]) s).
Proof.
  intros Ha. unfold kprintf.
  change (newline_fmt "Error: Invalid color '%s'")
    with (cstr "Error: Invalid color '" ++ [37; 115] ++ [39; 10]).
  change (S (length (cstr "Error: Invalid color '" ++ [37; 115] ++ [39; 10])))
    with (length (cstr "Error: Invalid color '") + S (2 + 2))%nat.
  rewrite do_printf_literal by (apply literal_format; reflexivity).
  cbn [app]. rewrite do_printf_string.
  rewrite <- (app_nil_r [39; 10]).
  rewrite (do_printf_literal [39; 10] 2) by (repeat constructor; discriminate).
  rewrite do_printf_end.
  rewrite (vga_print_app (cstr "Error: Invalid color '"))
    by (eapply Forall_impl;
        [apply (literal_format (cstr "Error: Invalid color '")); reflexivity|];
        by intros ? [? _]).
  rewrite (vga_print_app a) by exact Ha. reflexivity.
Qed.


Lemma kprintf_color_set a1 a2 s :
  Forall (fun c => c <> 0) a1 -> Forall (fun c => c <> 0) a2 ->
  kprintf (newline_fmt "Color set to %s on %s")
          [VaStr (Some a1); VaStr (Some a2)] s
  = Some (vga_print (cstr "Color set to " ++ a1 ++ cstr " on " ++ a2 ++ [10]) s).
Proof.
  intros Ha1 Ha2. unfold kprintf.
  change (newline_fmt "Color set to %s on %s")
    with (cstr "Color set to " ++ [37; 115] ++ cstr " on " ++ [37; 115] ++ [10]).
  change (S (length (cstr "Color set to " ++ [37; 115] ++ cstr " on "
                     ++ [37; 115] ++ [10])))
    with (length (cstr "Color set to ")
          + S (length (cstr " on ") + S (1 + 3)))%nat.
  rewrite do_printf_literal by (apply literal_format; reflexivity).
  cbn [app]. rewrite do_printf_string.
  change (32 :: 111 :: 110 :: 32 :: 37 :: 115 :: [10])
    with (cstr " on " ++ 37 :: 115 :: [10]).
  rewrite do_printf_literal by (apply literal_format; reflexivity).
  rewrite do_printf_string.
  rewrite <- (app_nil_r [10]).
  rewrite (do_printf_literal [10] 3) by (repeat constructor; discriminate).
  rewrite do_printf_end.
  rewrite (vga_print_app (cstr "Color set to "))
    by (eapply Forall_impl;
        [apply (literal_format (cstr "Color set to ")); reflexivity|];
        by intros ? [? _]).
  rewrite (vga_print_app a1) by exact Ha1.
  rewrite (vga_print_app (cstr " on "))
    by (eapply Forall_impl;
        [apply (literal_format (cstr " on ")); reflexivity|];
        by intros ? [? _]).
  rewrite (vga_print_app a2) by exact Ha2. reflexivity.
Qed.

(** X30.  [color] with two arguments changes both colours or neither: when both
    arguments name colours the attribute becomes background times 16 plus
    foreground and the confirmation is printed in it; when either one does
    not, the attribute stays and the message names that argument.  With
    one argument the background becomes black. *)
Theorem color_command_sets_both_colours_or_neither
    (nm a1 a2 : list Z) (s : vga_state) :
  Forall (fun c => c <> 0) a1 -> Forall (fun c => c <> 0) a2 ->
  (forall fg bg,
     parse_color a1 = Some fg -> parse_color a2 = Some bg ->
     exists s',
       cmd_color 3 [nm; a1; a2] s = Some s' /\
       s' = vga_print (cstr "Color set to " ++ a1 ++ cstr " on " ++ a2 ++ [10])
                      (vga_set_color fg bg s) /\
       current_attr s' = bg * 16 + fg) /\
  (parse_color a1 = None ->
   exists s',
     cmd_color 3 [nm; a1; a2] s = Some s' /\
     s' = vga_print (cstr "Error: Invalid color '" ++ a1 ++ cstr "'" ++ [10]) s /\
     current_attr s' = current_attr s) /\
  (forall fg,
     parse_color a1 = Some fg -> parse_color a2 = None ->
     exists s',
       cmd_color 3 [nm; a1; a2] s = Some s' /\
       s' = vga_print (cstr "Error: Invalid color '" ++ a2 ++ cstr "'" ++ [10]) s /\
       current_attr s' = current_attr s) /\
  (forall fg,
     parse_color a1 = Some fg ->
     exists s',
       cmd_color 2 [nm; a1] s = Some s' /\
       s' = vga_print (cstr "Color set to " ++ a1 ++ cstr " on " ++ cstr "black"
                       ++ [10])
                      (vga_set_color fg VGA_BLACK s) /\
       current_attr s' = fg).
Proof.
  intros Ha1 Ha2.
  pose proof parse_color_range as Hrange.
  unfold cmd_color.
  change (3 =? 1) with false. change (2 =? 1) with false.
  change (3 <=? 3) with true. change (3 <=? 2) with false.
  cbn [lookup list_lookup]. rewrite !bind_Some.
  split; [|split; [|split]].
  - intros fg bg E1 E2. rewrite E1. cbn [lookup list_lookup].
    rewrite bind_Some, E2.
    rewrite kprintf_color_set by assumption.
    eexists. split; [reflexivity|]. split; [reflexivity|].
    rewrite vga_print_attr. unfold vga_set_color. cbn [current_attr set_attr].
    pose proof (Hrange a1 fg E1). pose proof (Hrange a2 bg E2).
    apply make_attr_value; lia.
  - intros E1. rewrite E1.
    rewrite kprintf_invalid_color by assumption.
    eexists. split; [reflexivity|]. split; [reflexivity|].
    apply vga_print_attr.
  - intros fg E1 E2. rewrite E1. cbn [lookup list_lookup].
    rewrite bind_Some, E2.
    rewrite kprintf_invalid_color by assumption.
    eexists. split; [reflexivity|]. split; [reflexivity|].
    apply vga_print_attr.
  - intros fg E1. rewrite E1.
    rewrite kprintf_color_set
      by (first [assumption | repeat constructor; discriminate]).
    eexists. split; [reflexivity|]. split; [reflexivity|].
    rewrite vga_print_attr. unfold vga_set_color, VGA_BLACK.
    cbn [current_attr set_attr].
    pose proof (Hrange a1 fg E1).
    rewrite make_attr_value by lia. lia.
Qed.

Lemma color_command_sets_both_colours_or_neither_witness :
  exists s',
    cmd_color 3 [cstr "color"; cstr "yellow"; cstr "blue"]
              (VgaState (replicate 2000 0) 0 0 7 []) = Some s' /\
    s' = vga_print (cstr "Color set to " ++ cstr "yellow" ++ cstr " on "
                    ++ cstr "blue" ++ [10])
                   (vga_set_color 14 1 (VgaState (replicate 2000 0) 0 0 7 [])) /\
    current_attr s' = 1 * 16 + 14.
Proof.
  apply (proj1 (color_command_sets_both_colours_or_neither
                  (cstr "color") (cstr "yellow") (cstr "blue")
                  (VgaState (replicate 2000 0) 0 0 7 [])
                  ltac:(repeat constructor; discriminate)
                  ltac:(repeat constructor; discriminate)) 14 1);
    reflexivity.
Defined.

End ColorFacts.
